(** * Task lifecycle of the task-tracking backend

    A shallow embedding of the status-transition code of the backend
    (the periodic worker of [app/celery_worker.py], the start-up
    reconciliation of [app/main.py], the inline transitions of
    [app/routes/analytics.py] and [app/routes/tasks.py]), of its cache
    invalidation ([app/cache.py]) and of the websocket connection manager
    ([app/websocket.py]), with the properties of the design document
    stated and settled against it.

    Conventions of the embedding:
    - a table with a UUID primary key is a [gmap] from the key to the row;
      a UUID is the 128-bit number it denotes ([N]);
    - a timezone-aware [datetime] is the instant it denotes, as a [Z];
    - a nullable column is an [option]; the two flags of a task
      ([notify_overdue], [is_deleted]) are booleans, as every insert of
      the code gives them a value;
    - a Python dict is a [gmap]: no property below depends on the order
      in which a dict or a result set is walked;
    - a [str] is the [string] of its characters, which are taken from the
      one-byte alphabet, so that the length of a string is the number of
      its characters and of its bytes alike;
    - server-side timestamps ([created_at], [updated_at]), tags and file
      attachments play no part in any transition and are left out as
      columns.  What [updated_at] does to a handler is kept: the column
      is filled by the store on every UPDATE ([onupdate=func.now()]), the
      declarative base of app/database.py is taken with the mapper's
      defaults, and so the attribute is expired on a row once a flush has
      issued an UPDATE for it; reading it then, as the response models
      that carry [updated_at] do, raises in an asynchronous session;
    - a request handler runs in the session [get_db] of app/database.py
      hands it: committed when the handler returns, rolled back when it
      raises. *)

From stdpp Require Import gmap strings list fin_maps.
From Stdlib Require Import ZArith Ascii.

Local Open Scope Z_scope.
Local Open Scope string_scope.
Local Open Scope list_scope.

(** ** app/models.py *)

Inductive TaskStatus := TODO | IN_PROGRESS | COMPLETED | OVERDUE.
Inductive TaskPriority := LOW | MEDIUM | HIGH | URGENT.
Inductive NotificationType := TASK_OVERDUE | TASK_ASSIGNED | COMMENT_ADDED.

#[global] Instance TaskStatus_eq_dec : EqDecision TaskStatus.
Proof. solve_decision. Defined.
#[global] Instance TaskPriority_eq_dec : EqDecision TaskPriority.
Proof. solve_decision. Defined.
#[global] Instance NotificationType_eq_dec : EqDecision NotificationType.
Proof. solve_decision. Defined.

Abbreviation uuid := N (only parsing).
Abbreviation datetime := Z (only parsing).

Module User.
Record t := mk {
  email : string;
  username : string;
  full_name : string;
  is_active : bool;
}.
End User.

Module Task.
Record t := mk {
  title : string;
  description : option string;
  status : TaskStatus;
  priority : TaskPriority;
  start_date : option datetime;
  due_date : option datetime;
  notify_overdue : bool;
  is_deleted : bool;
  created_by : uuid;
  assigned_to : option uuid;
}.

(** [task.status = s]: the only attribute the transitions assign. *)
Definition set_status (s : TaskStatus) (x : t) : t :=
  mk (title x) (description x) s (priority x) (start_date x) (due_date x)
     (notify_overdue x) (is_deleted x) (created_by x) (assigned_to x).

(** [task.is_deleted = True] *)
Definition set_deleted (x : t) : t :=
  mk (title x) (description x) (status x) (priority x) (start_date x)
     (due_date x) (notify_overdue x) true (created_by x) (assigned_to x).
End Task.

Module Comment.
Record t := mk {
  content : string;
  content_html : option string;
  task_id : uuid;
  user_id : uuid;
  is_deleted : bool;
}.
End Comment.

Module Notification.
Record t := mk {
  user_id : uuid;
  task_id : option uuid;
  type : NotificationType;
  title : string;
  message : string;
  is_read : bool;
}.
End Notification.

#[global] Instance Notification_eq_dec : EqDecision Notification.t.
Proof. solve_decision. Defined.
#[global] Instance Task_eq_dec : EqDecision Task.t.
Proof. solve_decision. Defined.
#[global] Instance Comment_eq_dec : EqDecision Comment.t.
Proof. solve_decision. Defined.

(** The rows of the database the transitions read and write.  The
    notification table is kept in insertion order. *)
Record DB := mkDB {
  tasks : gmap uuid Task.t;
  users : gmap uuid User.t;
  comments : gmap uuid Comment.t;
  notifications : list Notification.t;
}.

(** A call of [send_email_notification(to_email, subject, body)], direct or
    through [.delay]. *)
Record Email := mkEmail {
  to_email : string;
  subject : string;
  body : string;
}.

(** The exceptions the modelled code raises or lets through. *)
Inductive Exn :=
| HTTPException (status_code : nat) (detail : string)
| ValueError
| IntegrityError
| DataError
| MissingGreenlet
| ValidationError.

(** [title = Column(String(255))] of [Notification]: the store refuses a
    longer title, and the flush that carries the INSERT raises
    [DataError]. *)
Definition title_fits (n : Notification.t) : bool :=
  bool_decide (String.length (Notification.title n) ≤ 255)%nat.

(** ** The queries shared by the three evaluation sites *)

(** [Task.due_date < now]; a NULL due date compares to NULL and the row is
    not selected. *)
Definition due_before (now : datetime) (t : Task.t) : bool :=
  match Task.due_date t with
  | Some d => bool_decide (d < now)
  | None => false
  end.

(** [Task.start_date <= now] *)
Definition started_by (now : datetime) (t : Task.t) : bool :=
  match Task.start_date t with
  | Some s => bool_decide (s <= now)
  | None => false
  end.

(** [Task.status.notin_([TaskStatus.COMPLETED, TaskStatus.OVERDUE])] *)
Definition status_open (t : Task.t) : bool :=
  negb (bool_decide (Task.status t ∈ [COMPLETED; OVERDUE])).

(** The WHERE clause
    [due_date < now, status NOT IN (COMPLETED, OVERDUE), is_deleted == False]. *)
Definition overdue_where (now : datetime) (t : Task.t) : bool :=
  due_before now t && status_open t && negb (Task.is_deleted t).

(** The WHERE clause
    [start_date <= now, status == TODO, is_deleted == False]. *)
Definition in_progress_where (now : datetime) (t : Task.t) : bool :=
  started_by now t && bool_decide (Task.status t = TODO)
  && negb (Task.is_deleted t).

(** [select(Task).where(...).scalars().all()]: the selected rows with their
    primary keys, in the order the store returns them. *)
Definition select_overdue (now : datetime) (db : DB) : list (uuid * Task.t) :=
  map_to_list (filter (λ kv, overdue_where now kv.2 = true) (tasks db)).

(** An attribute assignment on a loaded row, written back by primary key
    when the session is flushed. *)
Definition update_status (id : uuid) (s : TaskStatus) (db : DB) : DB :=
  mkDB (alter (Task.set_status s) id (tasks db)) (users db) (comments db)
       (notifications db).

(** [session.add(notification)] *)
Definition add_notification (n : Notification.t) (db : DB) : DB :=
  mkDB (tasks db) (users db) (comments db) (notifications db ++ [n]).

(** [task.assigned_to or task.created_by]: a UUID is never falsy, so the
    creator is taken exactly when there is no assignee. *)
Definition notify_user_id (t : Task.t) : uuid :=
  default (Task.created_by t) (Task.assigned_to t).

Definition overdue_notification (id : uuid) (t : Task.t) : Notification.t :=
  Notification.mk (notify_user_id t) (Some id) TASK_OVERDUE
    ("Task Overdue: " +:+ Task.title t)
    ("Task '" +:+ Task.title t +:+ "' is past its due date. Please take action.")
    false.

Definition overdue_email (to : string) (t : Task.t) : Email :=
  mkEmail to ("Overdue: " +:+ Task.title t)
    ("<p>Task <strong>" +:+ Task.title t
     +:+ "</strong> is overdue. Please update its status.</p>").

(** ** app/celery_worker.py *)

Module CeleryWorker.

(** The state the loop of [process_task_overdue_check] threads: the
    session's view of the rows ([db], pending writes applied), the
    notifications added whose INSERT has not been issued yet, the users
    the session has loaded, the e-mail jobs handed to the queue, and the
    two counters. *)
Record LoopState := mkLoop {
  db : DB;
  unflushed : list Notification.t;
  identity_map : gset uuid;
  mail : list Email;
  marked : nat;
  notified : nat;
}.

(** A flush issues the pending INSERTs; [None] when the store refuses
    one and the flush raises. *)
Definition flush (st : LoopState) : option LoopState :=
  if forallb title_fits (unflushed st) then
    Some (mkLoop (db st) [] (identity_map st) (mail st) (marked st)
                 (notified st))
  else None.

(** [session.get(User, ident)]: a user the session has loaded comes from
    its identity map; otherwise the session flushes and SELECTs. *)
Definition session_get (ident : uuid) (st : LoopState)
    : option (option User.t * LoopState) :=
  if decide (ident ∈ identity_map st) then Some (users (db st) !! ident, st)
  else
    match flush st with
    | Some st' =>
        match users (db st') !! ident with
        | Some u =>
            Some (Some u,
                  mkLoop (db st') (unflushed st')
                         ({[ ident ]} ∪ identity_map st') (mail st')
                         (marked st') (notified st'))
        | None => Some (None, st')
        end
    | None => None
    end.

(** [send_email_notification.delay(assignee.email, ...)] *)
Definition delay (to : string) (task : Task.t) (st : LoopState) : LoopState :=
  mkLoop (db st) (unflushed st) (identity_map st)
         (mail st ++ [overdue_email to task]) (marked st) (notified st).

(** One iteration of [for task in overdue_tasks]; [inl] when the flush
    inside [session.get] raises, with the jobs queued by then. *)
Definition loop_body (st : LoopState) (row : uuid * Task.t)
    : list Email + LoopState :=
  let '(id, task) := row in
  let d := update_status id OVERDUE (db st) in
  let m := S (marked st) in
  if Task.notify_overdue task then
    let notification := overdue_notification id task in
    let st1 :=
      mkLoop (add_notification notification d)
             (unflushed st ++ [notification]) (identity_map st) (mail st) m
             (S (notified st)) in
    match Task.assigned_to task with
    | Some a =>
        match session_get a st1 with
        | Some (Some assignee, st2) =>
            inr (delay (User.email assignee) task st2)
        | Some (None, st2) => inr st2
        | None => inl (mail st1)
        end
    | None => inr st1
    end
  else
    inr (mkLoop d (unflushed st) (identity_map st) (mail st) m (notified st)).

Fixpoint loop (overdue_tasks : list (uuid * Task.t)) (st : LoopState)
    : list Email + LoopState :=
  match overdue_tasks with
  | [] => inr st
  | row :: overdue_tasks' =>
      match loop_body st row with
      | inr st' => loop overdue_tasks' st'
      | inl q => inl q
      end
  end.

Record Result := mkResult {
  status : string;
  marked_overdue : nat;
  notifications_sent : nat;
}.

(** The loop and [session.commit()], on rows selected earlier.  When a
    flush raises, [with Session(engine)] closes the session on the way
    out, nothing is committed and the run ends with the exception; the
    jobs queued before stay queued. *)
Definition process_selected (overdue_tasks : list (uuid * Task.t))
    (d : DB) (q : list Email) : DB * list Email * (Exn + Result) :=
  match loop overdue_tasks (mkLoop d [] ∅ q 0%nat 0%nat) with
  | inr st =>
      match flush st with
      | Some st' =>
          (db st', mail st',
           inr (mkResult "processed" (marked st') (notified st')))
      | None => (d, mail st, inl DataError)
      end
  | inl q' => (d, q', inl DataError)
  end.

Definition process_task_overdue_check (now : datetime) (d : DB)
    (q : list Email) : DB * list Email * (Exn + Result) :=
  process_selected (select_overdue now d) d q.

End CeleryWorker.

(** [update(Task).where(...).values(status=s)]: one statement, applied by
    the store to every row the WHERE clause holds of. *)
Definition bulk_update_status (where_ : Task.t → bool) (s : TaskStatus)
    (d : DB) : DB :=
  mkDB ((λ t, if where_ t then Task.set_status s t else t) <$> tasks d)
       (users d) (comments d) (notifications d).

(** ** app/main.py: the reconciliation [lifespan] runs before serving *)

Module Main.

(** [send_email_notification(u.email, ...)], called in place, guarded by
    the look-up of the notified user and [if u and u.email:]. *)
Definition recipient_mail (t : Task.t) (d : DB) : list Email :=
  match users d !! notify_user_id t with
  | Some u =>
      if bool_decide (User.email u = "") then []
      else [overdue_email (User.email u) t]
  | None => []
  end.

(** Step 1, [for task in overdue_tasks], on the session's view of the
    rows.  The look-up of the notified user flushes the session first;
    when the store refuses the notification just added the flush raises,
    the inner [except] swallows it, and the session, its transaction
    rolled back, serves nothing more: the rest of the pass raises into
    the outer [except].  [None] stands for that end. *)
Fixpoint overdue_loop (overdue_tasks : list (uuid * Task.t))
    (st : DB * list Email) : option DB * list Email :=
  match overdue_tasks with
  | [] => (Some st.1, st.2)
  | (id, task) :: overdue_tasks' =>
      let d := update_status id OVERDUE st.1 in
      if Task.notify_overdue task then
        let notif := overdue_notification id task in
        if title_fits notif then
          overdue_loop overdue_tasks'
            (add_notification notif d, st.2 ++ recipient_mail task d)
        else (None, st.2)
      else overdue_loop overdue_tasks' (d, st.2)
  end.

(** Step 1 (past-due tasks become OVERDUE, with notifications), then
    step 2 (started TODO tasks become IN_PROGRESS, one UPDATE statement
    issued after the session flushed step 1), then the commit; or, when
    a flush has raised, [except Exception: pass] with nothing committed
    and the mail sent by then. *)
Definition lifespan (now : datetime) (d : DB) (q : list Email)
    : DB * list Email :=
  match overdue_loop (select_overdue now d) (d, q) with
  | (Some d1, q1) =>
      (bulk_update_status (in_progress_where now) IN_PROGRESS d1, q1)
  | (None, q1) => (d, q1)
  end.

End Main.

(** ** app/routes/analytics.py: the transitions [get_overview] applies on a
    cache miss, before it counts *)

Module Analytics.

Definition get_overview_transitions (now : datetime) (d : DB) : DB :=
  bulk_update_status (in_progress_where now) IN_PROGRESS
    (bulk_update_status (overdue_where now) OVERDUE d).

End Analytics.

(** ** Several workers at once

    One run of [process_task_overdue_check] is taken to talk to the store
    twice: the SELECT of the eligible rows, and the flush and commit of
    what the loop did to them.  Between the two the rows live in the worker's session.
    Workers that run at the same time interleave at these two points; the
    UPDATE a flush issues for [task.status = OVERDUE] is keyed on the
    primary key alone. *)

Module Race.

Inductive Evaluator :=
| Idle
| Selected (overdue_tasks : list (uuid * Task.t))
| Finished (overdue_tasks : list (uuid * Task.t))
    (r : Exn + CeleryWorker.Result).

Record Sys := mkSys {
  store : DB;
  queue : list Email;
  evaluators : list Evaluator;
}.

(** Evaluator [ev.1] takes its next step; [ev.2] is the clock it would
    read as [now] if that step is its SELECT. *)
Definition step (s : Sys) (ev : nat * datetime) : Sys :=
  match evaluators s !! ev.1 with
  | Some Idle =>
      mkSys (store s) (queue s)
        (<[ev.1 := Selected (select_overdue ev.2 (store s))]> (evaluators s))
  | Some (Selected rows) =>
      let '(d, q, r) :=
        CeleryWorker.process_selected rows (store s) (queue s) in
      mkSys d q (<[ev.1 := Finished rows r]> (evaluators s))
  | _ => s
  end.

Definition run (schedule : list (nat * datetime)) (s : Sys) : Sys :=
  foldl step s schedule.

Definition start (n : nat) (d : DB) (q : list Email) : Sys :=
  mkSys d q (replicate n Idle).

(** Evaluators [j], [j+1], ... run one after another, each to its end. *)
Fixpoint serial (j : nat) (nows : list datetime) : list (nat * datetime) :=
  match nows with
  | [] => []
  | now :: nows' => (j, now) :: (j, now) :: serial (S j) nows'
  end.

(** Evaluators [j], [j+1], ... all do their SELECT ... *)
Fixpoint selects (j : nat) (nows : list datetime) : list (nat * datetime) :=
  match nows with
  | [] => []
  | now :: nows' => (j, now) :: selects (S j) nows'
  end.

(** ... and then [n] of them commit, from [j] on (no clock is read). *)
Definition commits (j n : nat) : list (nat * datetime) :=
  (λ i, (i, 0)) <$> seq j n.

Definition overlapped (nows : list datetime) : list (nat * datetime) :=
  selects 0 nows ++ commits 0 (length nows).

(** Whether an evaluator has had task [k] among the rows it selected. *)
Definition selected (k : uuid) (ev : Evaluator) : Prop :=
  match ev with
  | Idle => False
  | Selected rows | Finished rows _ => k ∈ rows.*1
  end.

#[global] Instance selected_dec k ev : Decision (selected k ev).
Proof. destruct ev; cbn; apply _. Defined.

(** Whole runs, one after another, as a function of the clocks read. *)
Fixpoint sweeps (nows : list datetime) (d : DB) (q : list Email)
    : DB * list Email * list Evaluator :=
  match nows with
  | [] => (d, q, [])
  | now :: nows' =>
      let '(d1, q1, r) := CeleryWorker.process_task_overdue_check now d q in
      let '(d2, q2, evs) := sweeps nows' d1 q1 in
      (d2, q2, Finished (select_overdue now d) r :: evs)
  end.

(** The commits of evaluators that hold [rowss], one after another. *)
Fixpoint commit_all (rowss : list (list (uuid * Task.t))) (d : DB)
    (q : list Email) : DB * list Email * list Evaluator :=
  match rowss with
  | [] => (d, q, [])
  | rows :: rowss' =>
      let '(d1, q1, r) := CeleryWorker.process_selected rows d q in
      let '(d2, q2, evs) := commit_all rowss' d1 q1 in
      (d2, q2, Finished rows r :: evs)
  end.

End Race.

(** The TASK_OVERDUE notifications of task [k] in a notification table. *)
Definition overdue_notifications_of (k : uuid) (ns : list Notification.t)
    : list Notification.t :=
  filter (λ n, Notification.task_id n = Some k
               ∧ Notification.type n = TASK_OVERDUE) ns.

(** ** app/cache.py *)

Module Cache.

(** Whether a pattern is made of stars alone. *)
Fixpoint stars (pattern : string) : bool :=
  match pattern with
  | EmptyString => true
  | String c pattern' => Ascii.eqb c "*"%char && stars pattern'
  end.

(** The end of one round of the matcher's loop: with the key used up, the
    rest of the pattern may only be [*]s; otherwise the loop goes on. *)
Definition resume (matcher : string → bool) (pattern key : string) : bool :=
  match key with
  | EmptyString => stars pattern
  | String _ _ => matcher key
  end.

(** [c >= start && c <= end], after the swap of a reversed range. *)
Definition in_range (lo hi c : ascii) : bool :=
  let lo' := N.min (N_of_ascii lo) (N_of_ascii hi) in
  let hi' := N.max (N_of_ascii lo) (N_of_ascii hi) in
  bool_decide (lo' ≤ N_of_ascii c)%N && bool_decide (N_of_ascii c ≤ hi')%N.

(** The key matching of the store's SCAN ... MATCH, after the glob
    matcher of the Redis server: [*], [?], classes in brackets with
    negation, ranges and escapes, and the backslash escape, on
    byte strings and with case.  The loop ends when the pattern or the
    key is used up, and matches when both are. *)
Fixpoint glob_match (pattern : string) : string → bool :=
  match pattern with
  | EmptyString => λ key, bool_decide (key = "")
  | String c pattern' => λ key,
      match key with
      | EmptyString => false
      | String k key' =>
          if Ascii.eqb c "*"%char then
            match pattern' with
            | EmptyString => true
            | String c' _ =>
                if Ascii.eqb c' "*"%char then glob_match pattern' key
                else
                  (fix star (key : string) : bool :=
                     match key with
                     | EmptyString => false
                     | String _ key' => glob_match pattern' key || star key'
                     end) key
            end
          else if Ascii.eqb c "?"%char then
            resume (glob_match pattern') pattern' key'
          else if Ascii.eqb c "["%char then
            let class :=
              fix class (negate matched : bool) (body : string) : bool :=
                match body with
                | EmptyString => xorb matched negate && bool_decide (key' = "")
                | String b body' =>
                    if Ascii.eqb b "\"%char then
                      match body' with
                      | String e body'' =>
                          class negate (matched || Ascii.eqb e k) body''
                      | EmptyString =>
                          xorb (matched || Ascii.eqb b k) negate
                          && bool_decide (key' = "")
                      end
                    else if Ascii.eqb b "]"%char then
                      xorb matched negate
                      && resume (glob_match body') body' key'
                    else
                      match body' with
                      | String dash (String hi body'') =>
                          if Ascii.eqb dash "-"%char then
                            class negate (matched || in_range b hi k) body''
                          else class negate (matched || Ascii.eqb b k) body'
                      | _ => class negate (matched || Ascii.eqb b k) body'
                      end
                end in
            match pattern' with
            | String c' body =>
                if Ascii.eqb c' "^"%char then class true false body
                else class false false pattern'
            | EmptyString => class false false pattern'
            end
          else if Ascii.eqb c "\"%char then
            match pattern' with
            | String e pattern'' =>
                Ascii.eqb e k && resume (glob_match pattern'') pattern'' key'
            | EmptyString => Ascii.eqb c k && bool_decide (key' = "")
            end
          else Ascii.eqb c k && resume (glob_match pattern') pattern' key'
      end
  end.

(** SCAN returns every key when the pattern is the single star, and the
    keys the matcher accepts otherwise. *)
Definition scan_match (pattern key : string) : bool :=
  bool_decide (pattern = "*") || glob_match pattern key.

(** [async for key in r.scan_iter(match=pattern): await r.delete(key)] *)
Definition cache_delete_pattern (pattern : string)
    (entries : gmap string string) : gmap string string :=
  filter (λ kv, scan_match pattern kv.1 = false) entries.

Definition cache_get (key : string) (entries : gmap string string)
    : option string :=
  entries !! key.

(** The time to live is not modelled: an entry stays until purged. *)
Definition cache_set (key value : string) (entries : gmap string string)
    : gmap string string :=
  <[key := value]> entries.

End Cache.

(** ** app/websocket.py *)

(** A websocket is the identity of its connection object (connection
    objects compare by identity). *)
Abbreviation WebSocket := N (only parsing).

Inductive Json := JStr (s : string) | JUuid (u : uuid).

(** The dict handed to [send_json]. *)
Record Message := mkMessage {
  msg_type : string;
  data : list (string * Json);
}.

(** The transport: the sockets on which a send raises, and the messages
    delivered so far, oldest first. *)
Record Net := mkNet {
  closed : gset WebSocket;
  delivered : list (WebSocket * Message);
}.

(** [await ws.send_json(message)]; [None] when it raises. *)
Definition send_json (ws : WebSocket) (message : Message) (n : Net)
    : option Net :=
  if decide (ws ∈ closed n) then None
  else Some (mkNet (closed n) (delivered n ++ [(ws, message)])).

(** [try: await ws.send_json(message) except Exception: pass] *)
Definition try_send_json (message : Message) (n : Net) (ws : WebSocket) : Net :=
  default n (send_json ws message n).

Module ConnectionManager.

Record t := mk {
  active_connections : gmap string (list WebSocket);
}.

Definition init : t := mk ∅.

(** The handshake [await websocket.accept()] leaves no trace in the
    registry and is taken to succeed. *)
Definition connect (websocket : WebSocket) (user_id : string) (self : t) : t :=
  mk (<[user_id := default [] (active_connections self !! user_id)
                   ++ [websocket]]> (active_connections self)).

Definition disconnect (websocket : WebSocket) (user_id : string) (self : t)
    : t :=
  match active_connections self !! user_id with
  | Some conns =>
      let conns' := filter (λ ws, ws ≠ websocket) conns in
      if decide (conns' = []) then mk (delete user_id (active_connections self))
      else mk (<[user_id := conns']> (active_connections self))
  | None => self
  end.

Definition send_personal (user_id : string) (message : Message) (self : t)
    (n : Net) : Net :=
  match active_connections self !! user_id with
  | Some conns => foldl (try_send_json message) n conns
  | None => n
  end.

(** The body of [for user_id, connections in ...items()]. *)
Definition broadcast_bucket (message : Message) (exclude_user : option string)
    (n : Net) (item : string * list WebSocket) : Net :=
  if decide (Some item.1 = exclude_user) then n
  else foldl (try_send_json message) n item.2.

(** [broadcast] reads the registry and never assigns to it: the registry
    after the call is the registry before it. *)
Definition broadcast (message : Message) (exclude_user : option string)
    (self : t) (n : Net) : t * Net :=
  (self,
   foldl (broadcast_bucket message exclude_user) n
         (map_to_list (active_connections self))).

End ConnectionManager.

(** ** app/routes: the request handlers that write *)

(** What a handler can reach: the database session, the cache, the
    connection manager and the transport. *)
Record World := mkWorld {
  session : DB;
  cache : gmap string string;
  manager : ConnectionManager.t;
  net : Net;
}.

(** A handler either raises, and its transaction is rolled back, or
    returns a value and the world it leaves. *)
Definition Handler (A : Type) : Type := World → Exn + A * World.

#[global] Instance Handler_ret : MRet Handler := λ A a w, inr (a, w).
#[global] Instance Handler_bind : MBind Handler := λ A B k c w,
  match c w with
  | inl e => inl e
  | inr (a, w') => k a w'
  end.
#[global] Instance Handler_fmap : FMap Handler := λ A B f c w,
  match c w with
  | inl e => inl e
  | inr (a, w') => inr (f a, w')
  end.

Definition raise {A} (e : Exn) : Handler A := λ _, inl e.
Definition get_session : Handler DB := λ w, inr (session w, w).
Definition put_session (d : DB) : Handler unit := λ w,
  inr ((), mkWorld d (cache w) (manager w) (net w)).

(** [await cache_delete_pattern(pattern)] *)
Definition purge (pattern : string) : Handler unit := λ w,
  inr ((), mkWorld (session w) (Cache.cache_delete_pattern pattern (cache w))
                   (manager w) (net w)).

(** [await manager.broadcast(message)] *)
Definition broadcast (message : Message) : Handler unit := λ w,
  let '(m, n) := ConnectionManager.broadcast message None (manager w) (net w) in
  inr ((), mkWorld (session w) (cache w) m n).

(** [await cache_get(key)] and [await cache_set(key, value, ttl)] *)
Definition get_cache (key : string) : Handler (option string) := λ w,
  inr (Cache.cache_get key (cache w), w).
Definition set_cache (key value : string) : Handler unit := λ w,
  inr ((), mkWorld (session w) (Cache.cache_set key value (cache w))
                   (manager w) (net w)).

(** [Response.model_validate(row)] for a response model that reads
    [updated_at], after the flush of [row]: when the flush has issued an
    UPDATE, that is when some column of [flushed] differs from the row as
    [loaded], the attribute is expired and reading it raises. *)
Definition model_validate {Row} `{EqDecision Row} (loaded flushed : Row)
    : Handler Row :=
  if decide (flushed = loaded) then mret flushed else raise MissingGreenlet.

(** [TaskStatus(value)] *)
Definition TaskStatus_of_string (value : string) : option TaskStatus :=
  if bool_decide (value = "todo") then Some TODO
  else if bool_decide (value = "in_progress") then Some IN_PROGRESS
  else if bool_decide (value = "completed") then Some COMPLETED
  else if bool_decide (value = "overdue") then Some OVERDUE
  else None.

(** [TaskPriority(value)] *)
Definition TaskPriority_of_string (value : string) : option TaskPriority :=
  if bool_decide (value = "low") then Some LOW
  else if bool_decide (value = "medium") then Some MEDIUM
  else if bool_decide (value = "high") then Some HIGH
  else if bool_decide (value = "urgent") then Some URGENT
  else None.

(** [Enum(value) if value else default_]: an absent or empty string takes
    the default, an unknown one raises. *)
Definition enum_or {E} (of_string : string → option E) (default_ : E)
    (value : option string) : Handler E :=
  match value with
  | None => mret default_
  | Some v =>
      if bool_decide (v = "") then mret default_
      else match of_string v with
           | Some e => mret e
           | None => raise ValueError
           end
  end.

Module Schemas.
Record TaskCreate := mkTaskCreate {
  title : string;
  description : option string;
  status : option string;
  priority : option string;
  start_date : option datetime;
  due_date : option datetime;
  assigned_to : option uuid;
  notify_overdue : option bool;
}.

Record TaskUpdate := mkTaskUpdate {
  u_title : option string;
  u_description : option string;
  u_status : option string;
  u_priority : option string;
  u_start_date : option datetime;
  u_due_date : option datetime;
  u_assigned_to : option uuid;
  u_notify_overdue : option bool;
}.
End Schemas.

Module Tasks.
Import Schemas.

(** The "auto-transition based on due_date" of [create_task] and
    [bulk_create_tasks]. *)
Definition auto_transition (now : datetime) (due_date : option datetime)
    (initial_status : TaskStatus) : TaskStatus :=
  match due_date with
  | Some due =>
      if bool_decide (due < now)
         && negb (bool_decide (initial_status ∈ [COMPLETED; OVERDUE]))
      then OVERDUE
      else if bool_decide (due >= now) && bool_decide (initial_status = TODO)
      then IN_PROGRESS
      else initial_status
  | None => initial_status
  end.

(** The row [Task(...)] builds.  No start date is handed to it, so the
    column takes its NULL default whatever the request says. *)
Definition new_task (now : datetime) (data : TaskCreate) (current_user : uuid)
    : Handler Task.t :=
  requested ← enum_or TaskStatus_of_string TODO (status data);
  let initial_status := auto_transition now (due_date data) requested in
  priority ← enum_or TaskPriority_of_string MEDIUM (priority data);
  mret (Task.mk (title data) (description data) initial_status priority
                None (due_date data) (default false (notify_overdue data))
                false current_user (assigned_to data)).

(** The foreign key of [assigned_to]. *)
Definition assignee_exists (d : DB) (assigned_to : option uuid) : bool :=
  match assigned_to with
  | Some a => bool_decide (is_Some (users d !! a))
  | None => true
  end.

(** [db.add(task); await db.flush()] with the primary key [uuid4] drew. *)
Definition add_task (id : uuid) (task : Task.t) : Handler unit :=
  d ← get_session;
  if bool_decide (is_Some (tasks d !! id))
     || negb (assignee_exists d (Task.assigned_to task))
  then raise IntegrityError
  else put_session (mkDB (<[id := task]> (tasks d)) (users d) (comments d)
                         (notifications d)).

(** [select(Task).where(Task.id == task_id, Task.is_deleted == False)],
    then [raise HTTPException(404)] when [scalar_one_or_none()] is None. *)
Definition get_live_task (task_id : uuid) : Handler Task.t :=
  d ← get_session;
  match tasks d !! task_id with
  | Some task =>
      if Task.is_deleted task then raise (HTTPException 404 "Task not found")
      else mret task
  | None => raise (HTTPException 404 "Task not found")
  end.

Definition create_task (now : datetime) (uuid4 : uuid) (data : TaskCreate)
    (current_user : uuid) : Handler Task.t :=
  task ← new_task now data current_user;
  add_task uuid4 task;;
  purge "tasks:*";;
  purge "analytics:*";;
  broadcast (mkMessage "task_created"
               [("task_id", JUuid uuid4); ("title", JStr (Task.title task))]);;
  mret task.

(** The loop of [bulk_create_tasks]; [uuid4 i] is the key drawn for the
    [i]-th task. *)
Fixpoint bulk_add (now : datetime) (uuid4 : nat → uuid)
    (data : list TaskCreate) (current_user : uuid) : Handler (list Task.t) :=
  match data with
  | [] => mret []
  | t :: data' =>
      task ← new_task now t current_user;
      add_task (uuid4 0%nat) task;;
      created ← bulk_add now (uuid4 ∘ S) data' current_user;
      mret (task :: created)
  end.

Definition bulk_create_tasks (now : datetime) (uuid4 : nat → uuid)
    (data : list TaskCreate) (current_user : uuid) : Handler (list Task.t) :=
  created ← bulk_add now uuid4 data current_user;
  purge "tasks:*";;
  purge "analytics:*";;
  mret created.

(** The assignments of [update_task], one per field the request sets;
    [start_date] is not among them. *)
Definition apply_update (data : TaskUpdate) (task : Task.t) : Handler Task.t :=
  status ← match u_status data with
           | Some s =>
               match TaskStatus_of_string s with
               | Some e => mret e
               | None => raise ValueError
               end
           | None => mret (Task.status task)
           end;
  priority ← match u_priority data with
             | Some p =>
                 match TaskPriority_of_string p with
                 | Some e => mret e
                 | None => raise ValueError
                 end
             | None => mret (Task.priority task)
             end;
  mret (Task.mk (default (Task.title task) (u_title data))
                (match u_description data with
                 | Some x => Some x
                 | None => Task.description task
                 end)
                status priority (Task.start_date task)
                (match u_due_date data with
                 | Some x => Some x
                 | None => Task.due_date task
                 end)
                (default (Task.notify_overdue task) (u_notify_overdue data))
                (Task.is_deleted task) (Task.created_by task)
                (match u_assigned_to data with
                 | Some x => Some x
                 | None => Task.assigned_to task
                 end)).

(** [await db.flush()] of a changed row. *)
Definition flush_task (id : uuid) (task : Task.t) : Handler unit :=
  d ← get_session;
  put_session (mkDB (<[id := task]> (tasks d)) (users d) (comments d)
                    (notifications d)).

(** The foreign key is checked when the request assigns an assignee. *)
Definition check_assignee (assigned_to : option uuid) : Handler unit :=
  d ← get_session;
  if assignee_exists d assigned_to then mret () else raise IntegrityError.

Definition update_task (task_id : uuid) (data : TaskUpdate) : Handler Task.t :=
  task ← get_live_task task_id;
  task' ← apply_update data task;
  check_assignee (u_assigned_to data);;
  flush_task task_id task';;
  purge "tasks:*";;
  purge "analytics:*";;
  broadcast (mkMessage "task_updated"
               [("task_id", JUuid task_id); ("title", JStr (Task.title task'))]);;
  model_validate task task'.

Definition delete_task (task_id : uuid) : Handler unit :=
  task ← get_live_task task_id;
  flush_task task_id (Task.set_deleted task);;
  purge "tasks:*";;
  purge "analytics:*";;
  broadcast (mkMessage "task_deleted" [("task_id", JUuid task_id)]).

End Tasks.

Section Comments.
(** [render_markdown]: the markdown renderer followed by the HTML
    sanitiser, both external. *)
Variable render_markdown : string → string.

Definition put_comment (id : uuid) (c : Comment.t) : Handler unit :=
  d ← get_session;
  put_session (mkDB (tasks d) (users d) (<[id := c]> (comments d))
                    (notifications d)).

Definition add_comment (uuid4 : uuid) (task_id : uuid) (content : string)
    (current_user : uuid) (current_user_name : string) : Handler Comment.t :=
  _ ← Tasks.get_live_task task_id;
  d ← get_session;
  let comment :=
    Comment.mk content (Some (render_markdown content)) task_id current_user
               false in
  (if bool_decide (is_Some (comments d !! uuid4)) then raise IntegrityError
   else put_comment uuid4 comment);;
  broadcast (mkMessage "comment_added"
               [("task_id", JUuid task_id); ("comment_id", JUuid uuid4);
                ("author", JStr current_user_name)]);;
  mret comment.

(** The look-up shared by [update_comment] and [delete_comment]: 404 when
    there is no such live comment on the task, 403 when it is not the
    caller's. *)
Definition get_own_comment (task_id comment_id current_user : uuid)
    : Handler Comment.t :=
  d ← get_session;
  match comments d !! comment_id with
  | Some comment =>
      if bool_decide (Comment.task_id comment = task_id)
         && negb (Comment.is_deleted comment)
      then
        if bool_decide (Comment.user_id comment = current_user)
        then mret comment
        else raise (HTTPException 403 "Not authorized")
      else raise (HTTPException 404 "Comment not found")
  | None => raise (HTTPException 404 "Comment not found")
  end.

Definition update_comment (task_id comment_id : uuid) (content : string)
    (current_user : uuid) : Handler Comment.t :=
  comment ← get_own_comment task_id comment_id current_user;
  let comment' :=
    Comment.mk content (Some (render_markdown content))
               (Comment.task_id comment) (Comment.user_id comment)
               (Comment.is_deleted comment) in
  put_comment comment_id comment';;
  model_validate comment comment'.

Definition delete_comment (task_id comment_id current_user : uuid)
    : Handler unit :=
  comment ← get_own_comment task_id comment_id current_user;
  put_comment comment_id
    (Comment.mk (Comment.content comment) (Comment.content_html comment)
                (Comment.task_id comment) (Comment.user_id comment) true).

(** *** The writing routes of the two routers *)

Inductive Request :=
| PostTask (data : Schemas.TaskCreate)
| PostTasksBulk (data : list Schemas.TaskCreate)
| PutTask (task_id : uuid) (data : Schemas.TaskUpdate)
| DeleteTask (task_id : uuid)
| PostComment (task_id : uuid) (content : string)
| PutComment (task_id comment_id : uuid) (content : string)
| DeleteComment (task_id comment_id : uuid).

Inductive Response :=
| TaskResponse (task : Task.t)
| TaskListResponse (created : list Task.t)
| CommentResponse (comment : Comment.t)
| NoContent.

(** What a request finds besides the world: the clock, the keys [uuid4]
    will draw, and the authenticated user. *)
Record Context := mkContext {
  clock : datetime;
  uuid4 : nat → uuid;
  current_user : uuid;
  current_user_name : string;
}.

Definition is_task_mutation (req : Request) : bool :=
  match req with
  | PostTask _ | PostTasksBulk _ | PutTask _ _ | DeleteTask _ => true
  | PostComment _ _ | PutComment _ _ _ | DeleteComment _ _ => false
  end.

Definition route (ctx : Context) (req : Request) : Handler Response :=
  match req with
  | PostTask data =>
      TaskResponse
        <$> Tasks.create_task (clock ctx) (uuid4 ctx 0%nat) data (current_user ctx)
  | PostTasksBulk data =>
      TaskListResponse
        <$> Tasks.bulk_create_tasks (clock ctx) (uuid4 ctx) data (current_user ctx)
  | PutTask task_id data => TaskResponse <$> Tasks.update_task task_id data
  | DeleteTask task_id => Tasks.delete_task task_id;; mret NoContent
  | PostComment task_id content =>
      CommentResponse
        <$> add_comment (uuid4 ctx 0%nat) task_id content (current_user ctx)
              (current_user_name ctx)
  | PutComment task_id comment_id content =>
      CommentResponse
        <$> update_comment task_id comment_id content (current_user ctx)
  | DeleteComment task_id comment_id =>
      delete_comment task_id comment_id (current_user ctx);; mret NoContent
  end.
End Comments.

(** ** Notions the properties are stated with *)

(** A selected row that is to be announced, and its notification. *)
Definition notifying (row : uuid * Task.t) : Prop :=
  Task.notify_overdue row.2 = true.

Definition row_notification (row : uuid * Task.t) : Notification.t :=
  overdue_notification row.1 row.2.

(** What one iteration of either loop writes: the status, and the
    notification of a row that is to be announced. *)
Definition mark_row (d : DB) (row : uuid * Task.t) : DB :=
  let d1 := update_status row.1 OVERDUE d in
  if Task.notify_overdue row.2 then add_notification (row_notification row) d1
  else d1.

Definition mark_rows (rows : list (uuid * Task.t)) (d : DB) : DB :=
  foldl mark_row d rows.

(** The job the worker queues for a row: for the assignee, when the task
    has one and the user exists. *)
Definition assignee_mail (t : Task.t) (d : DB) : list Email :=
  match Task.assigned_to t with
  | Some a =>
      match users d !! a with
      | Some assignee => [overdue_email (User.email assignee) t]
      | None => []
      end
  | None => []
  end.

(** A selected row whose notification, if it is to have one, the store
    accepts. *)
Definition row_fits (row : uuid * Task.t) : bool :=
  negb (Task.notify_overdue row.2) || title_fits (row_notification row).

(** Every notification a pass at [now] adds fits its column: no selected
    task with [notify_overdue] has a title of more than 241 characters. *)
Definition notifications_fit (now : datetime) (d : DB) : Prop :=
  forallb row_fits (select_overdue now d) = true.

#[global] Instance notifications_fit_dec now d :
  Decision (notifications_fit now d).
Proof. unfold notifications_fit. apply _. Defined.

(** The notification one commit adds for task [k], if any. *)
Definition note_of (k : uuid) (t : Task.t) : list Notification.t :=
  if Task.notify_overdue t then [overdue_notification k t] else [].

(** The rows of [before] that were not OVERDUE and are OVERDUE in
    [after]. *)
Definition changed_to_overdue (before after : DB) : gmap uuid Task.t :=
  filter (λ kv, Task.status kv.2 ≠ OVERDUE
                ∧ Task.status <$> tasks after !! kv.1 = Some OVERDUE)
         (tasks before).

(** The two steps of an evaluation pass, on one row. *)
Definition evaluate_row (now : datetime) (t : Task.t) : Task.t :=
  let t1 := if overdue_where now t then Task.set_status OVERDUE t else t in
  if in_progress_where now t1 then Task.set_status IN_PROGRESS t1 else t1.

(** What one pass over a bucket delivers, given the sockets that fail. *)
Definition bucket_deliveries (message : Message) (exclude_user : option string)
    (failing : gset WebSocket) (item : string * list WebSocket)
    : list (WebSocket * Message) :=
  if decide (Some item.1 = exclude_user) then []
  else (λ ws, (ws, message)) <$> filter (λ ws, ws ∉ failing) item.2.

(** The deliveries of one call of [broadcast]. *)
Definition broadcast_sent (message : Message) (exclude_user : option string)
    (self : ConnectionManager.t) (n : Net) : list (WebSocket * Message) :=
  map_to_list (ConnectionManager.active_connections self)
    ≫= bucket_deliveries message exclude_user (closed n).

(** A pattern character that stands for itself wherever it is: none of
    the star, the question mark, the brackets and the backslash. *)
Definition literal (c : ascii) : bool :=
  negb (Ascii.eqb c "*"%char) && negb (Ascii.eqb c "?"%char)
  && negb (Ascii.eqb c "["%char) && negb (Ascii.eqb c "]"%char)
  && negb (Ascii.eqb c "\"%char).

Fixpoint literals (p : string) : bool :=
  match p with
  | EmptyString => true
  | String c p' => literal c && literals p'
  end.

(** The two purges every task mutation ends with. *)
Definition purge_listings (entries : gmap string string) : gmap string string :=
  Cache.cache_delete_pattern "analytics:*" (Cache.cache_delete_pattern "tasks:*" entries).

(** [cache_post f h]: when [h] returns, the cache it leaves is [f] of the
    cache it found. *)
Definition cache_post {A} (f : gmap string string → gmap string string)
    (h : Handler A) : Prop :=
  ∀ w a w', h w = inr (a, w') → cache w' = f (cache w).

(** What creation makes of a request: no start date, and the status the
    auto-transition gives for the requested one. *)
Definition created_from (now : datetime) (data : Schemas.TaskCreate)
    (task : Task.t) : Prop :=
  Task.start_date task = None
  ∧ ∃ requested,
      (∀ w, enum_or TaskStatus_of_string TODO (Schemas.status data) w
            = inr (requested, w))
      ∧ Task.status task
        = Tasks.auto_transition now (Schemas.due_date data) requested.

(** ** The sample store the examples run on *)

Module Sample.
Definition alice : User.t := User.mk "alice@example.com" "alice" "Alice" true.
Definition bob : User.t := User.mk "bob@example.com" "bob" "Bob" true.

(** past due, to be announced *)
Definition report : Task.t :=
  Task.mk "report" None TODO MEDIUM None (Some 100) true false 10%N (Some 11%N).
(** past due, not to be announced *)
Definition quiet : Task.t :=
  Task.mk "quiet" None IN_PROGRESS LOW None (Some 50) false false 10%N None.
(** past due but done *)
Definition done_ : Task.t :=
  Task.mk "done" None COMPLETED LOW None (Some 10) true false 10%N None.
(** past due but deleted *)
Definition gone : Task.t :=
  Task.mk "gone" None TODO LOW None (Some 10) true true 10%N None.
(** started, not yet due *)
Definition started : Task.t :=
  Task.mk "started" None TODO HIGH (Some 50) (Some 500) true false 10%N None.

Definition store : DB :=
  mkDB (list_to_map [(1%N, report); (2%N, quiet); (3%N, done_); (4%N, gone);
                     (5%N, started)])
       (list_to_map [(10%N, alice); (11%N, bob)]) ∅ [].

Definition now : datetime := 200.

(** Two users on line; a cached task listing, a cached overview and an
    unrelated entry. *)
Definition registry : ConnectionManager.t :=
  ConnectionManager.connect 2%N "bob"
    (ConnectionManager.connect 1%N "alice" ConnectionManager.init).

Definition world : World :=
  mkWorld store
    (list_to_map [("tasks:10:1:10:None", "page one");
                  ("analytics:overview:10", "counts");
                  ("session:10", "token")])
    registry (mkNet ∅ []).

(** A request to create a task that is to start and to fall due later. *)
Definition later : Schemas.TaskCreate :=
  Schemas.mkTaskCreate "later" None (Some "todo") None (Some 1000) (Some 2000)
    None None.

(** Alice's request, with the keys it will draw; the renderer of the
    examples leaves the text as it is. *)
Definition context : Context :=
  mkContext now (λ i, (20 + N.of_nat i)%N) 10%N "Alice".

Definition plain : string → string := λ text, text.
End Sample.

(** ** More of app/routes/tasks.py *)

Module TaskRoutes.

(** [get_task]: the live row or 404. *)
Definition get_task (task_id : uuid) : Handler Task.t :=
  Tasks.get_live_task task_id.

(** [task.assignee or task.creator]: the two relationships, each None when
    its key is NULL or has no row. *)
Definition assignee_or_creator (d : DB) (task : Task.t) : option User.t :=
  match Task.assigned_to task ≫= (λ a, users d !! a) with
  | Some assignee => Some assignee
  | None => users d !! Task.created_by task
  end.

(** [if recipient and recipient.email: send_email_notification(...)] *)
Definition manual_mail (d : DB) (task : Task.t) : list Email :=
  match assignee_or_creator d task with
  | Some recipient =>
      if bool_decide (User.email recipient = "") then []
      else [overdue_email (User.email recipient) task]
  | None => []
  end.

(** [notify_task_overdue]; the value carries the notification returned and
    the calls of [send_email_notification] made.  The flush of the
    notification raises when the store refuses its title. *)
Definition notify_task_overdue (task_id : uuid)
    : Handler (Notification.t * list Email) :=
  task ← Tasks.get_live_task task_id;
  if bool_decide (Task.status task = OVERDUE) then
    d ← get_session;
    let notification := overdue_notification task_id task in
    if title_fits notification then
      put_session (add_notification notification d);;
      broadcast (mkMessage "notification"
                   [("user_id", JUuid (notify_user_id task));
                    ("title", JStr (Notification.title notification));
                    ("task_id", JUuid task_id)]);;
      mret (notification, manual_mail d task)
    else raise DataError
  else raise (HTTPException 400 "Task is not overdue").

(** The cache key of [list_tasks], from the renderings of its parts. *)
Definition list_tasks_cache_key
    (user page page_size status priority assigned_to search sort_by sort_order
       tag : string) : string :=
  "tasks:" +:+ user +:+ ":" +:+ page +:+ ":" +:+ page_size +:+ ":" +:+ status
  +:+ ":" +:+ priority +:+ ":" +:+ assigned_to +:+ ":" +:+ search +:+ ":"
  +:+ sort_by +:+ ":" +:+ sort_order +:+ ":" +:+ tag.

(** [query.offset((page - 1) * page_size).limit(page_size)], on the rows of
    the filtered query in the order asked for. *)
Definition list_tasks_page {A} (rows : list A) (page page_size : nat) : list A :=
  take page_size (drop ((page - 1) * page_size) rows).

(** [math.ceil(total / page_size) if total else 0] *)
Definition list_tasks_total_pages (total page_size : nat) : nat :=
  if bool_decide (total = 0%nat) then 0%nat
  else (total / page_size
        + if bool_decide (total `mod` page_size = 0) then 0 else 1)%nat.

End TaskRoutes.

(** The cache keys of app/routes/analytics.py. *)
Module AnalyticsKeys.
Definition overview (user : string) : string := "analytics:overview:" +:+ user.
Definition performance : string := "analytics:performance".
Definition trends (days : string) : string := "analytics:trends:" +:+ days.
End AnalyticsKeys.

(** [get_overview] of app/routes/analytics.py: the cached answer when
    there is one, else the transitions, the counts of the live tasks and
    of the live tasks of each status ([by_status] repeats the four,
    [by_priority] is left out), and the answer cached under the user's
    key. *)
Module Overview.

Record TaskOverview := mkTaskOverview {
  total_tasks : nat;
  completed : nat;
  in_progress : nat;
  todo : nat;
  overdue : nat;
}.

(** [select(func.count()).select_from(base.subquery())] with
    [base = select(Task).where(Task.is_deleted == False)] *)
Definition count_live (d : DB) : nat :=
  size (filter (λ kv, Task.is_deleted kv.2 = false) (tasks d)).

(** [base.where(Task.status == s)] *)
Definition count_status (s : TaskStatus) (d : DB) : nat :=
  size (filter (λ kv, Task.is_deleted kv.2 = false ∧ Task.status kv.2 = s)
               (tasks d)).

Definition counts (d : DB) : TaskOverview :=
  mkTaskOverview (count_live d) (count_status COMPLETED d)
    (count_status IN_PROGRESS d) (count_status TODO d)
    (count_status OVERDUE d).

Section get_overview.
(** [model_dump_json] and [model_validate_json] of the response model,
    from the validation library; the second raises on a string that is
    no overview. *)
Variable model_dump_json : TaskOverview → string.
Variable model_validate_json : string → option TaskOverview.

(** The path of a cache miss. *)
Definition evaluate_and_count (now : datetime) (user : string)
    : Handler TaskOverview :=
  d ← get_session;
  let d1 := Analytics.get_overview_transitions now d in
  put_session d1;;
  let overview := counts d1 in
  set_cache (AnalyticsKeys.overview user) (model_dump_json overview);;
  mret overview.

(** [if cached:] takes an empty string for a miss. *)
Definition get_overview (now : datetime) (user : string)
    : Handler TaskOverview :=
  cached ← get_cache (AnalyticsKeys.overview user);
  match cached with
  | Some json =>
      if bool_decide (json = "") then evaluate_and_count now user
      else
        match model_validate_json json with
        | Some overview => mret overview
        | None => raise ValidationError
        end
  | None => evaluate_and_count now user
  end.
End get_overview.

End Overview.

(** [cache_delete] of app/cache.py *)
Definition cache_delete (key : string) (entries : gmap string string)
    : gmap string string :=
  delete key entries.

(** ** app/routes/notifications.py

    These routes address a notification by its key, so the table is a map
    here. *)

Module Notifications.

Definition set_read (n : Notification.t) : Notification.t :=
  Notification.mk (Notification.user_id n) (Notification.task_id n)
    (Notification.type n) (Notification.title n) (Notification.message n) true.

(** The count query of [list_notifications]:
    [user_id == current_user.id, is_read == False]. *)
Definition unread_count (current_user : uuid)
    (table : gmap uuid Notification.t) : nat :=
  size (filter (λ kv, Notification.user_id kv.2 = current_user
                      ∧ Notification.is_read kv.2 = false) table).

Definition mark_notification_read (notification_id current_user : uuid)
    (table : gmap uuid Notification.t)
    : Exn + Notification.t * gmap uuid Notification.t :=
  match table !! notification_id with
  | Some notification =>
      if bool_decide (Notification.user_id notification = current_user) then
        inr (set_read notification,
             <[notification_id := set_read notification]> table)
      else inl (HTTPException 404 "Notification not found")
  | None => inl (HTTPException 404 "Notification not found")
  end.

(** [update(Notification).where(user_id == ..., is_read == False)
    .values(is_read=True)] *)
Definition mark_all_read (current_user : uuid)
    (table : gmap uuid Notification.t) : gmap uuid Notification.t :=
  (λ n, if bool_decide (Notification.user_id n = current_user)
           && negb (Notification.is_read n)
        then set_read n else n) <$> table.

End Notifications.

(** ** Notions the further properties are stated with *)

(** No user is kept in the registry with an empty bucket. *)
Definition no_empty_bucket (self : ConnectionManager.t) : Prop :=
  ∀ user_id conns,
    ConnectionManager.active_connections self !! user_id = Some conns →
    conns ≠ [].

(** The registries the manager can be in: what connects and disconnects
    make of the empty one. *)
Inductive registry_reachable : ConnectionManager.t → Prop :=
| reach_init : registry_reachable ConnectionManager.init
| reach_connect ws user_id self :
    registry_reachable self →
    registry_reachable (ConnectionManager.connect ws user_id self)
| reach_disconnect ws user_id self :
    registry_reachable self →
    registry_reachable (ConnectionManager.disconnect ws user_id self).

(** The event [notify_task_overdue] broadcasts. *)
Definition notification_event (k : uuid) (task : Task.t) : Message :=
  mkMessage "notification"
    [("user_id", JUuid (notify_user_id task));
     ("title", JStr (Notification.title (overdue_notification k task)));
     ("task_id", JUuid k)].

(** The status changes an evaluation pass may make to a row. *)
Definition evaluation_step (t t' : Task.t) : Prop :=
  t' = t
  ∨ (Task.status t = TODO ∧ Task.is_deleted t = false
     ∧ t' = Task.set_status IN_PROGRESS t)
  ∨ (Task.status t ∈ [TODO; IN_PROGRESS] ∧ Task.is_deleted t = false
     ∧ t' = Task.set_status OVERDUE t).


(** ** More sample data *)

Module Sample2.
(** A title of 242 characters, which the task table and the request
    schemas accept. *)
Definition long_title : string :=
  String.string_of_list_ascii (replicate 242 "x"%char).

(** past due, to be announced, with the long title *)
Definition minutes : Task.t :=
  Task.mk long_title None TODO MEDIUM None (Some 100) true false 10%N
    (Some 11%N).

(** The sample store with the minutes added. *)
Definition long_store : DB :=
  mkDB (<[6%N := minutes]> (tasks Sample.store)) (users Sample.store) ∅ [].

(** A store in which the report is OVERDUE already. *)
Definition overdue_report : Task.t := Task.set_status OVERDUE Sample.report.

Definition store : DB :=
  mkDB (<[1%N := overdue_report]> (tasks Sample.store)) (users Sample.store)
       (<[30%N := Comment.mk "first" (Some "first") 1%N 10%N false]> ∅) [].

Definition world : World :=
  mkWorld store (cache Sample.world) Sample.registry (mkNet ∅ []).

(** A request to create a task that fell due before it is created. *)
Definition late : Schemas.TaskCreate :=
  Schemas.mkTaskCreate "late" None (Some "todo") None None (Some 100)
    None (Some true).

(** Alice's notifications, one read, and one of Bob's. *)
Definition inbox : gmap uuid Notification.t :=
  list_to_map
    [(40%N, overdue_notification 1%N Sample.report);
     (41%N, Notifications.set_read (overdue_notification 2%N Sample.quiet));
     (42%N, overdue_notification 5%N Sample.started)].
End Sample2.

(** * Properties *)

(** ** What the loops write *)

Section MarkRows.
Implicit Types (l : list (uuid * Task.t)) (d : DB) (k : uuid).

Lemma mark_row_tasks d id t :
  tasks (mark_row d (id, t)) = alter (Task.set_status OVERDUE) id (tasks d).
Proof. unfold mark_row. cbn. by destruct (Task.notify_overdue t). Qed.

Lemma mark_rows_tasks_lookup l d k :
  tasks (mark_rows l d) !! k =
    if bool_decide (k ∈ l.*1)
    then Task.set_status OVERDUE <$> tasks d !! k
    else tasks d !! k.
Proof.
  unfold mark_rows. revert d. induction l as [|[id t] l IH]; intros d; [done|].
  cbn [foldl fmap list_fmap]. rewrite IH, mark_row_tasks. clear IH.
  destruct (decide (k = id)) as [->|Hne].
  - rewrite lookup_alter_eq.
    rewrite (bool_decide_eq_true_2 (id ∈ id :: l.*1)) by apply list_elem_of_here.
    case_bool_decide; [|done].
    by destruct (tasks d !! id).
  - rewrite lookup_alter_ne by done.
    assert (k ∈ (id, t).1 :: l.*1 ↔ k ∈ l.*1) as Hiff.
    { rewrite elem_of_cons. cbn. split; [by intros [?|?]|by right]. }
    by rewrite (bool_decide_ext _ _ Hiff).
Qed.

Lemma mark_row_users d row :
  users (mark_row d row) = users d ∧ comments (mark_row d row) = comments d.
Proof. unfold mark_row. by destruct (Task.notify_overdue row.2). Qed.

Lemma mark_rows_users l d :
  users (mark_rows l d) = users d ∧ comments (mark_rows l d) = comments d.
Proof.
  unfold mark_rows. revert d. induction l as [|row l IH]; intros d; [done|].
  cbn [foldl]. destruct (IH (mark_row d row)) as [-> ->]. apply mark_row_users.
Qed.

Lemma mark_rows_notifications l d :
  notifications (mark_rows l d)
  = notifications d ++ (row_notification <$> filter notifying l).
Proof.
  unfold mark_rows. revert d. induction l as [|[id t] l IH]; intros d.
  - by rewrite app_nil_r.
  - cbn [foldl]. rewrite IH. clear IH. unfold mark_row. cbn [fst snd].
    destruct (Task.notify_overdue t) eqn:Hn.
    + rewrite filter_cons_True by done. cbn. by rewrite <- app_assoc.
    + rewrite filter_cons_False; [done|]. unfold notifying. cbn. by rewrite Hn.
Qed.

Lemma mark_rows_cons row l d : mark_rows (row :: l) d = mark_rows l (mark_row d row).
Proof. done. Qed.

Lemma assignee_mail_users t d d' :
  users d' = users d → assignee_mail t d' = assignee_mail t d.
Proof. unfold assignee_mail. by intros ->. Qed.

(** The mail of the rows to be announced. *)
Lemma join_mail_cons (mail_of : uuid * Task.t → list Email) id t l :
  mjoin (mail_of <$> filter notifying ((id, t) :: l))
  = (if Task.notify_overdue t then mail_of (id, t) else [])
    ++ mjoin (mail_of <$> filter notifying l).
Proof.
  destruct (Task.notify_overdue t) eqn:Hn.
  - by rewrite filter_cons_True by done.
  - rewrite filter_cons_False; [done|]. unfold notifying. cbn. by rewrite Hn.
Qed.

Lemma length_notifying_cons id t l :
  length (filter notifying ((id, t) :: l))
  = ((if Task.notify_overdue t then 1 else 0) + length (filter notifying l))%nat.
Proof.
  destruct (Task.notify_overdue t) eqn:Hn.
  - by rewrite filter_cons_True by done.
  - rewrite filter_cons_False; [done|]. unfold notifying. cbn. by rewrite Hn.
Qed.

Lemma forallb_snoc {A} (f : A → bool) (xs : list A) (x : A) :
  forallb f (xs ++ [x]) = forallb f xs && f x.
Proof. rewrite forallb_app. cbn. by rewrite andb_true_r. Qed.

Lemma length_append (s1 s2 : string) :
  String.length (s1 +:+ s2) = (String.length s1 + String.length s2)%nat.
Proof.
  induction s1 as [|c s1 IH]; [done|].
  change (String c s1 +:+ s2) with (String c (s1 +:+ s2)). cbn. by rewrite IH.
Qed.

Lemma title_fits_overdue id t :
  title_fits (overdue_notification id t) = true
  ↔ (String.length (Task.title t) ≤ 241)%nat.
Proof.
  unfold title_fits, overdue_notification. cbn [Notification.title].
  rewrite bool_decide_eq_true.
  rewrite length_append. cbn. lia.
Qed.

Lemma notifications_fit_spec now d :
  notifications_fit now d
  ↔ ∀ k t, tasks d !! k = Some t → overdue_where now t = true →
           Task.notify_overdue t = true →
           (String.length (Task.title t) ≤ 241)%nat.
Proof.
  unfold notifications_fit. rewrite forallb_forall. split.
  - intros Hfit k t Hk Hw Hn.
    assert (In (k, t) (select_overdue now d)) as Hin.
    { apply list_elem_of_In. unfold select_overdue.
      by rewrite elem_of_map_to_list, map_lookup_filter_Some. }
    specialize (Hfit _ Hin). unfold row_fits, row_notification in Hfit.
    cbn in Hfit. rewrite Hn in Hfit. by apply title_fits_overdue in Hfit.
  - intros Hfit [k t] Hin. apply list_elem_of_In in Hin.
    unfold select_overdue in Hin.
    rewrite elem_of_map_to_list, map_lookup_filter_Some in Hin.
    destruct Hin as [Hk Hw]. unfold row_fits, row_notification. cbn in *.
    destruct (Task.notify_overdue t) eqn:Hn; [|done]. cbn.
    apply title_fits_overdue. by apply (Hfit k t).
Qed.
End MarkRows.

(** ** The worker's loop *)

Section Sweep.
Import CeleryWorker.

Implicit Types (l : list (uuid * Task.t)) (st : LoopState) (k : uuid).

Lemma flush_spec st :
  flush st
  = if forallb title_fits (unflushed st)
    then Some (mkLoop (db st) [] (identity_map st) (mail st) (marked st)
                      (notified st))
    else None.
Proof. done. Qed.

(** One iteration: what it writes and queues when it goes through, and
    why it stops when it does not. *)
Lemma loop_body_spec st id t :
  match loop_body st (id, t) with
  | inr st' =>
      db st' = mark_row (db st) (id, t)
      ∧ mail st'
        = mail st
          ++ (if Task.notify_overdue t then assignee_mail t (db st) else [])
      ∧ marked st' = S (marked st)
      ∧ notified st'
        = ((if Task.notify_overdue t then 1 else 0) + notified st)%nat
      ∧ forallb title_fits (unflushed st')
        = forallb title_fits (unflushed st) && row_fits (id, t)
  | inl q' =>
      q' = mail st
      ∧ forallb title_fits (unflushed st) && row_fits (id, t) = false
  end.
Proof.
  unfold loop_body, mark_row, row_fits, row_notification. cbn [fst snd].
  destruct (Task.notify_overdue t) eqn:Hn; cbn [negb orb].
  2:{ cbn. rewrite app_nil_r, andb_true_r. done. }
  set (n := overdue_notification id t).
  unfold assignee_mail.
  destruct (Task.assigned_to t) as [a|] eqn:Ha.
  2:{ cbn. rewrite app_nil_r, forallb_snoc. done. }
  unfold session_get. cbn [identity_map db users add_notification update_status].
  destruct (decide (a ∈ identity_map st)) as [Hin|Hin].
  - destruct (users (CeleryWorker.db st) !! a) as [u|] eqn:Hu; cbn;
      rewrite ?app_nil_r, forallb_snoc; done.
  - rewrite flush_spec. cbn [unflushed]. rewrite forallb_snoc.
    destruct (forallb title_fits (unflushed st) && title_fits n) eqn:Hfit.
    + cbn [db users add_notification update_status].
      destruct (users (CeleryWorker.db st) !! a) as [u|] eqn:Hu; cbn;
        rewrite ?app_nil_r; done.
    + done.
Qed.

Lemma loop_spec l st :
  match loop l st with
  | inr st' =>
      db st' = mark_rows l (db st)
      ∧ mail st'
        = mail st
          ++ mjoin ((λ row, assignee_mail row.2 (db st)) <$> filter notifying l)
      ∧ marked st' = (marked st + length l)%nat
      ∧ notified st' = (notified st + length (filter notifying l))%nat
      ∧ forallb title_fits (unflushed st')
        = forallb title_fits (unflushed st) && forallb row_fits l
  | inl q' =>
      forallb title_fits (unflushed st) && forallb row_fits l = false
      ∧ ∃ sent,
          q' = mail st ++ sent
          ∧ sent `prefix_of`
              mjoin ((λ row, assignee_mail row.2 (db st)) <$> filter notifying l)
  end.
Proof.
  revert st. induction l as [|[id t] l IH]; intros st.
  - cbn. rewrite app_nil_r, andb_true_r. repeat split; lia.
  - cbn [loop]. pose proof (loop_body_spec st id t) as Hb.
    destruct (loop_body st (id, t)) as [q1|st1].
    + destruct Hb as [-> Hfit]. cbn [forallb]. split.
      * rewrite andb_assoc, Hfit. done.
      * exists []. rewrite app_nil_r. split; [done|]. apply prefix_nil.
    + destruct Hb as (Hdb & Hmail & Hm & Hn & Hfit).
      assert (∀ row : uuid * Task.t,
                assignee_mail row.2 (db st1) = assignee_mail row.2 (db st))
        as Hu.
      { intros row. apply assignee_mail_users. rewrite Hdb.
        apply mark_row_users. }
      specialize (IH st1). rewrite (list_fmap_ext _ _ _ (λ _ row _, Hu row)) in IH.
      rewrite join_mail_cons, length_notifying_cons. cbn [forallb length snd].
      destruct (loop l st1) as [q2|st2].
      * destruct IH as (Hfit2 & sent & -> & Hpre). split.
        { rewrite andb_assoc, <- Hfit. done. }
        eexists. rewrite Hmail, <- app_assoc. split; [done|].
        by apply prefix_app.
      * destruct IH as (Hdb2 & Hmail2 & Hm2 & Hn2 & Hfit2).
        rewrite Hdb2, Hmail2, Hm2, Hn2, Hfit2, Hdb, Hmail, Hm, Hn, Hfit.
        rewrite mark_rows_cons, <- app_assoc, andb_assoc.
        repeat split; lia.
Qed.

(** A run on rows selected earlier: it commits exactly when every
    notification it adds fits, and raises without committing otherwise. *)
Lemma process_selected_spec l d q :
  if forallb row_fits l then
    process_selected l d q
    = (mark_rows l d,
       q ++ mjoin ((λ row, assignee_mail row.2 d) <$> filter notifying l),
       inr (mkResult "processed" (length l) (length (filter notifying l))))
  else
    ∃ sent,
      process_selected l d q = (d, q ++ sent, inl DataError)
      ∧ sent `prefix_of`
          mjoin ((λ row, assignee_mail row.2 d) <$> filter notifying l).
Proof.
  unfold process_selected.
  pose proof (loop_spec l (mkLoop d [] ∅ q 0 0)) as Hl.
  destruct (loop l (mkLoop d [] ∅ q 0 0)) as [q'|st]; cbn in Hl.
  - destruct Hl as (-> & sent & -> & Hpre). by exists sent.
  - destruct Hl as (Hdb & Hmail & Hm & Hn & Hfit).
    rewrite flush_spec, Hfit.
    destruct (forallb row_fits l); cbn [db mail marked notified].
    + by rewrite Hdb, Hmail, Hm, Hn.
    + eexists. rewrite Hmail. split; [done|]. done.
Qed.

(** What the SELECT returns. *)
Lemma elem_of_select_overdue now d k t :
  (k, t) ∈ select_overdue now d
  ↔ tasks d !! k = Some t ∧ overdue_where now t = true.
Proof.
  unfold select_overdue.
  by rewrite elem_of_map_to_list, map_lookup_filter_Some.
Qed.

Lemma select_overdue_keys now d k :
  k ∈ (select_overdue now d).*1
  ↔ ∃ t, tasks d !! k = Some t ∧ overdue_where now t = true.
Proof.
  rewrite list_elem_of_fmap. split.
  - intros [[k' t] [-> Hin]]. exists t. by apply elem_of_select_overdue.
  - intros [t Ht]. exists (k, t). split; [done|]. by apply elem_of_select_overdue.
Qed.

Lemma NoDup_select_overdue now d : NoDup (select_overdue now d).*1.
Proof. apply NoDup_fst_map_to_list. Qed.

(** The rows the SELECT returns, marked. *)
Lemma marked_tasks_lookup now d k :
  tasks (mark_rows (select_overdue now d) d) !! k
  = (λ t, if overdue_where now t then Task.set_status OVERDUE t else t)
      <$> tasks d !! k.
Proof.
  rewrite mark_rows_tasks_lookup.
  case_bool_decide as Hsel.
  - apply select_overdue_keys in Hsel as (t & Ht & Hw).
    rewrite Ht. cbn. by rewrite Hw.
  - destruct (tasks d !! k) as [t|] eqn:Ht; [|done]. cbn.
    destruct (overdue_where now t) eqn:Hw; [|done].
    destruct Hsel. apply select_overdue_keys. eauto.
Qed.

(** A run of the worker, by whether it commits. *)
Lemma sweep_commits now d q :
  notifications_fit now d →
  process_task_overdue_check now d q
  = (mark_rows (select_overdue now d) d,
     q ++ mjoin ((λ row, assignee_mail row.2 d)
                   <$> filter notifying (select_overdue now d)),
     inr (mkResult "processed" (length (select_overdue now d))
            (length (filter notifying (select_overdue now d))))).
Proof.
  intros Hfit. unfold process_task_overdue_check.
  pose proof (process_selected_spec (select_overdue now d) d q) as Hs.
  by rewrite Hfit in Hs.
Qed.

Lemma sweep_raises now d q :
  ¬ notifications_fit now d →
  ∃ sent,
    process_task_overdue_check now d q = (d, q ++ sent, inl DataError)
    ∧ sent `prefix_of`
        mjoin ((λ row, assignee_mail row.2 d)
                 <$> filter notifying (select_overdue now d)).
Proof.
  intros Hfit. unfold process_task_overdue_check.
  pose proof (process_selected_spec (select_overdue now d) d q) as Hs.
  unfold notifications_fit in Hfit.
  by destruct (forallb row_fits (select_overdue now d)).
Qed.

(** The task table after a run, row by row. *)
Lemma sweep_tasks_lookup now d q k :
  tasks (process_task_overdue_check now d q).1.1 !! k
  = if decide (notifications_fit now d) then
      (λ t, if overdue_where now t then Task.set_status OVERDUE t else t)
        <$> tasks d !! k
    else tasks d !! k.
Proof.
  destruct (decide (notifications_fit now d)) as [Hfit|Hfit].
  - rewrite sweep_commits by done. cbn. apply marked_tasks_lookup.
  - destruct (sweep_raises now d q Hfit) as (sent & -> & _). done.
Qed.

Lemma overdue_where_set_overdue now t :
  overdue_where now (Task.set_status OVERDUE t) = false.
Proof.
  unfold overdue_where, status_open. cbn.
  rewrite bool_decide_eq_true_2 by set_solver.
  by rewrite andb_false_r.
Qed.
End Sweep.

Section SweepNotifications.
Import CeleryWorker.

Implicit Types (l : list (uuid * Task.t)) (k : uuid).

Lemma overdue_notifications_of_app k ns ms :
  overdue_notifications_of k (ns ++ ms)
  = overdue_notifications_of k ns ++ overdue_notifications_of k ms.
Proof. apply filter_app. Qed.

Lemma rows_notifications_other l k :
  k ∉ l.*1 →
  overdue_notifications_of k (row_notification <$> filter notifying l) = [].
Proof.
  induction l as [|[id t] l IH]; [done|].
  cbn [fmap list_fmap]. rewrite not_elem_of_cons. intros [Hne Hnin].
  destruct (Task.notify_overdue t) eqn:Hn.
  - rewrite filter_cons_True by done. cbn [fmap list_fmap].
    unfold overdue_notifications_of at 1.
    rewrite filter_cons_False; [by apply IH|].
    cbn. intros [[=] _]. done.
  - rewrite filter_cons_False; [by apply IH|].
    unfold notifying. cbn. by rewrite Hn.
Qed.

Lemma rows_notifications_selected l k t :
  NoDup l.*1 → (k, t) ∈ l →
  overdue_notifications_of k (row_notification <$> filter notifying l)
  = if Task.notify_overdue t then [overdue_notification k t] else [].
Proof.
  induction l as [|[id t'] l IH]; [by intros _ ?%elem_of_nil|].
  cbn [fmap list_fmap]. rewrite NoDup_cons, elem_of_cons.
  intros [Hnin Hnd] [[= <- <-]|Hin].
  - destruct (Task.notify_overdue t) eqn:Hn.
    + rewrite filter_cons_True by done. cbn [fmap list_fmap].
      unfold overdue_notifications_of at 1.
      rewrite filter_cons_True by done.
      f_equal. by apply rows_notifications_other.
    + rewrite filter_cons_False; [by apply rows_notifications_other|].
      unfold notifying. cbn. by rewrite Hn.
  - assert (k ≠ id) as Hne.
    { intros ->. apply Hnin. apply list_elem_of_fmap. by exists (id, t). }
    destruct (Task.notify_overdue t') eqn:Hn.
    + rewrite filter_cons_True by done. cbn [fmap list_fmap].
      unfold overdue_notifications_of at 1.
      rewrite filter_cons_False; [by apply IH|].
      cbn. intros [[=] _]. done.
    + rewrite filter_cons_False; [by apply IH|].
      unfold notifying. cbn. by rewrite Hn.
Qed.

(** A row the run turned OVERDUE is a row the SELECT returned, in a run
    that committed. *)
Lemma transitioned_iff_selected now d q k t :
  tasks d !! k = Some t →
  (Task.status t ≠ OVERDUE
   ∧ Task.status <$> tasks (process_task_overdue_check now d q).1.1 !! k
     = Some OVERDUE)
  ↔ notifications_fit now d ∧ overdue_where now t = true.
Proof.
  intros Ht. rewrite sweep_tasks_lookup, Ht.
  destruct (decide (notifications_fit now d)) as [Hfit|Hfit]; cbn.
  - destruct (overdue_where now t) eqn:Hw.
    + split; [done|]. intros _. split; [|done].
      unfold overdue_where, status_open in Hw.
      apply andb_prop in Hw as [[_ Hopen]%andb_prop _].
      apply negb_true_iff, bool_decide_eq_false in Hopen.
      intros Heq. apply Hopen. rewrite Heq. set_solver.
    + split; [|by intros [_ ?]]. intros [Hne [= Heq]]. done.
  - split; [|by intros [? _]]. intros [Hne [= Heq]]. done.
Qed.

(** When no notification overflows its column, the run does what it is
    meant to: every live task past due that is neither COMPLETED nor
    OVERDUE is OVERDUE afterwards, and a task that is COMPLETED, OVERDUE
    or deleted is as it was (the latter whether the run commits or
    not). *)
Lemma sweep_marks_overdue now d q k t :
  tasks d !! k = Some t →
  let d' := (process_task_overdue_check now d q).1.1 in
  (notifications_fit now d →
   Task.is_deleted t = false →
   (∃ due, Task.due_date t = Some due ∧ due < now) →
   Task.status t ∉ [COMPLETED; OVERDUE] →
   Task.status <$> tasks d' !! k = Some OVERDUE)
  ∧ (Task.status t = COMPLETED ∨ Task.status t = OVERDUE
     ∨ Task.is_deleted t = true →
     tasks d' !! k = Some t).
Proof.
  intros Ht d'. subst d'. rewrite sweep_tasks_lookup, Ht. split.
  - intros Hfit Hdel (due & Hdue & Hlt) Hst. rewrite decide_True by done. cbn.
    assert (overdue_where now t = true) as ->; [|done].
    unfold overdue_where, due_before, status_open.
    rewrite Hdue, Hdel, bool_decide_eq_true_2, bool_decide_eq_false_2; done.
  - intros Hskip. destruct (decide (notifications_fit now d)); [|done]. cbn.
    assert (overdue_where now t = false) as ->; [|done].
    unfold overdue_where, status_open.
    destruct Hskip as [Hs|[Hs|Hdel]].
    + rewrite Hs, bool_decide_eq_true_2 by set_solver.
      by rewrite andb_false_r.
    + rewrite Hs, bool_decide_eq_true_2 by set_solver.
      by rewrite andb_false_r.
    + rewrite Hdel. by rewrite andb_false_r.
Qed.
End SweepNotifications.

Section SweepClaims.
Import CeleryWorker.

(** C1. The claim fails on a store the code can hold: the sample store
    with one more task, past due, to be announced, with a title of 242
    characters (the task table and the request schemas allow 255).  The
    notification title, "Task Overdue: " and the task title, does not
    fit the 255 characters of its column; the run raises [DataError] and
    commits nothing, so the long task and the report, both past due,
    live and TODO, are TODO afterwards. *)
Theorem C1_title_overflow :
  let '(d', _, r) :=
    process_task_overdue_check Sample.now Sample2.long_store [] in
  String.length (Task.title Sample2.minutes) = 242%nat
  ∧ tasks Sample2.long_store !! 6%N = Some Sample2.minutes
  ∧ tasks Sample2.long_store !! 1%N = Some Sample.report
  ∧ overdue_where Sample.now Sample2.minutes = true
  ∧ overdue_where Sample.now Sample.report = true
  ∧ r = inl DataError
  ∧ d' = Sample2.long_store
  ∧ Task.status <$> tasks d' !! 6%N = Some TODO
  ∧ Task.status <$> tasks d' !! 1%N = Some TODO.
Proof. vm_compute. repeat split; reflexivity. Qed.
End SweepClaims.

Section SweepCounts.
Import CeleryWorker.

Lemma select_overdue_marked now d :
  select_overdue now (mark_rows (select_overdue now d) d) = [].
Proof.
  unfold select_overdue at 1.
  apply map_to_list_empty_iff, map_empty. intros k.
  apply map_lookup_filter_None. right. intros t Hk. cbn.
  rewrite marked_tasks_lookup in Hk.
  destruct (tasks d !! k) as [t0|]; [|done].
  cbn in Hk. injection Hk as <-.
  destruct (overdue_where now t0) eqn:Hw.
  - by rewrite overdue_where_set_overdue.
  - by rewrite Hw.
Qed.

(** C6. Running the worker a second time, at the same [now], right after
    a first run changes nothing in the store, whatever the store: no
    status changes and no notification is added.  When the first run
    returned a result, the second leaves the mail queue as it was and
    reports zero tasks marked and zero notifications; when the first run
    raised, so does the second. *)
Theorem C6_sweep_idempotent now d q :
  let '(d1, q1, r1) := process_task_overdue_check now d q in
  let '(d2, q2, r2) := process_task_overdue_check now d1 q1 in
  d2 = d1
  ∧ (∀ r, r1 = inr r → q2 = q1 ∧ r2 = inr (mkResult "processed" 0 0))
  ∧ (∀ e, r1 = inl e → r2 = inl e).
Proof.
  destruct (decide (notifications_fit now d)) as [Hfit|Hfit].
  - rewrite (sweep_commits now d q Hfit).
    unfold process_task_overdue_check at 1.
    rewrite select_overdue_marked. cbn. split; [done|]. split; [done|]. done.
  - destruct (sweep_raises now d q Hfit) as (sent & -> & _).
    destruct (sweep_raises now d (q ++ sent) Hfit) as (sent' & -> & _).
    split; [done|]. split; [done|]. by intros e [= <-].
Qed.

(** C10. In the result a run returns, [notifications_sent] is at most
    [marked_overdue], and [marked_overdue] is the number of tasks whose
    status the run changed to OVERDUE: one for every selected task, with
    one notification for those of them that have [notify_overdue]. *)
Theorem C10_sweep_counts now d q d' q' r :
  process_task_overdue_check now d q = (d', q', inr r) →
  (notifications_sent r ≤ marked_overdue r)%nat
  ∧ marked_overdue r = size (changed_to_overdue d d')
  ∧ marked_overdue r = length (select_overdue now d)
  ∧ notifications_sent r = length (filter notifying (select_overdue now d))
  ∧ length (notifications d')
    = (length (notifications d) + notifications_sent r)%nat.
Proof.
  intros Hrun.
  destruct (decide (notifications_fit now d)) as [Hfit|Hfit].
  2:{ destruct (sweep_raises now d q Hfit) as (sent & Hr & _). congruence. }
  pose proof (λ k t, transitioned_iff_selected now d q k t) as Htr.
  rewrite Hrun in Htr. cbn [fst] in Htr.
  rewrite (sweep_commits now d q Hfit) in Hrun.
  injection Hrun as <- <- <-. cbn.
  split; [apply length_filter|].
  split; [|split; [done|split; [done|]]].
  - unfold select_overdue at 1. rewrite length_map_to_list.
    f_equal. unfold changed_to_overdue. symmetry.
    apply map_filter_ext. intros k t Hk. cbn.
    rewrite (Htr k t Hk). tauto.
  - by rewrite mark_rows_notifications, length_app, length_fmap.
Qed.

(** C10 on the sample store: two tasks marked, one of them announced. *)
Lemma C10_sweep_counts_witness :
  ∃ d' q' r,
    process_task_overdue_check Sample.now Sample.store [] = (d', q', inr r)
    ∧ marked_overdue r = 2%nat ∧ notifications_sent r = 1%nat
    ∧ (notifications_sent r ≤ marked_overdue r)%nat
    ∧ marked_overdue r = size (changed_to_overdue Sample.store d')
    ∧ marked_overdue r = length (select_overdue Sample.now Sample.store)
    ∧ notifications_sent r
      = length (filter notifying (select_overdue Sample.now Sample.store))
    ∧ length (notifications d')
      = (length (notifications Sample.store) + notifications_sent r)%nat.
Proof.
  eexists _, _, _. split; [vm_compute; reflexivity|].
  split; [reflexivity|]. split; [reflexivity|].
  eapply (C10_sweep_counts Sample.now Sample.store []).
  vm_compute. reflexivity.
Defined.
End SweepCounts.

Section SweepNotificationClaims.
Import CeleryWorker.

(** C2 as stated fails: the quiet task of the sample store has no
    [notify_overdue]; the run turns it OVERDUE and adds no notification
    for it. *)
Lemma C2_counterexample :
  let d' := (process_task_overdue_check Sample.now Sample.store []).1.1 in
  Task.status <$> tasks Sample.store !! 2%N = Some IN_PROGRESS
  ∧ Task.status <$> tasks d' !! 2%N = Some OVERDUE
  ∧ length (overdue_notifications_of 2%N (notifications d')) ≠ 1%nat.
Proof. vm_compute. repeat split; discriminate. Qed.

(** C2 (amended). For every task the run turns OVERDUE, the run adds one
    TASK_OVERDUE notification for it when the task has [notify_overdue],
    and none when it has not; the notification goes to the assignee, or
    to the creator when there is no assignee.  An e-mail is queued only
    for a selected task that has [notify_overdue] and an assignee who
    exists as a user, and for every such task. *)
Theorem C2_notification_when_notify_overdue now d q k t :
  tasks d !! k = Some t →
  Task.status t ≠ OVERDUE →
  Task.status <$> tasks (process_task_overdue_check now d q).1.1 !! k
    = Some OVERDUE →
  let '(d', q', _) := process_task_overdue_check now d q in
  ∃ new sent,
    notifications d' = notifications d ++ new
    ∧ q' = q ++ sent
    ∧ overdue_notifications_of k new
      = (if Task.notify_overdue t then [overdue_notification k t] else [])
    ∧ Notification.user_id (overdue_notification k t)
      = match Task.assigned_to t with
        | Some a => a
        | None => Task.created_by t
        end
    ∧ (∀ e, e ∈ sent →
         ∃ k' t' a u,
           tasks d !! k' = Some t' ∧ overdue_where now t' = true
           ∧ Task.notify_overdue t' = true ∧ Task.assigned_to t' = Some a
           ∧ users d !! a = Some u ∧ e = overdue_email (User.email u) t')
    ∧ (Task.notify_overdue t = true →
       ∀ a u, Task.assigned_to t = Some a → users d !! a = Some u →
              overdue_email (User.email u) t ∈ sent).
Proof.
  intros Ht Hne Hafter.
  assert (notifications_fit now d ∧ overdue_where now t = true) as [Hfit Hw].
  { by apply (transitioned_iff_selected now d q k t). }
  assert ((k, t) ∈ select_overdue now d) as Hsel.
  { by apply elem_of_select_overdue. }
  rewrite (sweep_commits now d q Hfit).
  set (l := select_overdue now d) in *.
  exists (row_notification <$> filter notifying l).
  exists (mjoin ((λ row : uuid * Task.t, assignee_mail row.2 d)
                    <$> filter notifying l)).
  split; [apply mark_rows_notifications|].
  split; [done|].
  split; [apply rows_notifications_selected; [apply NoDup_select_overdue|done]|].
  split; [unfold overdue_notification, notify_user_id; cbn;
          by destruct (Task.assigned_to t)|].
  split.
  - intros e (ms & He & Hms)%list_elem_of_join.
    apply list_elem_of_fmap in Hms as ([k' t'] & -> & Hrow).
    apply list_elem_of_filter in Hrow as [Hnot Hrow].
    apply elem_of_select_overdue in Hrow as [Hk' Hw'].
    unfold assignee_mail in He. cbn in He.
    destruct (Task.assigned_to t') as [a|] eqn:Ha; [|by apply elem_of_nil in He].
    destruct (users d !! a) as [u|] eqn:Hu; [|by apply elem_of_nil in He].
    apply list_elem_of_singleton in He as ->.
    by exists k', t', a, u.
  - intros Hn a u Ha Hu. apply list_elem_of_join.
    exists (assignee_mail t d). split.
    + unfold assignee_mail. rewrite Ha, Hu. apply list_elem_of_here.
    + apply list_elem_of_fmap. exists (k, t). split; [done|].
      by apply list_elem_of_filter.
Qed.

(** C2 (amended) on the sample store, for the report. *)
Lemma C2_notification_when_notify_overdue_witness :
  let '(d', q', _) :=
    process_task_overdue_check Sample.now Sample.store [] in
  ∃ new sent,
    notifications d' = notifications Sample.store ++ new
    ∧ q' = [] ++ sent
    ∧ overdue_notifications_of 1%N new
      = [overdue_notification 1%N Sample.report]
    ∧ Notification.user_id (overdue_notification 1%N Sample.report) = 11%N
    ∧ (∀ e, e ∈ sent →
         ∃ k' t' a u,
           tasks Sample.store !! k' = Some t'
           ∧ overdue_where Sample.now t' = true
           ∧ Task.notify_overdue t' = true ∧ Task.assigned_to t' = Some a
           ∧ users Sample.store !! a = Some u
           ∧ e = overdue_email (User.email u) t')
    ∧ (Task.notify_overdue Sample.report = true →
       ∀ a u, Task.assigned_to Sample.report = Some a →
              users Sample.store !! a = Some u →
              overdue_email (User.email u) Sample.report ∈ sent).
Proof.
  apply (C2_notification_when_notify_overdue
           Sample.now Sample.store [] 1%N Sample.report).
  - reflexivity.
  - discriminate.
  - vm_compute. reflexivity.
Defined.
End SweepNotificationClaims.

(** ** The start-up reconciliation and the inline transitions *)

Section Startup.
Import Main.

Implicit Types (l : list (uuid * Task.t)) (st : DB * list Email) (k : uuid).

Lemma recipient_mail_users t d d' :
  users d' = users d → recipient_mail t d' = recipient_mail t d.
Proof. unfold recipient_mail. by intros ->. Qed.

(** Step 1 of the start-up pass: it goes through exactly when every
    notification it adds fits. *)
Lemma overdue_loop_spec l st :
  if forallb row_fits l then
    overdue_loop l st
    = (Some (mark_rows l st.1),
       st.2 ++ mjoin ((λ row, recipient_mail row.2 st.1) <$> filter notifying l))
  else
    ∃ sent,
      overdue_loop l st = (None, st.2 ++ sent)
      ∧ sent `prefix_of`
          mjoin ((λ row, recipient_mail row.2 st.1) <$> filter notifying l).
Proof.
  revert st. induction l as [|[id t] l IH]; intros st.
  - cbn. by rewrite app_nil_r.
  - cbn [overdue_loop forallb]. rewrite join_mail_cons. cbn [snd].
    unfold row_fits at 1, row_notification. cbn [fst snd].
    destruct (Task.notify_overdue t) eqn:Hn; cbn [negb orb].
    + destruct (title_fits (overdue_notification id t)) eqn:Hfit; cbn [andb].
      * set (st1 := (add_notification (overdue_notification id t)
                       (update_status id OVERDUE st.1),
                     st.2 ++ recipient_mail t (update_status id OVERDUE st.1))).
        assert (∀ row : uuid * Task.t,
                  recipient_mail row.2 st1.1 = recipient_mail row.2 st.1) as Hu.
        { intros row. by apply recipient_mail_users. }
        specialize (IH st1).
        rewrite (list_fmap_ext _ _ _ (λ _ row _, Hu row)) in IH.
        assert (recipient_mail t (update_status id OVERDUE st.1)
                = recipient_mail t st.1) as Hm by by apply recipient_mail_users.
        assert (st1.1 = mark_row st.1 (id, t)) as Hdb.
        { unfold mark_row, row_notification. cbn. by rewrite Hn. }
        destruct (forallb row_fits l).
        -- rewrite IH, Hdb. subst st1. cbn [fst snd].
           by rewrite Hm, <- app_assoc.
        -- destruct IH as (sent & -> & Hpre). eexists. subst st1. cbn [fst snd].
           rewrite Hm, <- app_assoc. split; [done|]. by apply prefix_app.
      * exists []. rewrite app_nil_r. split; [done|]. apply prefix_nil.
    + cbn [andb app].
      set (st1 := (update_status id OVERDUE st.1, st.2)).
      assert (∀ row : uuid * Task.t,
                recipient_mail row.2 st1.1 = recipient_mail row.2 st.1) as Hu.
      { intros row. by apply recipient_mail_users. }
      specialize (IH st1).
      rewrite (list_fmap_ext _ _ _ (λ _ row _, Hu row)) in IH.
      assert (st1.1 = mark_row st.1 (id, t)) as Hdb.
      { unfold mark_row. cbn. by rewrite Hn. }
      destruct (forallb row_fits l).
      * rewrite IH, Hdb. by subst st1.
      * destruct IH as (sent & -> & Hpre). subst st1. by exists sent.
Qed.

Lemma lifespan_commits now d q :
  notifications_fit now d →
  lifespan now d q
  = (bulk_update_status (in_progress_where now) IN_PROGRESS
       (mark_rows (select_overdue now d) d),
     q ++ mjoin ((λ row, recipient_mail row.2 d)
                   <$> filter notifying (select_overdue now d))).
Proof.
  intros Hfit. unfold lifespan.
  pose proof (overdue_loop_spec (select_overdue now d) (d, q)) as Hs.
  rewrite Hfit in Hs. by rewrite Hs.
Qed.

Lemma lifespan_abandoned now d q :
  ¬ notifications_fit now d →
  ∃ sent,
    lifespan now d q = (d, q ++ sent)
    ∧ sent `prefix_of`
        mjoin ((λ row, recipient_mail row.2 d)
                 <$> filter notifying (select_overdue now d)).
Proof.
  intros Hfit. unfold lifespan.
  pose proof (overdue_loop_spec (select_overdue now d) (d, q)) as Hs.
  unfold notifications_fit in Hfit.
  destruct (forallb row_fits (select_overdue now d)); [done|].
  destruct Hs as (sent & -> & Hpre). by exists sent.
Qed.

Lemma bulk_update_status_lookup w s d k :
  tasks (bulk_update_status w s d) !! k
  = (λ t, if w t then Task.set_status s t else t) <$> tasks d !! k.
Proof. unfold bulk_update_status. cbn. by rewrite lookup_fmap. Qed.

Lemma lifespan_tasks_lookup now d q k :
  tasks (lifespan now d q).1 !! k
  = if decide (notifications_fit now d) then evaluate_row now <$> tasks d !! k
    else tasks d !! k.
Proof.
  destruct (decide (notifications_fit now d)) as [Hfit|Hfit].
  - rewrite lifespan_commits by done. cbn [fst].
    rewrite bulk_update_status_lookup, marked_tasks_lookup.
    unfold evaluate_row. by destruct (tasks d !! k).
  - by destruct (lifespan_abandoned now d q Hfit) as (sent & -> & _).
Qed.

Lemma lifespan_notifications now d q :
  notifications (lifespan now d q).1
  = notifications d
    ++ if decide (notifications_fit now d)
       then row_notification <$> filter notifying (select_overdue now d)
       else [].
Proof.
  destruct (decide (notifications_fit now d)) as [Hfit|Hfit].
  - rewrite lifespan_commits by done. cbn. apply mark_rows_notifications.
  - destruct (lifespan_abandoned now d q Hfit) as (sent & -> & _).
    cbn. by rewrite app_nil_r.
Qed.

Lemma get_overview_transitions_lookup now d k :
  tasks (Analytics.get_overview_transitions now d) !! k
  = evaluate_row now <$> tasks d !! k.
Proof.
  unfold Analytics.get_overview_transitions.
  rewrite !bulk_update_status_lookup.
  by destruct (tasks d !! k).
Qed.

(** What an evaluation pass does to a TODO row. *)
Lemma evaluate_row_todo now t :
  Task.status t = TODO →
  Task.status (evaluate_row now t)
  = if overdue_where now t then OVERDUE
    else if in_progress_where now t then IN_PROGRESS else TODO.
Proof.
  intros Hs. unfold evaluate_row.
  destruct (overdue_where now t) eqn:Hw.
  - unfold in_progress_where. cbn.
    by rewrite bool_decide_eq_false_2, andb_false_r.
  - destruct (in_progress_where now t); [done|by rewrite Hs].
Qed.

Lemma in_progress_where_started now t :
  in_progress_where now t = true →
  ∃ s, Task.start_date t = Some s ∧ s <= now.
Proof.
  unfold in_progress_where, started_by.
  intros [[Hs _]%andb_prop _]%andb_prop.
  destruct (Task.start_date t) as [s|]; [|done].
  exists s. split; [done|]. by apply bool_decide_eq_true in Hs.
Qed.
End Startup.

Section InProgressClaims.
Import CeleryWorker.

(** C4 as stated fails: the started task of the sample store is live, TODO,
    started and not yet due, and the five-minute worker leaves it TODO. *)
Lemma C4_counterexample :
  let d' := (process_task_overdue_check Sample.now Sample.store []).1.1 in
  tasks Sample.store !! 5%N = Some Sample.started
  ∧ Task.is_deleted Sample.started = false
  ∧ Task.status Sample.started = TODO
  ∧ started_by Sample.now Sample.started = true
  ∧ due_before Sample.now Sample.started = false
  ∧ Task.status <$> tasks d' !! 5%N = Some TODO.
Proof. vm_compute. repeat split; reflexivity. Qed.

(** C4 (amended). For every task that is not deleted, has status TODO, a
    start date at or before [now] and a due date that has not passed:
    the evaluation pass run at start-up leaves the task IN_PROGRESS when
    it commits, that is when every notification it adds fits its column,
    and adds no notification that refers to the task; the pass run
    inline by the analytics overview leaves the task IN_PROGRESS and adds
    no notification at all; the five-minute worker leaves such a task as
    it is. *)
Theorem C4_started_todo_in_progress now d q k t :
  tasks d !! k = Some t →
  Task.is_deleted t = false →
  Task.status t = TODO →
  (∃ s, Task.start_date t = Some s ∧ s <= now) →
  (∀ due, Task.due_date t = Some due → now <= due) →
  ((notifications_fit now d →
    Task.status <$> tasks (Main.lifespan now d q).1 !! k = Some IN_PROGRESS)
   ∧ ∃ new, notifications (Main.lifespan now d q).1 = notifications d ++ new
            ∧ ∀ n, n ∈ new → Notification.task_id n ≠ Some k)
  ∧ (Task.status <$> tasks (Analytics.get_overview_transitions now d) !! k
     = Some IN_PROGRESS
     ∧ notifications (Analytics.get_overview_transitions now d)
       = notifications d)
  ∧ tasks (process_task_overdue_check now d q).1.1 !! k = Some t.
Proof.
  intros Ht Hdel Hs (s & Hstart & Hle) Hdue.
  assert (overdue_where now t = false) as Hw.
  { unfold overdue_where, due_before.
    destruct (Task.due_date t) as [due|]; [|done].
    rewrite bool_decide_eq_false_2; [done|]. specialize (Hdue due eq_refl). lia. }
  assert (in_progress_where now t = true) as Hp.
  { unfold in_progress_where, started_by.
    rewrite Hstart, Hs, Hdel. by rewrite !bool_decide_eq_true_2. }
  assert (Task.status (evaluate_row now t) = IN_PROGRESS) as Hrow.
  { rewrite evaluate_row_todo by done. by rewrite Hw, Hp. }
  split; [split|split].
  - intros Hfit. rewrite lifespan_tasks_lookup, decide_True, Ht by done.
    cbn. by rewrite Hrow.
  - eexists. split; [apply lifespan_notifications|].
    destruct (decide (notifications_fit now d)) as [Hfit|Hfit];
      [|by intros n ?%elem_of_nil].
    intros n ([k' t'] & -> & Hin)%list_elem_of_fmap.
    apply list_elem_of_filter in Hin as [_ Hin].
    apply elem_of_select_overdue in Hin as [Hk' Hw'].
    cbn. intros [= ->]. congruence.
  - rewrite get_overview_transitions_lookup, Ht. cbn.
    by rewrite Hrow.
  - rewrite sweep_tasks_lookup, Ht.
    destruct (decide (notifications_fit now d)) as [Hfit|Hfit]; [|done].
    cbn. by rewrite Hw.
Qed.

(** C4 (amended) on the sample store, for the started task; every
    notification of the pass fits there. *)
Lemma C4_started_todo_in_progress_witness :
  (Task.status <$> tasks (Main.lifespan Sample.now Sample.store []).1 !! 5%N
     = Some IN_PROGRESS
   ∧ ∃ new, notifications (Main.lifespan Sample.now Sample.store []).1
            = notifications Sample.store ++ new
            ∧ ∀ n, n ∈ new → Notification.task_id n ≠ Some 5%N)
  ∧ (Task.status
       <$> tasks (Analytics.get_overview_transitions Sample.now Sample.store)
           !! 5%N
     = Some IN_PROGRESS
     ∧ notifications (Analytics.get_overview_transitions Sample.now Sample.store)
       = notifications Sample.store)
  ∧ tasks (process_task_overdue_check Sample.now Sample.store []).1.1 !! 5%N
    = Some Sample.started.
Proof.
  destruct (C4_started_todo_in_progress Sample.now Sample.store [] 5%N
              Sample.started) as ((Hstart & Hnew) & Hoverview & Hworker).
  - reflexivity.
  - reflexivity.
  - reflexivity.
  - exists 50. split; [reflexivity|]. unfold Sample.now. lia.
  - intros due [= <-]. unfold Sample.now. lia.
  - split; [split; [apply Hstart; vm_compute; reflexivity|exact Hnew]|].
    split; [exact Hoverview|exact Hworker].
Defined.

Lemma enum_or_pure {E} (of_string : string → option E) dflt value w e w' :
  enum_or of_string dflt value w = inr (e, w') →
  w' = w ∧ ∀ w0, enum_or of_string dflt value w0 = inr (e, w0).
Proof.
  unfold enum_or. destruct value as [v|]; [|by intros [= <- <-]].
  case_bool_decide; [by intros [= <- <-]|].
  destruct (of_string v); [by intros [= <- <-]|done].
Qed.

Lemma new_task_spec now data user w task w' :
  Tasks.new_task now data user w = inr (task, w') →
  w' = w ∧ created_from now data task.
Proof.
  unfold Tasks.new_task, mbind, Handler_bind.
  destruct (enum_or TaskStatus_of_string TODO (Schemas.status data) w)
    as [e|[requested w1]] eqn:Hs; [done|].
  apply enum_or_pure in Hs as [-> Hany].
  destruct (enum_or TaskPriority_of_string MEDIUM (Schemas.priority data) w)
    as [e|[priority w2]] eqn:Hp; [done|].
  apply enum_or_pure in Hp as [-> _].
  intros [= <- <-]. split; [done|]. split; [done|]. by exists requested.
Qed.

Lemma create_task_stores now id data user w task w' :
  Tasks.create_task now id data user w = inr (task, w') →
  tasks (session w') !! id = Some task ∧ created_from now data task.
Proof.
  unfold Tasks.create_task, mbind at 1, Handler_bind at 1.
  destruct (Tasks.new_task now data user w) as [e|[task1 w1]] eqn:Hnew; [done|].
  apply new_task_spec in Hnew as [-> Hfrom].
  unfold Tasks.add_task, get_session, put_session, purge, broadcast, raise,
    mbind, Handler_bind, mret, Handler_ret.
  cbn.
  destruct (bool_decide _ || negb _); [done|]. cbn.
  intros [= <- <-]. split; [|done]. cbn. apply lookup_insert_eq.
Qed.

Lemma bulk_add_spec now uuid4 data user w created w' :
  Tasks.bulk_add now uuid4 data user w = inr (created, w') →
  Forall2 (created_from now) data created.
Proof.
  revert uuid4 w created.
  induction data as [|t data IH]; intros uuid4 w created; cbn [Tasks.bulk_add].
  - intros [= <- <-]. constructor.
  - unfold mbind at 1, Handler_bind at 1.
    destruct (Tasks.new_task now t user w) as [e|[task w1]] eqn:Hnew; [done|].
    apply new_task_spec in Hnew as [-> Hfrom].
    unfold mbind at 1, Handler_bind at 1.
    destruct (Tasks.add_task (uuid4 0%nat) task w) as [e|[[] w1]]; [done|].
    unfold mbind at 1, Handler_bind at 1.
    destruct (Tasks.bulk_add now (uuid4 ∘ S) data user w1)
      as [e|[rest w2]] eqn:Hrest; [done|].
    intros [= <- <-]. constructor; [done|]. by eapply IH.
Qed.

Lemma bulk_create_tasks_spec now uuid4 data user w created w' :
  Tasks.bulk_create_tasks now uuid4 data user w = inr (created, w') →
  Forall2 (created_from now) data created.
Proof.
  unfold Tasks.bulk_create_tasks, mbind at 1, Handler_bind at 1.
  destruct (Tasks.bulk_add now uuid4 data user w)
    as [e|[created1 w1]] eqn:Hadd; [done|].
  apply bulk_add_spec in Hadd.
  unfold purge, mbind, Handler_bind, mret, Handler_ret. by intros [= <- <-].
Qed.

(** C5 as stated fails: a task requested as TODO with a start date in the
    future and a due date in the future is stored IN_PROGRESS. *)
Lemma C5_counterexample :
  ∃ task w',
    Tasks.create_task Sample.now 6%N Sample.later 10%N Sample.world
    = inr (task, w')
    ∧ Schemas.status Sample.later = Some "todo"
    ∧ Schemas.start_date Sample.later = Some 1000
    ∧ Sample.now < 1000
    ∧ Task.status task = IN_PROGRESS
    ∧ tasks (session w') !! 6%N = Some task.
Proof.
  eexists _, _. split; [vm_compute; reflexivity|].
  vm_compute. repeat split; reflexivity.
Qed.

(** C5 (amended). An evaluation pass (at start-up or inline in the
    analytics overview) moves a TODO task to IN_PROGRESS only when its
    start date is present and at or before [now], and the five-minute
    worker never does.  The auto-transition applied at task creation and
    bulk creation goes by the due date instead: a task requested as TODO
    is stored IN_PROGRESS exactly when it has a due date that is not
    before [now], whatever start date the request carries. *)
Theorem C5_in_progress_entry now d q k t :
  tasks d !! k = Some t →
  Task.status t = TODO →
  (Task.status <$> tasks (Main.lifespan now d q).1 !! k = Some IN_PROGRESS →
   ∃ s, Task.start_date t = Some s ∧ s <= now)
  ∧ (Task.status <$> tasks (Analytics.get_overview_transitions now d) !! k
     = Some IN_PROGRESS →
     ∃ s, Task.start_date t = Some s ∧ s <= now)
  ∧ Task.status <$> tasks (process_task_overdue_check now d q).1.1 !! k
    ≠ Some IN_PROGRESS
  ∧ (∀ due_date,
       Tasks.auto_transition now due_date TODO = IN_PROGRESS
       ↔ ∃ due, due_date = Some due ∧ now <= due)
  ∧ (∀ id data user w task w',
       Tasks.create_task now id data user w = inr (task, w') →
       tasks (session w') !! id = Some task ∧ created_from now data task)
  ∧ (∀ uuid4 data user w created w',
       Tasks.bulk_create_tasks now uuid4 data user w = inr (created, w') →
       Forall2 (created_from now) data created).
Proof.
  intros Ht Hs.
  assert (∀ o, Task.status <$> (evaluate_row now <$> Some t) = Some o →
               o = IN_PROGRESS →
               ∃ s, Task.start_date t = Some s ∧ s <= now) as Hpass.
  { intros o. cbn. rewrite evaluate_row_todo by done.
    destruct (overdue_where now t); [by intros [= <-]|].
    destruct (in_progress_where now t) eqn:Hp; [|by intros [= <-]].
    intros _ _. by apply in_progress_where_started. }
  split; [|split; [|split; [|split; [|split]]]].
  - rewrite lifespan_tasks_lookup, Ht.
    destruct (decide (notifications_fit now d)) as [Hfit|Hfit].
    + intros H. by eapply Hpass.
    + cbn. rewrite Hs. by intros [=].
  - rewrite get_overview_transitions_lookup, Ht. intros H. by eapply Hpass.
  - rewrite sweep_tasks_lookup, Ht.
    destruct (decide (notifications_fit now d)) as [Hfit|Hfit]; cbn;
      [|by rewrite Hs].
    destruct (overdue_where now t); cbn; [done|]. by rewrite Hs.
  - intros due_date. unfold Tasks.auto_transition.
    destruct due_date as [due|]; [|split; [done|by intros (? & ? & ?)]].
    rewrite (bool_decide_eq_false_2 (TODO ∈ [COMPLETED; OVERDUE]))
      by by apply (bool_decide_unpack _).
    rewrite (bool_decide_eq_true_2 (TODO = TODO)) by done.
    rewrite !andb_true_r.
    destruct (decide (due < now)) as [Hlt|Hge].
    + rewrite (bool_decide_eq_true_2 _ Hlt).
      split; [done|]. intros (? & [= <-] & ?). lia.
    + rewrite (bool_decide_eq_false_2 _ Hge).
      rewrite bool_decide_eq_true_2 by lia.
      split; [|done]. intros _. exists due. split; [done|lia].
  - intros id data user w task w'. apply create_task_stores.
  - intros uuid4 data user w created w'. apply bulk_create_tasks_spec.
Qed.

(** C5 (amended) on the sample store, for the started task. *)
Lemma C5_in_progress_entry_witness :
  (Task.status <$> tasks (Main.lifespan Sample.now Sample.store []).1 !! 5%N
     = Some IN_PROGRESS →
   ∃ s, Task.start_date Sample.started = Some s ∧ s <= Sample.now)
  ∧ (Task.status
       <$> tasks (Analytics.get_overview_transitions Sample.now Sample.store)
           !! 5%N
     = Some IN_PROGRESS →
     ∃ s, Task.start_date Sample.started = Some s ∧ s <= Sample.now)
  ∧ Task.status
      <$> tasks (process_task_overdue_check Sample.now Sample.store []).1.1
          !! 5%N
    ≠ Some IN_PROGRESS
  ∧ (∀ due_date,
       Tasks.auto_transition Sample.now due_date TODO = IN_PROGRESS
       ↔ ∃ due, due_date = Some due ∧ Sample.now <= due)
  ∧ (∀ id data user w task w',
       Tasks.create_task Sample.now id data user w = inr (task, w') →
       tasks (session w') !! id = Some task
       ∧ created_from Sample.now data task)
  ∧ (∀ uuid4 data user w created w',
       Tasks.bulk_create_tasks Sample.now uuid4 data user w
       = inr (created, w') →
       Forall2 (created_from Sample.now) data created).
Proof.
  apply (C5_in_progress_entry Sample.now Sample.store [] 5%N Sample.started).
  - reflexivity.
  - reflexivity.
Defined.
End InProgressClaims.

(** ** The connection manager *)

Section Broadcast.
Import ConnectionManager.

Implicit Types (n : Net) (conns : list WebSocket) (ws : WebSocket)
  (items : list (string * list WebSocket)).

Lemma try_send_json_spec message n ws :
  try_send_json message n ws
  = mkNet (closed n)
          (delivered n ++ if decide (ws ∈ closed n) then [] else [(ws, message)]).
Proof.
  unfold try_send_json, send_json. destruct n as [cl dl]. cbn.
  destruct (decide (ws ∈ cl)); cbn; [by rewrite app_nil_r|done].
Qed.

Lemma send_all_spec message conns n :
  foldl (try_send_json message) n conns
  = mkNet (closed n)
          (delivered n
           ++ ((λ ws, (ws, message)) <$> filter (λ ws, ws ∉ closed n) conns)).
Proof.
  revert n. induction conns as [|ws conns IH]; intros n.
  - destruct n. cbn. by rewrite app_nil_r.
  - cbn [foldl]. rewrite IH, try_send_json_spec. cbn [closed delivered].
    rewrite <- app_assoc. do 2 f_equal.
    destruct (decide (ws ∈ closed n)) as [Hin|Hnin].
    + by rewrite filter_cons_False by (intros ?; done).
    + by rewrite filter_cons_True by done.
Qed.

Lemma broadcast_bucket_spec message exclude_user n item :
  broadcast_bucket message exclude_user n item
  = mkNet (closed n)
          (delivered n
           ++ bucket_deliveries message exclude_user (closed n) item).
Proof.
  unfold broadcast_bucket, bucket_deliveries.
  destruct (decide (Some item.1 = exclude_user)).
  - destruct n. cbn. by rewrite app_nil_r.
  - apply send_all_spec.
Qed.

Lemma broadcast_items_spec message exclude_user items n :
  foldl (broadcast_bucket message exclude_user) n items
  = mkNet (closed n)
          (delivered n
           ++ (items ≫= bucket_deliveries message exclude_user (closed n))).
Proof.
  revert n. induction items as [|item items IH]; intros n.
  - destruct n. cbn. by rewrite app_nil_r.
  - cbn [foldl]. rewrite IH, broadcast_bucket_spec. cbn [closed delivered].
    by rewrite <- app_assoc.
Qed.

Lemma broadcast_spec message exclude_user self n :
  broadcast message exclude_user self n
  = (self, mkNet (closed n)
                 (delivered n ++ broadcast_sent message exclude_user self n)).
Proof. unfold broadcast. by rewrite broadcast_items_spec. Qed.

Lemma elem_of_broadcast_sent message exclude_user self n ws m :
  (ws, m) ∈ broadcast_sent message exclude_user self n
  ↔ m = message ∧ (ws ∉ closed n)
    ∧ ∃ user_id conns,
        active_connections self !! user_id = Some conns
        ∧ Some user_id ≠ exclude_user ∧ ws ∈ conns.
Proof.
  unfold broadcast_sent. rewrite list_elem_of_bind. split.
  - intros ([user_id conns] & Hin & Hitem).
    apply elem_of_map_to_list in Hitem.
    unfold bucket_deliveries in Hin. cbn in Hin.
    destruct (decide (Some user_id = exclude_user)); [by apply elem_of_nil in Hin|].
    apply list_elem_of_fmap in Hin as (ws' & [= -> ->] & Hws).
    apply list_elem_of_filter in Hws as [Hopen Hws].
    split; [done|]. split; [done|]. by exists user_id, conns.
  - intros (-> & Hopen & user_id & conns & Hitem & Hex & Hws).
    exists (user_id, conns). split; [|by apply elem_of_map_to_list].
    unfold bucket_deliveries. cbn.
    rewrite decide_False by done.
    apply list_elem_of_fmap. exists ws. split; [done|].
    by apply list_elem_of_filter.
Qed.

(** C8. One call of [broadcast] ends normally whatever sends fail; it
    delivers the message to every session, of every user other than the
    excluded one, on which the send does not fail, and to no other; the
    sessions on which it fails are skipped, and the registry after the
    call is the registry before it, failed sessions included. *)
Theorem C8_broadcast_skips_failed_send message exclude_user self n :
  ∃ sent,
    broadcast message exclude_user self n
    = (self, mkNet (closed n) (delivered n ++ sent))
    ∧ ∀ ws m,
        (ws, m) ∈ sent
        ↔ m = message ∧ (ws ∉ closed n)
          ∧ ∃ user_id conns,
              active_connections self !! user_id = Some conns
              ∧ Some user_id ≠ exclude_user ∧ ws ∈ conns.
Proof.
  exists (broadcast_sent message exclude_user self n).
  split; [apply broadcast_spec|]. intros ws m. apply elem_of_broadcast_sent.
Qed.

(** Session 1 fails, session 2 still receives the event, and both stay
    registered. *)
Example broadcast_one_send_fails :
  let message := mkMessage "task_deleted" [("task_id", JUuid 1%N)] in
  broadcast message None Sample.registry (mkNet {[ 1%N ]} [])
  = (Sample.registry, mkNet {[ 1%N ]} [(2%N, message)]).
Proof. vm_compute. reflexivity. Qed.

Lemma connect_lookup ws user_id self :
  active_connections (connect ws user_id self) !! user_id
  = Some (default [] (active_connections self !! user_id) ++ [ws]).
Proof. unfold connect. cbn. apply lookup_insert_eq. Qed.

Lemma filter_only_self ws conns :
  (∀ ws', ws' ∈ conns → ws' = ws) → filter (λ ws', ws' ≠ ws) conns = [].
Proof.
  induction conns as [|ws' conns IH]; intros Hall; [done|].
  rewrite filter_cons_False.
  - apply IH. intros ws'' Hin. apply Hall. by right.
  - intros Hne. apply Hne, Hall. by left.
Qed.

(** What a connect followed by the disconnect of the same session leaves
    of the user's bucket: the sessions the user had before, the session
    itself taken out. *)
Lemma connect_disconnect_lookup s u self :
  active_connections (disconnect s u (connect s u self)) !! u
  = let others :=
      filter (λ ws, ws ≠ s) (default [] (active_connections self !! u)) in
    if decide (others = []) then None else Some others.
Proof.
  unfold disconnect. rewrite connect_lookup.
  rewrite filter_app, filter_cons_False by (intros Hne; by apply Hne).
  rewrite filter_nil, app_nil_r. cbn zeta.
  destruct (decide (filter (λ ws, ws ≠ s)
                      (default [] (active_connections self !! u)) = [])).
  - apply lookup_delete_eq.
  - cbn. apply lookup_insert_eq.
Qed.

(** C9 as stated fails: Alice is on line with session 1 in the sample
    registry; after a second session of hers connects and disconnects,
    the registry still holds her entry, and a broadcast reaches her. *)
Lemma C9_counterexample :
  let gone := disconnect 7%N "alice" (connect 7%N "alice" Sample.registry) in
  let message := mkMessage "task_deleted" [("task_id", JUuid 1%N)] in
  active_connections Sample.registry !! "alice" = Some [1%N]
  ∧ active_connections gone !! "alice" = Some [1%N]
  ∧ ∃ sent,
      broadcast message None gone (mkNet ∅ []) = (gone, mkNet ∅ sent)
      ∧ (1%N, message) ∈ sent.
Proof.
  cbn zeta. split; [reflexivity|]. split; [vm_compute; reflexivity|].
  eexists. split; [vm_compute; reflexivity|].
  rewrite !elem_of_cons. tauto.
Qed.

(** C9 (amended). [connect(s,u)] followed by [disconnect(s,u)] leaves
    under [u] the sessions [u] had before other than [s], and no entry
    for [u] when there are none; the other users are as they were.  In
    that case, in particular when [u] was not on line before, a broadcast
    that follows delivers only to sessions held under other users.
    After two connects for [u], one broadcast that does not exclude [u]
    delivers the message to both sessions, as long as the send fails on
    neither. *)
Theorem C9_connect_disconnect_broadcast s u s1 s2 self message exclude_user n :
  let gone := disconnect s u (connect s u self) in
  let both := connect s2 u (connect s1 u self) in
  let others :=
    filter (λ ws, ws ≠ s) (default [] (active_connections self !! u)) in
  active_connections gone !! u
  = (if decide (others = []) then None else Some others)
  ∧ (∀ u', u' ≠ u →
       active_connections gone !! u' = active_connections self !! u')
  ∧ (others = [] →
     active_connections gone !! u = None
     ∧ ∃ sent,
         broadcast message exclude_user gone n
         = (gone, mkNet (closed n) (delivered n ++ sent))
         ∧ ∀ ws m, (ws, m) ∈ sent →
             ∃ u' conns, u' ≠ u ∧ active_connections gone !! u' = Some conns
                         ∧ ws ∈ conns)
  ∧ (s1 ∉ closed n → s2 ∉ closed n → exclude_user ≠ Some u →
     ∃ sent,
       broadcast message exclude_user both n
       = (both, mkNet (closed n) (delivered n ++ sent))
       ∧ (s1, message) ∈ sent ∧ (s2, message) ∈ sent).
Proof.
  intros gone both others.
  assert (active_connections gone !! u
          = (if decide (others = []) then None else Some others)) as Hgone.
  { subst gone others. apply connect_disconnect_lookup. }
  split; [done|]. split; [|split].
  - intros u' Hne. subst gone. unfold disconnect. rewrite connect_lookup.
    cbn zeta.
    destruct (decide (filter (λ ws, ws ≠ s) _ = [])); cbn.
    + rewrite lookup_delete_ne by done. by rewrite lookup_insert_ne.
    + rewrite lookup_insert_ne by done. by rewrite lookup_insert_ne.
  - intros Hnone. rewrite decide_True in Hgone by done.
    split; [done|].
    exists (broadcast_sent message exclude_user gone n).
    split; [apply broadcast_spec|]. intros ws m Hin.
    apply elem_of_broadcast_sent in Hin as (_ & _ & u' & conns & Hu' & _ & Hws).
    exists u', conns. split; [|done]. intros ->. congruence.
  - intros Hs1 Hs2 Hex.
    exists (broadcast_sent message exclude_user both n).
    split; [apply broadcast_spec|].
    assert (∀ ws, ws ∉ closed n → ws = s1 ∨ ws = s2 →
                  (ws, message) ∈ broadcast_sent message exclude_user both n)
      as Hboth.
    { intros ws Hopen Hws. apply elem_of_broadcast_sent.
      split; [done|]. split; [done|].
      eexists u, _. split; [apply connect_lookup|].
      split; [congruence|].
      rewrite connect_lookup. cbn.
      rewrite !elem_of_app, !list_elem_of_singleton. tauto. }
    split; apply Hboth; auto.
Qed.

(** C9 (amended) for a user who is not on line in the sample registry,
    while the send to another user's socket fails. *)
Lemma C9_connect_disconnect_broadcast_witness :
  let gone := disconnect 7%N "carol" (connect 7%N "carol" Sample.registry) in
  let both := connect 8%N "carol" (connect 7%N "carol" Sample.registry) in
  let message := mkMessage "task_deleted" [("task_id", JUuid 1%N)] in
  let n := mkNet {[ 1%N ]} [] in
  active_connections gone !! "carol" = None
  ∧ (∃ sent,
       broadcast message None gone n
       = (gone, mkNet (closed n) (delivered n ++ sent))
       ∧ ∀ ws m, (ws, m) ∈ sent →
           ∃ u' conns, u' ≠ "carol" ∧ active_connections gone !! u' = Some conns
                       ∧ ws ∈ conns)
  ∧ (∃ sent,
       broadcast message None both n
       = (both, mkNet (closed n) (delivered n ++ sent))
       ∧ (7%N, message) ∈ sent ∧ (8%N, message) ∈ sent).
Proof.
  destruct (C9_connect_disconnect_broadcast 7%N "carol" 7%N 8%N Sample.registry
              (mkMessage "task_deleted" [("task_id", JUuid 1%N)]) None
              (mkNet {[ 1%N ]} [])) as (_ & _ & Hgone & Hboth).
  destruct Hgone as [Hnone Hsent]; [vm_compute; reflexivity|].
  split; [exact Hnone|]. split; [exact Hsent|].
  apply Hboth.
  - cbn. apply (bool_decide_unpack _). vm_compute. exact I.
  - cbn. apply (bool_decide_unpack _). vm_compute. exact I.
  - discriminate.
Defined.
End Broadcast.

(** ** Cache invalidation *)

Section CachePurge.
Import Cache.

Lemma literal_spec c :
  literal c = true →
  Ascii.eqb c "*" = false ∧ Ascii.eqb c "?" = false
  ∧ Ascii.eqb c "[" = false ∧ Ascii.eqb c "\" = false.
Proof.
  unfold literal. rewrite !andb_true_iff, !negb_true_iff. tauto.
Qed.

(** A literal character at the head of the pattern: the key has to start
    with it, and the loop goes on. *)
Lemma glob_match_literal_head c p key :
  literal c = true →
  glob_match (String c p) key
  = match key with
    | EmptyString => false
    | String k key' => Ascii.eqb c k && resume (glob_match p) p key'
    end.
Proof.
  intros (Hstar & Hany & Hclass & Hesc)%literal_spec.
  destruct key as [|k key']; [done|].
  cbn [glob_match]. by rewrite Hstar, Hany, Hclass, Hesc.
Qed.

Lemma stars_literals p : literals p = true → stars p = bool_decide (p = "").
Proof.
  destruct p as [|c p]; [done|]. cbn. intros [Hc _]%andb_prop.
  apply literal_spec in Hc as (-> & _). done.
Qed.

Lemma prefix_cons c p k key :
  String.prefix (String c p) (String k key)
  = Ascii.eqb c k && String.prefix p key.
Proof.
  cbn [String.prefix]. destruct (ascii_dec c k) as [->|Hne].
  - by rewrite Ascii.eqb_refl.
  - apply Ascii.eqb_neq in Hne. by rewrite Hne.
Qed.

(** A literal prefix followed by a star matches the keys with that
    prefix. *)
Lemma resume_prefix p key :
  literals p = true →
  resume (glob_match (p +:+ "*")) (p +:+ "*") key = String.prefix p key.
Proof.
  revert key. induction p as [|c p IH]; intros key Hlit.
  - by destruct key.
  - cbn in Hlit. apply andb_prop in Hlit as [Hc Hp].
    change (String c p +:+ "*") with (String c (p +:+ "*")).
    destruct key as [|k key].
    + cbn [resume stars]. apply literal_spec in Hc as (-> & _). done.
    + cbn [resume]. rewrite glob_match_literal_head by done.
      by rewrite IH, prefix_cons.
Qed.

Lemma scan_match_prefix p key :
  literals p = true →
  scan_match (p +:+ "*") key = String.prefix p key.
Proof.
  intros Hlit. unfold scan_match. destruct p as [|c p]; [by destruct key|].
  cbn in Hlit. apply andb_prop in Hlit as [Hc Hp].
  change (String c p +:+ "*") with (String c (p +:+ "*")).
  rewrite bool_decide_eq_false_2.
  2:{ intros [= -> _]. by apply literal_spec in Hc as ([=] & _). }
  cbn [orb]. rewrite glob_match_literal_head by done.
  destruct key as [|k key]; [done|]. by rewrite resume_prefix, prefix_cons.
Qed.

Lemma cache_delete_pattern_lookup pattern entries key :
  cache_delete_pattern pattern entries !! key
  = if scan_match pattern key then None else entries !! key.
Proof.
  unfold cache_delete_pattern.
  destruct (scan_match pattern key) eqn:Hm.
  - apply map_lookup_filter_None. right. intros v _. cbn. by rewrite Hm.
  - destruct (entries !! key) as [v|] eqn:Hv.
    + by apply map_lookup_filter_Some.
    + apply map_lookup_filter_None. by left.
Qed.

Lemma purge_listings_lookup entries key :
  purge_listings entries !! key
  = if String.prefix "tasks:" key || String.prefix "analytics:" key
    then None else entries !! key.
Proof.
  unfold purge_listings. rewrite !cache_delete_pattern_lookup.
  rewrite (scan_match_prefix "tasks:") by done.
  rewrite (scan_match_prefix "analytics:") by done.
  by destruct (String.prefix "tasks:" key), (String.prefix "analytics:" key).
Qed.

Lemma cache_post_ret {A} (a : A) : cache_post id (mret a).
Proof. by intros w a' w' [= <- <-]. Qed.

Lemma cache_post_raise {A} e : cache_post id (@raise A e).
Proof. by intros w a w'. Qed.

Lemma cache_post_bind {A B} f g (c : Handler A) (k : A → Handler B) :
  cache_post f c → (∀ a, cache_post g (k a)) → cache_post (g ∘ f) (c ≫= k).
Proof.
  intros Hc Hk w b w'. unfold mbind, Handler_bind.
  destruct (c w) as [e|[a w1]] eqn:Hcw; [done|].
  intros Hkw. cbn. rewrite (Hk _ _ _ _ Hkw). f_equal. by eapply Hc.
Qed.

Lemma cache_post_ext {A} f g (h : Handler A) :
  cache_post f h → (∀ c, f c = g c) → cache_post g h.
Proof. intros Hh Hfg w a w' Hw. rewrite <- Hfg. by eapply Hh. Qed.

(** A step that leaves the cache alone, before or after one that does
    not. *)
Lemma cache_post_bind_id_l {A B} g (c : Handler A) (k : A → Handler B) :
  cache_post id c → (∀ a, cache_post g (k a)) → cache_post g (c ≫= k).
Proof. intros Hc Hk. eapply cache_post_ext; [by apply cache_post_bind|done]. Qed.

Lemma cache_post_bind_id_r {A B} f (c : Handler A) (k : A → Handler B) :
  cache_post f c → (∀ a, cache_post id (k a)) → cache_post f (c ≫= k).
Proof. intros Hc Hk. eapply cache_post_ext; [by apply cache_post_bind|done]. Qed.

Lemma cache_post_get_session : cache_post id get_session.
Proof. by intros w a w' [= <- <-]. Qed.

Lemma cache_post_put_session d : cache_post id (put_session d).
Proof. by intros w a w' [= <- <-]. Qed.

Lemma cache_post_broadcast message : cache_post id (broadcast message).
Proof.
  intros w a w'. unfold broadcast.
  destruct (ConnectionManager.broadcast _ _ _ _). by intros [= <- <-].
Qed.

Lemma cache_post_purge pattern :
  cache_post (cache_delete_pattern pattern) (purge pattern).
Proof. by intros w a w' [= <- <-]. Qed.

Lemma cache_post_enum_or {E} (of_string : string → option E) dflt value :
  cache_post id (enum_or of_string dflt value).
Proof.
  unfold enum_or. destruct value as [v|]; [|apply cache_post_ret].
  case_bool_decide; [apply cache_post_ret|].
  destruct (of_string v); [apply cache_post_ret|apply cache_post_raise].
Qed.

Create HintDb cache_db discriminated.

Lemma cache_post_model_validate {Row} `{EqDecision Row} (loaded flushed : Row) :
  cache_post id (model_validate loaded flushed).
Proof.
  unfold model_validate. destruct (decide _);
    [apply cache_post_ret|apply cache_post_raise].
Qed.

#[local] Hint Resolve cache_post_ret cache_post_raise cache_post_get_session
  cache_post_put_session cache_post_broadcast cache_post_enum_or
  cache_post_model_validate : cache_db.

(** Splits a sequence of steps that all leave the cache alone. *)
Ltac cache_untouched :=
  repeat first
    [ progress eauto with cache_db
    | apply cache_post_bind_id_l; [|intros ?]
    | match goal with
      | |- cache_post _ (match ?x with _ => _ end) => destruct x
      | |- cache_post _ (if ?b then _ else _) => destruct b
      end ].

Lemma cache_post_new_task now data user :
  cache_post id (Tasks.new_task now data user).
Proof. unfold Tasks.new_task. cache_untouched. Qed.

Lemma cache_post_add_task k task : cache_post id (Tasks.add_task k task).
Proof. unfold Tasks.add_task. cache_untouched. Qed.

Lemma cache_post_flush_task k task : cache_post id (Tasks.flush_task k task).
Proof. unfold Tasks.flush_task. cache_untouched. Qed.

Lemma cache_post_check_assignee a : cache_post id (Tasks.check_assignee a).
Proof. unfold Tasks.check_assignee. cache_untouched. Qed.

Lemma cache_post_get_live_task k : cache_post id (Tasks.get_live_task k).
Proof. unfold Tasks.get_live_task. cache_untouched. Qed.

Lemma cache_post_apply_update data task :
  cache_post id (Tasks.apply_update data task).
Proof. unfold Tasks.apply_update. cache_untouched. Qed.

Lemma cache_post_bulk_add now uuid4 data user :
  cache_post id (Tasks.bulk_add now uuid4 data user).
Proof.
  revert uuid4. induction data as [|t data IH]; intros uuid4; cbn [Tasks.bulk_add].
  - apply cache_post_ret.
  - apply cache_post_bind_id_l; [apply cache_post_new_task|intros task].
    apply cache_post_bind_id_l; [apply cache_post_add_task|intros _].
    apply cache_post_bind_id_l; [apply IH|intros created].
    apply cache_post_ret.
Qed.

#[local] Hint Resolve cache_post_new_task cache_post_add_task
  cache_post_flush_task cache_post_check_assignee cache_post_get_live_task
  cache_post_apply_update cache_post_bulk_add : cache_db.

(** The tail shared by the task mutations: the two purges, then steps that
    leave the cache alone. *)
Lemma cache_post_purges {A} (rest : Handler A) :
  cache_post id rest →
  cache_post purge_listings (purge "tasks:*" ;; purge "analytics:*" ;; rest).
Proof.
  intros Hrest.
  eapply cache_post_ext.
  - apply cache_post_bind; [apply cache_post_purge|intros _].
    apply cache_post_bind; [apply cache_post_purge|intros _]. apply Hrest.
  - done.
Qed.

Variable render_markdown : string → string.

Lemma cache_post_fmap {A B} (f : A → B) g (h : Handler A) :
  cache_post g h → cache_post g (f <$> h).
Proof.
  intros Hh w b w'. unfold fmap, Handler_fmap.
  destruct (h w) as [e|[a w1]] eqn:Hw; [done|].
  intros [= <- <-]. by eapply Hh.
Qed.

Lemma cache_post_create_task now uuid4 data user :
  cache_post purge_listings (Tasks.create_task now uuid4 data user).
Proof.
  unfold Tasks.create_task.
  apply cache_post_bind_id_l; [apply cache_post_new_task|intros task].
  apply cache_post_bind_id_l; [apply cache_post_add_task|intros _].
  apply cache_post_purges. cache_untouched.
Qed.

Lemma cache_post_bulk_create_tasks now uuid4 data user :
  cache_post purge_listings (Tasks.bulk_create_tasks now uuid4 data user).
Proof.
  unfold Tasks.bulk_create_tasks.
  apply cache_post_bind_id_l; [apply cache_post_bulk_add|intros created].
  apply cache_post_purges. cache_untouched.
Qed.

Lemma cache_post_update_task task_id data :
  cache_post purge_listings (Tasks.update_task task_id data).
Proof.
  unfold Tasks.update_task.
  apply cache_post_bind_id_l; [apply cache_post_get_live_task|intros task].
  apply cache_post_bind_id_l; [apply cache_post_apply_update|intros task'].
  apply cache_post_bind_id_l; [apply cache_post_check_assignee|intros _].
  apply cache_post_bind_id_l; [apply cache_post_flush_task|intros _].
  apply cache_post_purges. cache_untouched.
Qed.

Lemma cache_post_delete_task task_id :
  cache_post purge_listings (Tasks.delete_task task_id).
Proof.
  unfold Tasks.delete_task.
  apply cache_post_bind_id_l; [apply cache_post_get_live_task|intros task].
  apply cache_post_bind_id_l; [apply cache_post_flush_task|intros _].
  apply cache_post_purges. cache_untouched.
Qed.

Lemma cache_post_put_comment k c : cache_post id (put_comment k c).
Proof. unfold put_comment. cache_untouched. Qed.

Lemma cache_post_get_own_comment task_id comment_id user :
  cache_post id (get_own_comment task_id comment_id user).
Proof. unfold get_own_comment. cache_untouched. Qed.

Lemma cache_post_add_comment k task_id content user name :
  cache_post id (add_comment render_markdown k task_id content user name).
Proof.
  unfold add_comment.
  pose proof cache_post_put_comment. cache_untouched.
Qed.

Lemma cache_post_update_comment task_id comment_id content user :
  cache_post id (update_comment render_markdown task_id comment_id content user).
Proof.
  unfold update_comment.
  pose proof cache_post_put_comment. pose proof cache_post_get_own_comment.
  cache_untouched.
Qed.

Lemma cache_post_delete_comment task_id comment_id user :
  cache_post id (delete_comment task_id comment_id user).
Proof.
  unfold delete_comment.
  pose proof cache_post_put_comment. pose proof cache_post_get_own_comment.
  cache_untouched.
Qed.

(** C7 (amended). Every task mutation that succeeds (create, bulk create,
    update, delete) purges the cache entries whose keys match the
    task-listing prefix and the analytics prefix, and leaves the other
    entries alone; a comment mutation (add, update, delete) leaves the
    whole cache as it was. *)
Theorem C7_task_mutations_purge ctx req w resp w' :
  route render_markdown ctx req w = inr (resp, w') →
  cache w'
  = (if is_task_mutation req then purge_listings (cache w) else cache w)
  ∧ ∀ key,
      purge_listings (cache w) !! key
      = if String.prefix "tasks:" key || String.prefix "analytics:" key
        then None else cache w !! key.
Proof.
  intros Hroute. split; [|intros key; apply purge_listings_lookup].
  revert Hroute. destruct req; cbn [route is_task_mutation]; intros Hroute.
  - eapply (cache_post_fmap TaskResponse), Hroute. apply cache_post_create_task.
  - eapply (cache_post_fmap TaskListResponse), Hroute.
    apply cache_post_bulk_create_tasks.
  - eapply (cache_post_fmap TaskResponse), Hroute. apply cache_post_update_task.
  - eapply cache_post_bind_id_r, Hroute;
      [apply cache_post_delete_task|intros ?; apply cache_post_ret].
  - eapply (cache_post_fmap CommentResponse id), Hroute.
    apply cache_post_add_comment.
  - eapply (cache_post_fmap CommentResponse id), Hroute.
    apply cache_post_update_comment.
  - eapply (cache_post_bind_id_r id), Hroute;
      [apply cache_post_delete_comment|intros ?; apply cache_post_ret].
Qed.
End CachePurge.

(** C7 as stated fails: after a comment is added, the cached task listing
    is still there. *)
Lemma C7_counterexample :
  ∃ resp w',
    route Sample.plain Sample.context (PostComment 1%N "any news?") Sample.world
    = inr (resp, w')
    ∧ String.prefix "tasks:" "tasks:10:1:10:None" = true
    ∧ cache w' !! "tasks:10:1:10:None" = Some "page one".
Proof.
  eexists _, _. split; [vm_compute; reflexivity|].
  split; vm_compute; reflexivity.
Qed.

(** C7 (amended) for the deletion of a task of the sample store. *)
Lemma C7_task_mutations_purge_witness :
  ∃ resp w',
    route Sample.plain Sample.context (DeleteTask 1%N) Sample.world
    = inr (resp, w')
    ∧ cache w' = purge_listings (cache Sample.world)
    ∧ ∀ key,
        purge_listings (cache Sample.world) !! key
        = if String.prefix "tasks:" key || String.prefix "analytics:" key
          then None else cache Sample.world !! key.
Proof.
  eexists _, _. split; [vm_compute; reflexivity|].
  eapply (C7_task_mutations_purge Sample.plain Sample.context (DeleteTask 1%N)
            Sample.world).
  vm_compute. reflexivity.
Defined.


(** ** Workers that run at the same time *)

Section Racing.
Import CeleryWorker Race.

Implicit Types (d : DB) (q : list Email) (evs pre : list Evaluator)
  (nows : list datetime) (k : uuid).

(** C3 as stated fails: two workers that both select before either commits
    both have task 1 among their rows, and two notifications are added
    for it. *)
Lemma C3_counterexample :
  let s := run [(0%nat, 200); (1%nat, 201); (0%nat, 200); (1%nat, 201)]
               (start 2 Sample.store []) in
  Task.status <$> tasks Sample.store !! 1%N = Some TODO
  ∧ Task.status <$> tasks (store s) !! 1%N = Some OVERDUE
  ∧ bool_decide (Forall (selected 1%N) (evaluators s)) = true
  ∧ length (evaluators s) = 2%nat
  ∧ length (overdue_notifications_of 1%N (notifications (store s))) = 2%nat.
Proof. vm_compute. repeat split; reflexivity. Qed.

Lemma insert_middle {A} (l1 l2 : list A) x y :
  <[length l1 := y]> (l1 ++ x :: l2) = l1 ++ y :: l2.
Proof.
  rewrite <- (Nat.add_0_r (length l1)) at 1. by rewrite insert_app_r.
Qed.

Lemma run_app s1 s2 s : run (s1 ++ s2) s = run s2 (run s1 s).
Proof. apply foldl_app. Qed.

Lemma run_one_select d q pre evs now :
  run [(length pre, now)] (mkSys d q (pre ++ Idle :: evs))
  = mkSys d q (pre ++ Selected (select_overdue now d) :: evs).
Proof.
  unfold run. cbn [foldl]. unfold step. cbn [evaluators fst snd store queue].
  rewrite list_lookup_middle by done. by rewrite insert_middle.
Qed.

Lemma run_one_commit d q pre evs rows now :
  run [(length pre, now)] (mkSys d q (pre ++ Selected rows :: evs))
  = let '(d', q', r) := process_selected rows d q in
    mkSys d' q' (pre ++ Finished rows r :: evs).
Proof.
  unfold run. cbn [foldl]. unfold step. cbn [evaluators fst snd store queue].
  rewrite list_lookup_middle by done.
  destruct (process_selected rows d q) as [[d' q'] r].
  by rewrite insert_middle.
Qed.

(** An idle evaluator that runs to its end does what one call of the
    worker does. *)
Lemma run_one_serial d q pre evs now :
  run [(length pre, now); (length pre, now)] (mkSys d q (pre ++ Idle :: evs))
  = let '(d', q', r) := process_task_overdue_check now d q in
    mkSys d' q' (pre ++ Finished (select_overdue now d) r :: evs).
Proof.
  change [(length pre, now); (length pre, now)]
    with ([(length pre, now)] ++ [(length pre, now)]).
  rewrite run_app, run_one_select, run_one_commit.
  done.
Qed.

Lemma snoc_cons {A} (l1 l2 : list A) x : (l1 ++ [x]) ++ l2 = l1 ++ x :: l2.
Proof. by rewrite <- app_assoc. Qed.

Lemma run_serial nows d q pre :
  run (serial (length pre) nows)
      (mkSys d q (pre ++ replicate (length nows) Idle))
  = let '(d', q', evs) := sweeps nows d q in mkSys d' q' (pre ++ evs).
Proof.
  revert d q pre. induction nows as [|now nows IH]; intros d q pre; [done|].
  change (serial (length pre) (now :: nows))
    with ([(length pre, now); (length pre, now)] ++ serial (S (length pre)) nows).
  cbn [length replicate sweeps].
  rewrite run_app, run_one_serial.
  destruct (process_task_overdue_check now d q) as [[d1 q1] r].
  specialize (IH d1 q1 (pre ++ [Finished (select_overdue now d) r])).
  rewrite length_app, Nat.add_1_r, snoc_cons in IH.
  rewrite IH. destruct (sweeps nows d1 q1) as [[d2 q2] evs].
  by rewrite snoc_cons.
Qed.

Lemma run_selects nows d q pre :
  run (selects (length pre) nows)
      (mkSys d q (pre ++ replicate (length nows) Idle))
  = mkSys d q (pre ++ ((λ now, Selected (select_overdue now d)) <$> nows)).
Proof.
  revert pre. induction nows as [|now nows IH]; intros pre; [done|].
  change (selects (length pre) (now :: nows))
    with ([(length pre, now)] ++ selects (S (length pre)) nows).
  cbn [length replicate fmap list_fmap].
  rewrite run_app, run_one_select.
  specialize (IH (pre ++ [Selected (select_overdue now d)])).
  rewrite length_app, Nat.add_1_r, snoc_cons in IH.
  rewrite IH. by rewrite snoc_cons.
Qed.

Lemma run_commits rowss d q pre :
  run (commits (length pre) (length rowss))
      (mkSys d q (pre ++ (Selected <$> rowss)))
  = let '(d', q', evs) := commit_all rowss d q in mkSys d' q' (pre ++ evs).
Proof.
  revert d q pre. induction rowss as [|rows rowss IH]; intros d q pre; [done|].
  change (commits (length pre) (length (rows :: rowss)))
    with ([(length pre, 0)] ++ commits (S (length pre)) (length rowss)).
  cbn [fmap list_fmap commit_all].
  rewrite run_app, run_one_commit.
  destruct (process_selected rows d q) as [[d1 q1] r].
  specialize (IH d1 q1 (pre ++ [Finished rows r])).
  rewrite length_app, Nat.add_1_r, snoc_cons in IH.
  rewrite IH. destruct (commit_all rowss d1 q1) as [[d2 q2] evs].
  by rewrite snoc_cons.
Qed.

(** What a commit does to task [k], whatever its status by then, when
    every notification it adds fits. *)
Lemma process_selected_commits rows d q :
  forallb row_fits rows = true →
  (process_selected rows d q).1.1 = mark_rows rows d.
Proof.
  intros Hfit. pose proof (process_selected_spec rows d q) as Hs.
  rewrite Hfit in Hs. by rewrite Hs.
Qed.

(** A task that is not among the rows of a commit is out of it, whether
    the commit goes through or not. *)
Lemma process_selected_other rows d q k :
  k ∉ rows.*1 →
  tasks (process_selected rows d q).1.1 !! k = tasks d !! k
  ∧ overdue_notifications_of k (notifications (process_selected rows d q).1.1)
    = overdue_notifications_of k (notifications d).
Proof.
  intros Hk. pose proof (process_selected_spec rows d q) as Hs.
  destruct (forallb row_fits rows).
  - rewrite Hs. cbn [fst].
    rewrite mark_rows_tasks_lookup, bool_decide_eq_false_2 by done.
    rewrite mark_rows_notifications, overdue_notifications_of_app.
    by rewrite rows_notifications_other, app_nil_r.
  - by destruct Hs as (sent & -> & _).
Qed.

Lemma commit_all_task rowss d q k t s0 :
  Forall (λ rows, NoDup rows.*1 ∧ (k, t) ∈ rows
                  ∧ forallb row_fits rows = true) rowss →
  Task.status <$> tasks d !! k = Some s0 →
  let '(d', _, evs) := commit_all rowss d q in
  Task.status <$> tasks d' !! k
  = Some (match rowss with [] => s0 | _ => OVERDUE end)
  ∧ Forall (selected k) evs ∧ length evs = length rowss
  ∧ overdue_notifications_of k (notifications d')
    = overdue_notifications_of k (notifications d)
      ++ mjoin (replicate (length rowss) (note_of k t)).
Proof.
  revert d q s0. induction rowss as [|rows rowss IH]; intros d q s0 Hall Hs.
  - cbn. by rewrite app_nil_r.
  - apply Forall_cons in Hall as [(Hnd & Hin & Hfit) Hall]. cbn [commit_all].
    pose proof (process_selected_commits rows d q Hfit) as Hd.
    destruct (process_selected rows d q) as [[d1 q1] r]. cbn [fst] in Hd.
    subst d1.
    assert (k ∈ rows.*1) as Hk.
    { apply list_elem_of_fmap. by exists (k, t). }
    assert (Task.status <$> tasks (mark_rows rows d) !! k = Some OVERDUE) as Hs1.
    { rewrite mark_rows_tasks_lookup, bool_decide_eq_true_2 by done.
      by destruct (tasks d !! k). }
    specialize (IH (mark_rows rows d) q1 OVERDUE Hall Hs1).
    destruct (commit_all rowss (mark_rows rows d) q1) as [[d2 q2] evs].
    destruct IH as (Hst & Hsel & Hlen & Hnote).
    split; [by destruct rowss|].
    split; [by apply Forall_cons|].
    split; [cbn; by rewrite Hlen|].
    rewrite Hnote, mark_rows_notifications, overdue_notifications_of_app.
    rewrite rows_notifications_selected with (t := t) by done.
    cbn. by rewrite <- app_assoc.
Qed.

(** A task that is OVERDUE already is out of every later run. *)
Lemma sweeps_overdue_task nows d q k :
  Task.status <$> tasks d !! k = Some OVERDUE →
  let '(d', _, evs) := sweeps nows d q in
  Task.status <$> tasks d' !! k = Some OVERDUE
  ∧ Forall (λ ev, ¬ selected k ev) evs
  ∧ overdue_notifications_of k (notifications d')
    = overdue_notifications_of k (notifications d).
Proof.
  revert d q. induction nows as [|now nows IH]; intros d q Hs; [done|].
  cbn [sweeps].
  assert (k ∉ (select_overdue now d).*1) as Hk.
  { intros (t & Ht & Hw)%select_overdue_keys. rewrite Ht in Hs.
    injection Hs as Hs. unfold overdue_where, status_open in Hw.
    rewrite Hs, bool_decide_eq_true_2, andb_false_r in Hw by set_solver. done. }
  pose proof (process_selected_other (select_overdue now d) d q k Hk) as [Ht Hn].
  fold (process_task_overdue_check now d q) in Ht, Hn.
  destruct (process_task_overdue_check now d q) as [[d1 q1] r]. cbn [fst] in Ht, Hn.
  rewrite <- Ht in Hs. specialize (IH d1 q1 Hs).
  destruct (sweeps nows d1 q1) as [[d2 q2] evs].
  destruct IH as (Hst & Hsel & Hnote).
  split; [done|]. split; [by apply Forall_cons|]. by rewrite Hnote.
Qed.

Lemma sweeps_eligible_task now nows d q k t :
  tasks d !! k = Some t → overdue_where now t = true →
  notifications_fit now d →
  let '(d', _, evs) := sweeps (now :: nows) d q in
  Task.status <$> tasks d' !! k = Some OVERDUE
  ∧ length (filter (selected k) evs) = 1%nat
  ∧ length evs = S (length nows)
  ∧ overdue_notifications_of k (notifications d')
    = overdue_notifications_of k (notifications d) ++ note_of k t.
Proof.
  intros Hk Hw Hfit. cbn [sweeps].
  assert ((k, t) ∈ select_overdue now d) as Hin by by apply elem_of_select_overdue.
  assert (k ∈ (select_overdue now d).*1) as Hkey.
  { apply list_elem_of_fmap. by exists (k, t). }
  rewrite (sweep_commits now d q Hfit).
  set (d1 := mark_rows (select_overdue now d) d).
  set (q1 := q ++ _).
  assert (Task.status <$> tasks d1 !! k = Some OVERDUE) as Hs1.
  { subst d1. rewrite marked_tasks_lookup, Hk. cbn. by rewrite Hw. }
  assert (overdue_notifications_of k (notifications d1)
          = overdue_notifications_of k (notifications d) ++ note_of k t) as Hn.
  { subst d1. rewrite mark_rows_notifications, overdue_notifications_of_app.
    by rewrite rows_notifications_selected with (t := t)
      by (done || apply NoDup_select_overdue). }
  pose proof (sweeps_overdue_task nows d1 q1 k Hs1) as Hrest.
  assert (length (sweeps nows d1 q1).2 = length nows) as Hlen.
  { clear. generalize d1 q1. clear.
    induction nows as [|n nows IH]; intros d1 q1; [done|].
    cbn [sweeps]. destruct (process_task_overdue_check n d1 q1) as [[d2 q2] r].
    specialize (IH d2 q2). destruct (sweeps nows d2 q2) as [[d3 q3] evs].
    cbn in *. by rewrite IH. }
  destruct (sweeps nows d1 q1) as [[d2 q2] evs]. cbn [snd] in Hlen.
  destruct Hrest as (Hst & Hsel & Hnote).
  split; [done|]. split; [|split; [cbn; by rewrite Hlen|by rewrite Hnote, Hn]].
  rewrite filter_cons_True by done. cbn. f_equal.
  apply length_zero_iff_nil. clear -Hsel.
  induction Hsel as [|ev evs Hev _ IH]; [done|].
  by rewrite filter_cons_False.
Qed.

Lemma filter_all {A} (P : A → Prop) `{!∀ x, Decision (P x)} (l : list A) :
  Forall P l → filter P l = l.
Proof.
  induction 1 as [|x l Hx _ IH]; [done|].
  rewrite filter_cons_True by done. by rewrite IH.
Qed.

(** C3 (amended). The worker makes no conditional update: a worker writes
    OVERDUE to every task it selected and, for a task with
    [notify_overdue], adds its own notification, whatever the status of
    the task is by the time it commits.  So, the runs being such that
    every notification they add fits its column: when N workers run one
    after another on an overdue-eligible task, exactly one of them
    selects the task, the task becomes OVERDUE and at most one
    notification is added; and when the N workers all select before any
    of them commits, every one of them has selected the task, the task
    becomes OVERDUE and, if it has [notify_overdue], N notifications are
    added. *)
Theorem C3_no_conditional_update nows d q k t :
  tasks d !! k = Some t →
  nows ≠ [] →
  Forall (λ now, overdue_where now t = true) nows →
  Forall (λ now, notifications_fit now d) nows →
  let s1 := run (serial 0 nows) (start (length nows) d q) in
  let s2 := run (overlapped nows) (start (length nows) d q) in
  (Task.status <$> tasks (store s1) !! k = Some OVERDUE
   ∧ length (evaluators s1) = length nows
   ∧ length (filter (selected k) (evaluators s1)) = 1%nat
   ∧ overdue_notifications_of k (notifications (store s1))
     = overdue_notifications_of k (notifications d) ++ note_of k t)
  ∧ (Task.status <$> tasks (store s2) !! k = Some OVERDUE
     ∧ length (evaluators s2) = length nows
     ∧ length (filter (selected k) (evaluators s2)) = length nows
     ∧ overdue_notifications_of k (notifications (store s2))
       = overdue_notifications_of k (notifications d)
         ++ mjoin (replicate (length nows) (note_of k t))).
Proof.
  intros Hk Hne Hall Hfit s1 s2. split.
  - subst s1 s2. unfold start.
    pose proof (run_serial nows d q []) as Hrun. cbn [app length] in Hrun.
    rewrite Hrun. clear Hrun.
    destruct nows as [|now nows]; [done|].
    apply Forall_cons in Hall as [Hw _]. apply Forall_cons in Hfit as [Hfit _].
    pose proof (sweeps_eligible_task now nows d q k t Hk Hw Hfit) as Hsw.
    destruct (sweeps (now :: nows) d q) as [[d' q'] evs].
    cbn [store evaluators length]. tauto.
  - subst s1 s2. unfold start, overlapped. rewrite run_app.
    pose proof (run_selects nows d q []) as Hsel. cbn [app length] in Hsel.
    rewrite Hsel. clear Hsel.
    set (rowss := (λ now, select_overdue now d) <$> nows).
    assert (((λ now, Selected (select_overdue now d)) <$> nows)
            = Selected <$> rowss) as ->.
    { subst rowss. by rewrite <- list_fmap_compose. }
    assert (length nows = length rowss) as Hlen.
    { subst rowss. by rewrite length_fmap. }
    rewrite Hlen.
    pose proof (run_commits rowss d q []) as Hrun. cbn [app length] in Hrun.
    rewrite Hrun. clear Hrun.
    assert (Forall (λ rows, NoDup rows.*1 ∧ (k, t) ∈ rows
                            ∧ forallb row_fits rows = true) rowss) as Hrows.
    { subst rowss. apply Forall_fmap, Forall_forall. intros now Hin. cbn.
      rewrite Forall_forall in Hall, Hfit.
      split; [apply NoDup_select_overdue|]. split; [|by apply Hfit].
      apply elem_of_select_overdue. split; [done|]. by apply Hall. }
    assert (Task.status <$> tasks d !! k = Some (Task.status t)) as Hs
      by by rewrite Hk.
    pose proof (commit_all_task rowss d q k t _ Hrows Hs) as Hc.
    destruct (commit_all rowss d q) as [[d' q'] evs].
    cbn [store evaluators]. destruct Hc as (Hst & Hsel & Hlen' & Hnote).
    split; [|split; [done|split; [|done]]].
    + destruct rowss; [|done]. destruct nows; done.
    + by rewrite filter_all.
Qed.

(** C3 (amended) for three workers on the sample store. *)
Lemma C3_no_conditional_update_witness :
  let nows := [200; 201; 202] in
  let s1 := run (serial 0 nows) (start 3 Sample.store []) in
  let s2 := run (overlapped nows) (start 3 Sample.store []) in
  (Task.status <$> tasks (store s1) !! 1%N = Some OVERDUE
   ∧ length (evaluators s1) = 3%nat
   ∧ length (filter (selected 1%N) (evaluators s1)) = 1%nat
   ∧ overdue_notifications_of 1%N (notifications (store s1))
     = overdue_notifications_of 1%N (notifications Sample.store)
       ++ note_of 1%N Sample.report)
  ∧ (Task.status <$> tasks (store s2) !! 1%N = Some OVERDUE
     ∧ length (evaluators s2) = 3%nat
     ∧ length (filter (selected 1%N) (evaluators s2)) = 3%nat
     ∧ overdue_notifications_of 1%N (notifications (store s2))
       = overdue_notifications_of 1%N (notifications Sample.store)
         ++ mjoin (replicate 3 (note_of 1%N Sample.report))).
Proof.
  apply (C3_no_conditional_update [200; 201; 202] Sample.store [] 1%N
           Sample.report).
  - reflexivity.
  - discriminate.
  - repeat constructor.
  - repeat constructor; vm_compute; reflexivity.
Defined.
End Racing.


(** * Further properties of the code *)

(** ** The three evaluation sites together *)

(** Settles a goal about membership of a status in a list of statuses,
    from such a hypothesis or outright. *)
Ltac status_cases :=
  first
    [ by apply (bool_decide_unpack _)
    | match goal with
      | H : _ ∈ _ |- _ =>
          apply (bool_decide_pack _) in H; vm_compute in H; by destruct H
      | H : ¬ _ |- _ => destruct H; by apply (bool_decide_unpack _)
      end ].

Section EvaluationSites.
Import CeleryWorker.

Implicit Types (d : DB) (q : list Email) (k : uuid) (t : Task.t).

Lemma status_open_spec t :
  status_open t = true ↔ Task.status t ∈ [TODO; IN_PROGRESS].
Proof.
  unfold status_open. rewrite negb_true_iff, bool_decide_eq_false.
  destruct (Task.status t); split; intros H; status_cases.
Qed.

Lemma overdue_where_spec now t :
  overdue_where now t = true
  ↔ due_before now t = true ∧ Task.status t ∈ [TODO; IN_PROGRESS]
    ∧ Task.is_deleted t = false.
Proof.
  unfold overdue_where. rewrite !andb_true_iff, negb_true_iff, status_open_spec.
  tauto.
Qed.

Lemma in_progress_where_spec now t :
  in_progress_where now t = true
  ↔ started_by now t = true ∧ Task.status t = TODO ∧ Task.is_deleted t = false.
Proof.
  unfold in_progress_where.
  rewrite !andb_true_iff, negb_true_iff, bool_decide_eq_true. tauto.
Qed.

Lemma sweep_row_step now t :
  evaluation_step t (if overdue_where now t then Task.set_status OVERDUE t else t).
Proof.
  destruct (overdue_where now t) eqn:Hw; [|by left].
  apply overdue_where_spec in Hw as (_ & Hs & Hdel). right. right. done.
Qed.

Lemma evaluate_row_step now t : evaluation_step t (evaluate_row now t).
Proof.
  unfold evaluate_row. destruct (overdue_where now t) eqn:Hw.
  - assert (in_progress_where now (Task.set_status OVERDUE t) = false) as ->.
    { apply not_true_iff_false. by intros (_ & [=] & _)%in_progress_where_spec. }
    pose proof (sweep_row_step now t) as Hstep. by rewrite Hw in Hstep.
  - destruct (in_progress_where now t) eqn:Hp; [|by left].
    apply in_progress_where_spec in Hp as (_ & Hs & Hdel). right. left. done.
Qed.

(** An evaluated row is out of both WHERE clauses. *)
Lemma evaluate_row_settled now t :
  overdue_where now (evaluate_row now t) = false
  ∧ in_progress_where now (evaluate_row now t) = false.
Proof.
  unfold evaluate_row. destruct (overdue_where now t) eqn:Hw.
  - assert (in_progress_where now (Task.set_status OVERDUE t) = false) as Hp.
    { apply not_true_iff_false. by intros (_ & [=] & _)%in_progress_where_spec. }
    rewrite Hp. split; [apply overdue_where_set_overdue|done].
  - destruct (in_progress_where now t) eqn:Hp.
    + split; apply not_true_iff_false.
      * intros (Hdue & _ & _)%overdue_where_spec.
        apply in_progress_where_spec in Hp as (_ & Hs & Hdel).
        assert (overdue_where now t = true); [|congruence].
        apply overdue_where_spec. split; [done|]. split; [|done].
        rewrite Hs. apply list_elem_of_here.
      * by intros (_ & [=] & _)%in_progress_where_spec.
    + by rewrite Hw, Hp.
Qed.

Lemma DB_eq d d' :
  tasks d = tasks d' → users d = users d' → comments d = comments d' →
  notifications d = notifications d' → d = d'.
Proof. destruct d, d'. cbn. by intros -> -> -> ->. Qed.

Lemma bulk_update_status_settled w s d :
  (∀ k t, tasks d !! k = Some t → w t = false) → bulk_update_status w s d = d.
Proof.
  intros Hw. apply DB_eq; try done. cbn. apply map_eq. intros k.
  rewrite lookup_fmap. destruct (tasks d !! k) as [t|] eqn:Hk; [|done].
  cbn. by rewrite (Hw k t Hk).
Qed.

Lemma select_overdue_settled now d :
  (∀ k t, tasks d !! k = Some t → overdue_where now t = false) →
  select_overdue now d = [].
Proof.
  intros Hw. unfold select_overdue.
  apply map_to_list_empty_iff, map_empty. intros k.
  apply map_lookup_filter_None. right. intros t Hk. cbn.
  by rewrite (Hw k t Hk).
Qed.


Lemma lifespan_settled now d q :
  select_overdue now d = [] →
  Main.lifespan now d q
  = (bulk_update_status (in_progress_where now) IN_PROGRESS d, q).
Proof. intros Hsel. unfold Main.lifespan. by rewrite Hsel. Qed.

(** X2. An evaluation pass is idempotent on the store: the start-up pass
    run again at the same [now] on the store it left leaves that store,
    and so does the overview's pass.  When the first start-up pass
    committed, the second sends no mail either. *)
Theorem X2_evaluation_pass_idempotent now d q q' :
  (Main.lifespan now (Main.lifespan now d q).1 q').1 = (Main.lifespan now d q).1
  ∧ (notifications_fit now d →
     Main.lifespan now (Main.lifespan now d q).1 (Main.lifespan now d q).2
     = Main.lifespan now d q)
  ∧ Analytics.get_overview_transitions now
      (Analytics.get_overview_transitions now d)
    = Analytics.get_overview_transitions now d.
Proof.
  assert (notifications_fit now d → ∀ q0,
            Main.lifespan now (Main.lifespan now d q).1 q0
            = ((Main.lifespan now d q).1, q0)) as Hagain.
  { intros Hfit q0. set (r := Main.lifespan now d q).
    assert (∀ k t, tasks r.1 !! k = Some t →
                   overdue_where now t = false ∧ in_progress_where now t = false)
      as Hsettled.
    { intros k t. subst r. rewrite lifespan_tasks_lookup, decide_True by done.
      destruct (tasks d !! k) as [t0|]; [|done]. intros [= <-].
      apply evaluate_row_settled. }
    rewrite lifespan_settled
      by (apply select_overdue_settled; intros k t Hk; by apply (Hsettled k t)).
    by rewrite bulk_update_status_settled
      by (intros k t Hk; by apply (Hsettled k t)). }
  split; [|split].
  - destruct (decide (notifications_fit now d)) as [Hfit|Hfit].
    + by rewrite Hagain.
    + destruct (lifespan_abandoned now d q Hfit) as (sent & -> & _). cbn [fst].
      by destruct (lifespan_abandoned now d q' Hfit) as (sent' & -> & _).
  - intros Hfit. rewrite Hagain by done. by destruct (Main.lifespan now d q).
  - set (d1 := Analytics.get_overview_transitions now d).
    assert (∀ k t, tasks d1 !! k = Some t →
                   overdue_where now t = false ∧ in_progress_where now t = false)
      as Hsettled.
    { intros k t. subst d1. rewrite get_overview_transitions_lookup.
      destruct (tasks d !! k) as [t0|]; [|done]. intros [= <-].
      apply evaluate_row_settled. }
    unfold Analytics.get_overview_transitions at 1.
    rewrite (bulk_update_status_settled (overdue_where now))
      by (intros k t Hk; by apply (Hsettled k t)).
    apply bulk_update_status_settled. intros k t Hk. by apply (Hsettled k t).
Qed.

Lemma evaluation_step_refl_lookup (m : gmap uuid Task.t) k :
  option_Forall2 evaluation_step (m !! k) (m !! k).
Proof. destruct (m !! k); constructor. by left. Qed.

(** X3. None of the three evaluation sites adds or removes a task row, and
    each changes nothing of a row but its status, along TODO ->
    IN_PROGRESS or TODO/IN_PROGRESS -> OVERDUE only, and only on a row that
    is not deleted; so COMPLETED, OVERDUE and deleted rows stay as they
    are.  Users and comments are untouched. *)
Theorem X3_evaluation_steps now d q k :
  option_Forall2 evaluation_step
    (tasks d !! k) (tasks (process_task_overdue_check now d q).1.1 !! k)
  ∧ option_Forall2 evaluation_step
      (tasks d !! k) (tasks (Main.lifespan now d q).1 !! k)
  ∧ option_Forall2 evaluation_step
      (tasks d !! k) (tasks (Analytics.get_overview_transitions now d) !! k)
  ∧ (∀ t t', evaluation_step t t' →
       Task.status t ∈ [COMPLETED; OVERDUE] ∨ Task.is_deleted t = true →
       t' = t)
  ∧ users (process_task_overdue_check now d q).1.1 = users d
  ∧ comments (process_task_overdue_check now d q).1.1 = comments d
  ∧ users (Main.lifespan now d q).1 = users d
  ∧ comments (Main.lifespan now d q).1 = comments d.
Proof.
  split; [|split; [|split; [|split; [|split; [|split; [|split]]]]]].
  - rewrite sweep_tasks_lookup.
    destruct (decide (notifications_fit now d)) as [Hfit|Hfit];
      [|apply evaluation_step_refl_lookup].
    destruct (tasks d !! k) as [t|]; constructor. apply sweep_row_step.
  - rewrite lifespan_tasks_lookup.
    destruct (decide (notifications_fit now d)) as [Hfit|Hfit];
      [|apply evaluation_step_refl_lookup].
    destruct (tasks d !! k) as [t|]; constructor. apply evaluate_row_step.
  - rewrite get_overview_transitions_lookup.
    destruct (tasks d !! k) as [t|]; constructor. apply evaluate_row_step.
  - intros t t' [->|[(Hs & Hdel & _)|(Hs & Hdel & _)]] Hclosed; [done|..].
    + destruct Hclosed as [Hc|Hc]; [|congruence].
      rewrite Hs in Hc. status_cases.
    + destruct Hclosed as [Hc|Hc]; [|congruence].
      destruct (Task.status t); clear -Hs Hc; first [clear Hc; status_cases|clear Hs; status_cases].
  - destruct (decide (notifications_fit now d)) as [Hfit|Hfit].
    + rewrite sweep_commits by done. apply mark_rows_users.
    + by destruct (sweep_raises now d q Hfit) as (sent & -> & _).
  - destruct (decide (notifications_fit now d)) as [Hfit|Hfit].
    + rewrite sweep_commits by done. apply mark_rows_users.
    + by destruct (sweep_raises now d q Hfit) as (sent & -> & _).
  - destruct (decide (notifications_fit now d)) as [Hfit|Hfit].
    + rewrite lifespan_commits by done. apply mark_rows_users.
    + by destruct (lifespan_abandoned now d q Hfit) as (sent & -> & _).
  - destruct (decide (notifications_fit now d)) as [Hfit|Hfit].
    + rewrite lifespan_commits by done. apply mark_rows_users.
    + by destruct (lifespan_abandoned now d q Hfit) as (sent & -> & _).
Qed.
End EvaluationSites.

(** Unfolds the plumbing of the handler monad. *)
Ltac handler_unfold :=
  unfold mbind, Handler_bind, mret, Handler_ret, fmap, Handler_fmap, raise,
    get_session, put_session, purge, broadcast in *;
  cbn [session cache manager net fst snd ConnectionManager.broadcast] in *.

Section TaskHandlers.
Import Schemas.

Implicit Types (w : World) (d : DB) (k : uuid).

Lemma get_live_task_spec k w task w' :
  Tasks.get_live_task k w = inr (task, w')
  ↔ w' = w ∧ tasks (session w) !! k = Some task ∧ Task.is_deleted task = false.
Proof.
  unfold Tasks.get_live_task. handler_unfold.
  destruct (tasks (session w) !! k) as [t|]; [|by split; [|intros (_ & [=] & _)]].
  destruct (Task.is_deleted t) eqn:Hdel; split.
  - done.
  - intros (_ & [= ->] & Hd). congruence.
  - by intros [= <- <-].
  - by intros (-> & [= ->] & _).
Qed.

Lemma get_live_task_404 k w :
  (∀ task, tasks (session w) !! k = Some task → Task.is_deleted task = true) →
  Tasks.get_live_task k w = inl (HTTPException 404 "Task not found").
Proof.
  intros Hgone. unfold Tasks.get_live_task. handler_unfold.
  destruct (tasks (session w) !! k) as [t|] eqn:Hk; [|done].
  by rewrite (Hgone t).
Qed.


Lemma model_validate_spec {Row} `{EqDecision Row} (loaded flushed : Row) w :
  model_validate loaded flushed w
  = if decide (flushed = loaded) then inr (flushed, w) else inl MissingGreenlet.
Proof. unfold model_validate. by destruct (decide _). Qed.


Lemma delete_task_spec k w w' :
  Tasks.delete_task k w = inr ((), w') →
  ∃ task,
    tasks (session w) !! k = Some task ∧ Task.is_deleted task = false
    ∧ session w'
      = mkDB (<[k := Task.set_deleted task]> (tasks (session w)))
             (users (session w)) (comments (session w))
             (notifications (session w))
    ∧ manager w' = manager w.
Proof.
  unfold Tasks.delete_task, mbind at 1, Handler_bind at 1.
  destruct (Tasks.get_live_task k w) as [e|[task w1]] eqn:Hget; [done|].
  apply get_live_task_spec in Hget as (-> & Hk & Hdel).
  unfold Tasks.flush_task. handler_unfold.
  intros [= <-]. exists task. done.
Qed.
Lemma closed_not_selected now t :
  Task.status t ∈ [COMPLETED; OVERDUE] ∨ Task.is_deleted t = true →
  overdue_where now t = false.
Proof.
  intros Hclosed. apply not_true_iff_false.
  intros (_ & Hs & Hdel)%overdue_where_spec.
  destruct Hclosed as [Hc|Hc]; [|congruence].
  destruct (Task.status t); clear -Hs Hc;
    first [clear Hc; status_cases|clear Hs; status_cases].
Qed.


(** A row that is closed or deleted is out of every later run of the
    worker, and no notification is added for it. *)
Lemma sweeps_closed_task nows d q k t :
  tasks d !! k = Some t →
  Task.status t ∈ [COMPLETED; OVERDUE] ∨ Task.is_deleted t = true →
  let '(d', _, _) := Race.sweeps nows d q in
  tasks d' !! k = Some t
  ∧ overdue_notifications_of k (notifications d')
    = overdue_notifications_of k (notifications d).
Proof.
  revert d q. induction nows as [|now nows IH]; intros d q Hk Hclosed; [done|].
  cbn [Race.sweeps].
  pose proof (closed_not_selected now t Hclosed) as Hw.
  assert (k ∉ (select_overdue now d).*1) as Hsel.
  { intros (t' & Ht' & Hw')%select_overdue_keys. congruence. }
  pose proof (process_selected_other (select_overdue now d) d q k Hsel)
    as [Ht Hn].
  fold (CeleryWorker.process_task_overdue_check now d q) in Ht, Hn.
  destruct (CeleryWorker.process_task_overdue_check now d q) as [[d1 q1] r].
  cbn [fst] in Ht, Hn.
  rewrite Hk in Ht.
  specialize (IH d1 q1 Ht Hclosed).
  destruct (Race.sweeps nows d1 q1) as [[d2 q2] evs].
  destruct IH as [Hrow Hnote]. split; [done|]. by rewrite Hnote.
Qed.

(** X4. The analytics overview marks a past-due task OVERDUE without a
    notification, and no later run of the worker, at whatever times, adds
    one for it: a task the overview reached first is never announced. *)
Theorem X4_overview_preempts_notification now d k t nows q :
  tasks d !! k = Some t →
  overdue_where now t = true →
  let d1 := Analytics.get_overview_transitions now d in
  Task.status <$> tasks d1 !! k = Some OVERDUE
  ∧ notifications d1 = notifications d
  ∧ let '(d2, _, _) := Race.sweeps nows d1 q in
    Task.status <$> tasks d2 !! k = Some OVERDUE
    ∧ overdue_notifications_of k (notifications d2)
      = overdue_notifications_of k (notifications d).
Proof.
  intros Hk Hw d1.
  assert (tasks d1 !! k = Some (Task.set_status OVERDUE t)) as Hk1.
  { subst d1. rewrite get_overview_transitions_lookup, Hk. cbn.
    unfold evaluate_row. rewrite Hw.
    assert (in_progress_where now (Task.set_status OVERDUE t) = false) as ->;
      [|done].
    apply not_true_iff_false. by intros (_ & [=] & _)%in_progress_where_spec. }
  split; [by rewrite Hk1|]. split; [done|].
  pose proof (sweeps_closed_task nows d1 q k _ Hk1) as Hlater.
  destruct (Race.sweeps nows d1 q) as [[d2 q2] evs].
  destruct Hlater as [Hrow Hnote]; [left; cbn; status_cases|].
  split; [by rewrite Hrow|done].
Qed.

(** X4 on the sample store: the report, were the overview to reach it
    before the worker. *)
Lemma X4_overview_preempts_notification_witness :
  let d1 := Analytics.get_overview_transitions Sample.now Sample.store in
  Task.status <$> tasks d1 !! 1%N = Some OVERDUE
  ∧ notifications d1 = notifications Sample.store
  ∧ let '(d2, _, _) := Race.sweeps [200; 300] d1 [] in
    Task.status <$> tasks d2 !! 1%N = Some OVERDUE
    ∧ overdue_notifications_of 1%N (notifications d2)
      = overdue_notifications_of 1%N (notifications Sample.store).
Proof.
  apply (X4_overview_preempts_notification Sample.now Sample.store 1%N
           Sample.report [200; 300] []); reflexivity.
Defined.

Lemma TaskStatus_of_string_completed s :
  TaskStatus_of_string s = Some COMPLETED → s = "completed".
Proof.
  unfold TaskStatus_of_string. repeat case_bool_decide; intros [=]; done.
Qed.

Lemma create_task_spec now k data user w task w' :
  Tasks.create_task now k data user w = inr (task, w') →
  Tasks.new_task now data user w = inr (task, w)
  ∧ tasks (session w) !! k = None
  ∧ Tasks.assignee_exists (session w) (Task.assigned_to task) = true
  ∧ session w'
    = mkDB (<[k := task]> (tasks (session w))) (users (session w))
           (comments (session w)) (notifications (session w))
  ∧ manager w' = manager w.
Proof.
  unfold Tasks.create_task, mbind at 1, Handler_bind at 1.
  destruct (Tasks.new_task now data user w) as [e|[task1 w1]] eqn:Hnew; [done|].
  apply new_task_spec in Hnew as Hpure. destruct Hpure as [-> _].
  unfold Tasks.add_task. handler_unfold.
  destruct (tasks (session w) !! k) as [old|] eqn:Hk.
  { rewrite bool_decide_eq_true_2 by done. done. }
  rewrite bool_decide_eq_false_2 by (by intros [? ?]). cbn [orb].
  destruct (Tasks.assignee_exists (session w) (Task.assigned_to task1)) eqn:Hfk;
    [|done].
  cbn. intros [= <- <-]. done.
Qed.

(** X5. A task created with a due date already past is stored OVERDUE at
    once (COMPLETED if it was requested as completed), without any
    notification, and no later run of the worker adds one for it. *)
Theorem X5_created_past_due_never_announced
    now k data user w task w' due nows q :
  Tasks.create_task now k data user w = inr (task, w') →
  Schemas.due_date data = Some due → due < now →
  (Task.status task = OVERDUE
   ∨ (Schemas.status data = Some "completed" ∧ Task.status task = COMPLETED))
  ∧ tasks (session w') !! k = Some task
  ∧ notifications (session w') = notifications (session w)
  ∧ let '(d2, _, _) := Race.sweeps nows (session w') q in
    tasks d2 !! k = Some task
    ∧ overdue_notifications_of k (notifications d2)
      = overdue_notifications_of k (notifications (session w)).
Proof.
  intros Hcreate Hdue Hlt.
  apply create_task_spec in Hcreate as (Hnew & Hfresh & _ & Hsession & _).
  assert (Task.status task = OVERDUE
          ∨ Schemas.status data = Some "completed"
            ∧ Task.status task = COMPLETED) as Hstatus.
  { revert Hnew. unfold Tasks.new_task, mbind, Handler_bind.
    destruct (enum_or TaskStatus_of_string TODO (Schemas.status data) w)
      as [e|[requested w1]] eqn:Hs; [done|].
    destruct (enum_or TaskPriority_of_string MEDIUM (Schemas.priority data) w1)
      as [e|[priority w2]]; [done|].
    intros [= <- _]. cbn. unfold Tasks.auto_transition. rewrite Hdue.
    rewrite (bool_decide_eq_true_2 (due < now)) by done.
    rewrite (bool_decide_eq_false_2 (due >= now)) by lia. cbn [andb].
    destruct requested; cbn; try (by left).
    right. split; [|done]. revert Hs. unfold enum_or.
    destruct (Schemas.status data) as [v|]; [|done].
    case_bool_decide; [done|].
    destruct (TaskStatus_of_string v) as [st|] eqn:Hv; [|done].
    intros [= -> _]. by rewrite (TaskStatus_of_string_completed v Hv). }
  assert (tasks (session w') !! k = Some task) as Hk.
  { rewrite Hsession. cbn. apply lookup_insert_eq. }
  split; [done|]. split; [done|]. split; [by rewrite Hsession|].
  pose proof (sweeps_closed_task nows (session w') q k task Hk) as Hlater.
  destruct (Race.sweeps nows (session w') q) as [[d2 q2] evs].
  destruct Hlater as [Hrow Hnote].
  { left. destruct Hstatus as [->|[_ ->]]; status_cases. }
  split; [done|]. rewrite Hnote. by rewrite Hsession.
Qed.

(** X5 for a late task created in the sample world. *)
Lemma X5_created_past_due_never_announced_witness :
  ∃ task w',
    Tasks.create_task Sample.now 6%N Sample2.late 10%N Sample.world
    = inr (task, w')
    ∧ (Task.status task = OVERDUE
       ∨ (Schemas.status Sample2.late = Some "completed"
          ∧ Task.status task = COMPLETED))
    ∧ tasks (session w') !! 6%N = Some task
    ∧ notifications (session w') = notifications (session Sample.world)
    ∧ let '(d2, _, _) := Race.sweeps [300; 400] (session w') [] in
      tasks d2 !! 6%N = Some task
      ∧ overdue_notifications_of 6%N (notifications d2)
        = overdue_notifications_of 6%N (notifications (session Sample.world)).
Proof.
  eexists _, _. split; [vm_compute; reflexivity|].
  eapply (X5_created_past_due_never_announced Sample.now 6%N Sample2.late 10%N
            Sample.world _ _ 100 [300; 400] []).
  - vm_compute. reflexivity.
  - reflexivity.
  - reflexivity.
Defined.
Lemma evaluate_row_closed now t :
  Task.status t ∈ [COMPLETED; OVERDUE] ∨ Task.is_deleted t = true →
  evaluate_row now t = t.
Proof.
  intros Hclosed. unfold evaluate_row.
  rewrite (closed_not_selected now t Hclosed).
  assert (in_progress_where now t = false) as ->; [|done].
  apply not_true_iff_false. intros (_ & Hs & Hdel)%in_progress_where_spec.
  destruct Hclosed as [Hc|Hc]; [|congruence]. rewrite Hs in Hc. status_cases.
Qed.

(** A handler that starts by fetching a task that is missing or deleted
    answers 404. *)
Lemma bind_get_live_task_404 {A} k w (rest : Task.t → Handler A) :
  (∀ task, tasks (session w) !! k = Some task → Task.is_deleted task = true) →
  (Tasks.get_live_task k ≫= rest) w = inl (HTTPException 404 "Task not found").
Proof.
  intros Hgone. unfold mbind, Handler_bind. by rewrite get_live_task_404.
Qed.





(** X8. [delete_task] is a soft delete: the row stays, with its deletion
    flag set and everything else as it was, and no other row changes.
    From then on [get_task], [update_task], [delete_task] and
    [add_comment] answer 404 for it, and the worker leaves it alone. *)
Theorem X8_delete_task_soft k w w' :
  Tasks.delete_task k w = inr ((), w') →
  ∃ task,
    tasks (session w) !! k = Some task
    ∧ tasks (session w') !! k = Some (Task.set_deleted task)
    ∧ (∀ k', k' ≠ k → tasks (session w') !! k' = tasks (session w) !! k')
    ∧ TaskRoutes.get_task k w' = inl (HTTPException 404 "Task not found")
    ∧ (∀ data, Tasks.update_task k data w'
               = inl (HTTPException 404 "Task not found"))
    ∧ Tasks.delete_task k w' = inl (HTTPException 404 "Task not found")
    ∧ (∀ render uuid4 content user name,
         add_comment render uuid4 k content user name w'
         = inl (HTTPException 404 "Task not found"))
    ∧ (∀ now q,
         tasks (CeleryWorker.process_task_overdue_check now (session w') q).1.1
           !! k
         = Some (Task.set_deleted task)).
Proof.
  intros Hdel.
  apply delete_task_spec in Hdel as (task & Hk & Hlive & Hsession & _).
  exists task.
  assert (tasks (session w') !! k = Some (Task.set_deleted task)) as Hk'.
  { rewrite Hsession. cbn. apply lookup_insert_eq. }
  assert (∀ t, tasks (session w') !! k = Some t → Task.is_deleted t = true)
    as Hgone.
  { intros t. rewrite Hk'. by intros [= <-]. }
  split; [done|]. split; [done|].
  split; [intros k' Hne; rewrite Hsession; cbn; by apply lookup_insert_ne|].
  split; [by apply get_live_task_404|].
  split; [intros data; by apply bind_get_live_task_404|].
  split; [by apply bind_get_live_task_404|].
  split; [intros render uuid4 content user name; by apply bind_get_live_task_404|].
  intros now q. rewrite sweep_tasks_lookup, Hk'.
  destruct (decide (notifications_fit now (session w'))); [|done]. cbn.
  rewrite closed_not_selected; [done|]. by right.
Qed.

(** X8 for the deletion of the report in the sample world. *)
Lemma X8_delete_task_soft_witness :
  ∃ w',
    Tasks.delete_task 1%N Sample.world = inr ((), w')
    ∧ ∃ task,
        tasks (session Sample.world) !! 1%N = Some task
        ∧ tasks (session w') !! 1%N = Some (Task.set_deleted task)
        ∧ (∀ k', k' ≠ 1%N →
             tasks (session w') !! k' = tasks (session Sample.world) !! k')
        ∧ TaskRoutes.get_task 1%N w' = inl (HTTPException 404 "Task not found")
        ∧ (∀ data, Tasks.update_task 1%N data w'
                   = inl (HTTPException 404 "Task not found"))
        ∧ Tasks.delete_task 1%N w' = inl (HTTPException 404 "Task not found")
        ∧ (∀ render uuid4 content user name,
             add_comment render uuid4 1%N content user name w'
             = inl (HTTPException 404 "Task not found"))
        ∧ (∀ now q,
             tasks (CeleryWorker.process_task_overdue_check now (session w') q).1.1
               !! 1%N
             = Some (Task.set_deleted task)).
Proof.
  eexists. split; [vm_compute; reflexivity|].
  apply (X8_delete_task_soft 1%N Sample.world).
  vm_compute. reflexivity.
Defined.

(** X9. [create_task] never overwrites: it succeeds only under a key no
    task has yet and with an assignee who exists, and leaves every other
    row as it was.  The task it returns is live, belongs to the caller,
    and is what [get_task] returns for the key afterwards. *)
Theorem X9_create_then_get now k data user w task w' :
  Tasks.create_task now k data user w = inr (task, w') →
  tasks (session w) !! k = None
  ∧ Tasks.assignee_exists (session w) (Schemas.assigned_to data) = true
  ∧ TaskRoutes.get_task k w' = inr (task, w')
  ∧ Task.is_deleted task = false
  ∧ Task.created_by task = user
  ∧ Task.title task = Schemas.title data
  ∧ (∀ k', k' ≠ k → tasks (session w') !! k' = tasks (session w) !! k').
Proof.
  intros Hcreate.
  apply create_task_spec in Hcreate as (Hnew & Hfresh & Hfk & Hsession & _).
  assert (Task.is_deleted task = false ∧ Task.created_by task = user
          ∧ Task.title task = Schemas.title data
          ∧ Task.assigned_to task = Schemas.assigned_to data) as (Hd & Hc & Ht & Ha).
  { revert Hnew. unfold Tasks.new_task, mbind, Handler_bind.
    destruct (enum_or TaskStatus_of_string TODO (Schemas.status data) w)
      as [e|[requested w1]]; [done|].
    destruct (enum_or TaskPriority_of_string MEDIUM (Schemas.priority data) w1)
      as [e|[priority w2]]; [done|].
    by intros [= <- _]. }
  split; [done|]. split; [by rewrite <- Ha|].
  split.
  { apply get_live_task_spec. split; [done|]. split; [|done].
    rewrite Hsession. cbn. apply lookup_insert_eq. }
  split; [done|]. split; [done|]. split; [done|].
  intros k' Hne. rewrite Hsession. cbn. by apply lookup_insert_ne.
Qed.

(** X9 for a task created in the sample world. *)
Lemma X9_create_then_get_witness :
  ∃ task w',
    Tasks.create_task Sample.now 6%N Sample.later 10%N Sample.world
    = inr (task, w')
    ∧ tasks (session Sample.world) !! 6%N = None
    ∧ Tasks.assignee_exists (session Sample.world)
        (Schemas.assigned_to Sample.later) = true
    ∧ TaskRoutes.get_task 6%N w' = inr (task, w')
    ∧ Task.is_deleted task = false
    ∧ Task.created_by task = 10%N
    ∧ Task.title task = Schemas.title Sample.later
    ∧ (∀ k', k' ≠ 6%N →
         tasks (session w') !! k' = tasks (session Sample.world) !! k').
Proof.
  eexists _, _. split; [vm_compute; reflexivity|].
  apply (X9_create_then_get Sample.now 6%N Sample.later 10%N Sample.world).
  vm_compute. reflexivity.
Defined.

Lemma add_task_spec k task w w' :
  Tasks.add_task k task w = inr ((), w') →
  tasks (session w) !! k = None
  ∧ session w'
    = mkDB (<[k := task]> (tasks (session w))) (users (session w))
           (comments (session w)) (notifications (session w))
  ∧ cache w' = cache w ∧ manager w' = manager w ∧ net w' = net w.
Proof.
  unfold Tasks.add_task. handler_unfold.
  destruct (tasks (session w) !! k) as [old|] eqn:Hk.
  { rewrite bool_decide_eq_true_2 by done. done. }
  rewrite bool_decide_eq_false_2 by (by intros [? ?]). cbn [orb].
  destruct (Tasks.assignee_exists (session w) (Task.assigned_to task)); [|done].
  cbn. by intros [= <-].
Qed.

Lemma bulk_add_stores now uuid4 data user w created w' :
  Tasks.bulk_add now uuid4 data user w = inr (created, w') →
  length created = length data
  ∧ (∀ i task, created !! i = Some task →
       tasks (session w') !! uuid4 i = Some task
       ∧ tasks (session w) !! uuid4 i = None)
  ∧ (∀ k t, tasks (session w) !! k = Some t → tasks (session w') !! k = Some t)
  ∧ (∀ k, (∀ i, (i < length data)%nat → uuid4 i ≠ k) →
          tasks (session w') !! k = tasks (session w) !! k)
  ∧ cache w' = cache w ∧ manager w' = manager w ∧ net w' = net w.
Proof.
  revert uuid4 w created.
  induction data as [|t data IH]; intros uuid4 w created; cbn [Tasks.bulk_add].
  - intros [= <- <-]. split; [done|]. split; [by intros i task [=]|]. done.
  - unfold mbind at 1, Handler_bind at 1.
    destruct (Tasks.new_task now t user w) as [e|[task w1]] eqn:Hnew; [done|].
    apply new_task_spec in Hnew as [-> _].
    unfold mbind at 1, Handler_bind at 1.
    destruct (Tasks.add_task (uuid4 0%nat) task w) as [e|[[] w1]] eqn:Hadd;
      [done|].
    apply add_task_spec in Hadd as (Hfresh & Hs1 & Hc1 & Hm1 & Hn1).
    unfold mbind at 1, Handler_bind at 1.
    destruct (Tasks.bulk_add now (uuid4 ∘ S) data user w1)
      as [e|[rest w2]] eqn:Hrest; [done|].
    intros [= <- <-].
    apply IH in Hrest as (Hlen & Hstored & Hkept & Hframe & Hc2 & Hm2 & Hn2).
    split; [cbn; by rewrite Hlen|].
    split; [|split; [|split]].
    + intros [|i] task'; cbn.
      * intros [= <-]. split; [|done]. apply Hkept. rewrite Hs1. cbn.
        apply lookup_insert_eq.
      * intros Hi. destruct (Hstored i task' Hi) as [Hin Hout].
        split; [done|]. rewrite Hs1 in Hout. cbn in Hout.
        by apply lookup_insert_None in Hout as [? _].
    + intros k t0 Hk. apply Hkept. rewrite Hs1. cbn.
      rewrite lookup_insert_ne; [done|]. intros <-. congruence.
    + intros k Hk. rewrite Hframe.
      * rewrite Hs1. cbn. apply lookup_insert_ne. apply (Hk 0%nat). cbn. lia.
      * intros i Hi. apply (Hk (S i)). cbn. lia.
    + by rewrite Hc2, Hm2, Hn2.
Qed.

(** X10. [bulk_create_tasks] stores every task of the request under the
    key drawn for it, each key being one no task had before, and touches
    no other row.  Unlike [create_task] it sends nothing over the
    websockets. *)
Theorem X10_bulk_create_stores now uuid4 data user w created w' :
  Tasks.bulk_create_tasks now uuid4 data user w = inr (created, w') →
  length created = length data
  ∧ (∀ i task, created !! i = Some task →
       tasks (session w') !! uuid4 i = Some task
       ∧ tasks (session w) !! uuid4 i = None)
  ∧ (∀ k, (∀ i, (i < length data)%nat → uuid4 i ≠ k) →
          tasks (session w') !! k = tasks (session w) !! k)
  ∧ net w' = net w
  ∧ manager w' = manager w.
Proof.
  unfold Tasks.bulk_create_tasks, mbind at 1, Handler_bind at 1.
  destruct (Tasks.bulk_add now uuid4 data user w)
    as [e|[created1 w1]] eqn:Hadd; [done|].
  apply bulk_add_stores in Hadd as (Hlen & Hstored & _ & Hframe & _ & Hm & Hn).
  handler_unfold. intros [= <- <-]. cbn. done.
Qed.

(** X10 for two tasks created at once in the sample world. *)
Lemma X10_bulk_create_stores_witness :
  ∃ created w',
    Tasks.bulk_create_tasks Sample.now (uuid4 Sample.context)
      [Sample.later; Sample2.late] 10%N Sample.world
    = inr (created, w')
    ∧ length created = 2%nat
    ∧ (∀ i task, created !! i = Some task →
         tasks (session w') !! uuid4 Sample.context i = Some task
         ∧ tasks (session Sample.world) !! uuid4 Sample.context i = None)
    ∧ (∀ k, (∀ i, (i < 2)%nat → uuid4 Sample.context i ≠ k) →
            tasks (session w') !! k = tasks (session Sample.world) !! k)
    ∧ net w' = net Sample.world
    ∧ manager w' = manager Sample.world.
Proof.
  eexists _, _. split; [vm_compute; reflexivity|].
  apply (X10_bulk_create_stores Sample.now (uuid4 Sample.context)
           [Sample.later; Sample2.late] 10%N Sample.world).
  vm_compute. reflexivity.
Defined.
End TaskHandlers.

(** ** The comment routes and the manual notification *)

Section CommentHandlers.
Variable render_markdown : string → string.

Implicit Types (w : World) (c : Comment.t).

Lemma get_own_comment_spec task_id comment_id user w c w' :
  get_own_comment task_id comment_id user w = inr (c, w')
  ↔ w' = w ∧ comments (session w) !! comment_id = Some c
    ∧ Comment.task_id c = task_id ∧ Comment.is_deleted c = false
    ∧ Comment.user_id c = user.
Proof.
  unfold get_own_comment. handler_unfold.
  destruct (comments (session w) !! comment_id) as [c0|];
    [|by split; [|intros (_ & [=] & _)]].
  destruct (decide (Comment.task_id c0 = task_id)) as [Ht|Ht];
    [rewrite bool_decide_eq_true_2 by done|rewrite bool_decide_eq_false_2 by done];
    [|split; [done|by intros (_ & [= ->] & ? & _)]].
  destruct (Comment.is_deleted c0) eqn:Hd; cbn;
    [split; [done|intros (_ & [= ->] & _ & ? & _); congruence]|].
  destruct (decide (Comment.user_id c0 = user)) as [Hu|Hu];
    [rewrite bool_decide_eq_true_2 by done|rewrite bool_decide_eq_false_2 by done].
  - split; [by intros [= <- <-]|by intros (-> & [= ->] & _)].
  - split; [done|by intros (_ & [= ->] & _ & _ & ?)].
Qed.

(** A comment that is not there, is on another task or is deleted: 404. *)
Lemma get_own_comment_404 task_id comment_id user w :
  (∀ c, comments (session w) !! comment_id = Some c →
        Comment.task_id c ≠ task_id ∨ Comment.is_deleted c = true) →
  get_own_comment task_id comment_id user w
  = inl (HTTPException 404 "Comment not found").
Proof.
  intros Hgone. unfold get_own_comment. handler_unfold.
  destruct (comments (session w) !! comment_id) as [c0|] eqn:Hc; [|done].
  destruct (Hgone c0 eq_refl) as [Ht|Hd].
  - by rewrite bool_decide_eq_false_2.
  - rewrite Hd. by rewrite andb_false_r.
Qed.

(** X11. Only its author can change a comment: for a live comment of the
    task written by someone else, [update_comment] and [delete_comment]
    both answer 403; and when either succeeds, the caller is the author of
    a live comment of that task. *)
Theorem X11_comment_author_only task_id comment_id content user w c :
  comments (session w) !! comment_id = Some c →
  Comment.task_id c = task_id →
  Comment.is_deleted c = false →
  (Comment.user_id c ≠ user →
   update_comment render_markdown task_id comment_id content user w
   = inl (HTTPException 403 "Not authorized")
   ∧ delete_comment task_id comment_id user w
     = inl (HTTPException 403 "Not authorized"))
  ∧ (∀ c' w', update_comment render_markdown task_id comment_id content user w
              = inr (c', w') →
              Comment.user_id c = user ∧ Comment.user_id c' = user
              ∧ Comment.content c' = content
              ∧ comments (session w') !! comment_id = Some c')
  ∧ (∀ w', delete_comment task_id comment_id user w = inr ((), w') →
           Comment.user_id c = user).
Proof.
  intros Hc Ht Hd. split; [|split].
  - intros Hu.
    assert (get_own_comment task_id comment_id user w
            = inl (HTTPException 403 "Not authorized")) as Hget.
    { unfold get_own_comment. handler_unfold. rewrite Hc, Hd.
      rewrite (bool_decide_eq_true_2 _ Ht). cbn.
      by rewrite bool_decide_eq_false_2. }
    unfold update_comment, delete_comment, mbind, Handler_bind.
    by rewrite Hget.
  - intros c' w'. unfold update_comment, mbind at 1, Handler_bind at 1.
    destruct (get_own_comment task_id comment_id user w)
      as [e|[c0 w0]] eqn:Hget; [done|].
    apply get_own_comment_spec in Hget as (-> & Hc0 & _ & _ & Hu).
    rewrite Hc in Hc0. injection Hc0 as <-.
    unfold put_comment, model_validate. handler_unfold.
    destruct (decide _) as [Heq|Hne]; [|done]. intros [= <- <-]. cbn.
    split; [done|]. split; [done|]. split; [done|]. apply lookup_insert_eq.
  - intros w'. unfold delete_comment, mbind at 1, Handler_bind at 1.
    destruct (get_own_comment task_id comment_id user w)
      as [e|[c0 w0]] eqn:Hget; [done|].
    apply get_own_comment_spec in Hget as (-> & Hc0 & _ & _ & Hu).
    rewrite Hc in Hc0. by injection Hc0 as <-.
Qed.

(** X12. [delete_comment] is a soft delete: the row stays with its
    deletion flag set and its text as it was, no task and no other comment
    changes, nothing is sent or purged; afterwards [update_comment] and
    [delete_comment] answer 404 for it. *)
Theorem X12_delete_comment_soft task_id comment_id user w w' :
  delete_comment task_id comment_id user w = inr ((), w') →
  ∃ c,
    comments (session w) !! comment_id = Some c
    ∧ comments (session w') !! comment_id
      = Some (Comment.mk (Comment.content c) (Comment.content_html c)
                (Comment.task_id c) (Comment.user_id c) true)
    ∧ (∀ k, k ≠ comment_id →
            comments (session w') !! k = comments (session w) !! k)
    ∧ tasks (session w') = tasks (session w)
    ∧ cache w' = cache w ∧ net w' = net w
    ∧ (∀ content who,
         update_comment render_markdown task_id comment_id content who w'
         = inl (HTTPException 404 "Comment not found"))
    ∧ (∀ who, delete_comment task_id comment_id who w'
              = inl (HTTPException 404 "Comment not found")).
Proof.
  unfold delete_comment at 1, mbind at 1, Handler_bind at 1.
  destruct (get_own_comment task_id comment_id user w)
    as [e|[c w0]] eqn:Hget; [done|].
  apply get_own_comment_spec in Hget as (-> & Hc & Ht & Hd & Hu).
  unfold put_comment. handler_unfold. intros [= <-]. cbn.
  exists c. split; [done|]. split; [apply lookup_insert_eq|].
  split; [intros k Hne; by apply lookup_insert_ne|].
  split; [done|]. split; [done|]. split; [done|].
  set (w' := mkWorld _ _ _ _).
  assert (∀ who, get_own_comment task_id comment_id who w'
                 = inl (HTTPException 404 "Comment not found")) as Hgone.
  { intros who. apply get_own_comment_404. subst w'. cbn.
    rewrite lookup_insert_eq. intros c0 [= <-]. by right. }
  split.
  - intros content who. unfold update_comment, mbind, Handler_bind.
    by rewrite Hgone.
  - intros who. unfold delete_comment, mbind, Handler_bind. by rewrite Hgone.
Qed.

(** X13. A comment outlives the deletion of its task: after
    [delete_task] the comment is still found for its author, who can
    delete it and whose [update_comment] is answered neither 404 nor 403,
    while no new comment can be added to the task. *)
Theorem X13_comment_outlives_task k comment_id content user name uuid4 w w1 c :
  Tasks.delete_task k w = inr ((), w1) →
  comments (session w) !! comment_id = Some c →
  Comment.task_id c = k → Comment.is_deleted c = false →
  Comment.user_id c = user →
  get_own_comment k comment_id user w1 = inr (c, w1)
  ∧ (∃ w2,
       delete_comment k comment_id user w1 = inr ((), w2)
       ∧ Comment.is_deleted <$> comments (session w2) !! comment_id = Some true)
  ∧ (∀ status_code detail,
       update_comment render_markdown k comment_id content user w1
       ≠ inl (HTTPException status_code detail))
  ∧ add_comment render_markdown uuid4 k content user name w1
    = inl (HTTPException 404 "Task not found").
Proof.
  intros Hdel Hc Ht Hd Hu.
  apply delete_task_spec in Hdel as (task & Hk & Hlive & Hsession & _).
  assert (get_own_comment k comment_id user w1 = inr (c, w1)) as Hget.
  { apply get_own_comment_spec. rewrite Hsession. cbn. done. }
  split; [done|]. split; [|split].
  - unfold delete_comment, mbind at 1, Handler_bind at 1. rewrite Hget.
    unfold put_comment. handler_unfold. eexists. split; [done|].
    cbn. by rewrite lookup_insert_eq.
  - intros status_code detail.
    unfold update_comment, mbind at 1, Handler_bind at 1. rewrite Hget.
    unfold put_comment, model_validate. handler_unfold.
    by destruct (decide _).
  - apply bind_get_live_task_404. intros t. rewrite Hsession. cbn.
    rewrite lookup_insert_eq. by intros [= <-].
Qed.
End CommentHandlers.

(** X11 for Bob trying his hand at Alice's comment. *)
Lemma X11_comment_author_only_witness :
  (Comment.user_id (Comment.mk "first" (Some "first") 1%N 10%N false) ≠ 11%N →
   update_comment Sample.plain 1%N 30%N "mine now" 11%N Sample2.world
   = inl (HTTPException 403 "Not authorized")
   ∧ delete_comment 1%N 30%N 11%N Sample2.world
     = inl (HTTPException 403 "Not authorized"))
  ∧ (∀ c' w', update_comment Sample.plain 1%N 30%N "mine now" 11%N Sample2.world
              = inr (c', w') →
              Comment.user_id (Comment.mk "first" (Some "first") 1%N 10%N false)
              = 11%N
              ∧ Comment.user_id c' = 11%N
              ∧ Comment.content c' = "mine now"
              ∧ comments (session w') !! 30%N = Some c')
  ∧ (∀ w', delete_comment 1%N 30%N 11%N Sample2.world = inr ((), w') →
           Comment.user_id (Comment.mk "first" (Some "first") 1%N 10%N false)
           = 11%N).
Proof.
  apply (X11_comment_author_only Sample.plain 1%N 30%N "mine now" 11%N
           Sample2.world); reflexivity.
Defined.

(** X12 for Alice deleting her comment. *)
Lemma X12_delete_comment_soft_witness :
  ∃ w',
    delete_comment 1%N 30%N 10%N Sample2.world = inr ((), w')
    ∧ ∃ c,
        comments (session Sample2.world) !! 30%N = Some c
        ∧ comments (session w') !! 30%N
          = Some (Comment.mk (Comment.content c) (Comment.content_html c)
                    (Comment.task_id c) (Comment.user_id c) true)
        ∧ (∀ k, k ≠ 30%N →
                comments (session w') !! k
                = comments (session Sample2.world) !! k)
        ∧ tasks (session w') = tasks (session Sample2.world)
        ∧ cache w' = cache Sample2.world ∧ net w' = net Sample2.world
        ∧ (∀ content who,
             update_comment Sample.plain 1%N 30%N content who w'
             = inl (HTTPException 404 "Comment not found"))
        ∧ (∀ who, delete_comment 1%N 30%N who w'
                  = inl (HTTPException 404 "Comment not found")).
Proof.
  eexists. split; [vm_compute; reflexivity|].
  apply (X12_delete_comment_soft Sample.plain 1%N 30%N 10%N Sample2.world).
  vm_compute. reflexivity.
Defined.

(** X13 for Alice's comment, once the report is deleted. *)
Lemma X13_comment_outlives_task_witness :
  ∃ w1,
    Tasks.delete_task 1%N Sample2.world = inr ((), w1)
    ∧ get_own_comment 1%N 30%N 10%N w1
      = inr (Comment.mk "first" (Some "first") 1%N 10%N false, w1)
    ∧ (∃ w2,
         delete_comment 1%N 30%N 10%N w1 = inr ((), w2)
         ∧ Comment.is_deleted <$> comments (session w2) !! 30%N = Some true)
    ∧ (∀ status_code detail,
         update_comment Sample.plain 1%N 30%N "still here" 10%N w1
         ≠ inl (HTTPException status_code detail))
    ∧ add_comment Sample.plain 31%N 1%N "still here" 10%N "Alice" w1
      = inl (HTTPException 404 "Task not found").
Proof.
  eexists. split; [vm_compute; reflexivity|].
  eapply (X13_comment_outlives_task Sample.plain 1%N 30%N "still here" 10%N
            "Alice" 31%N Sample2.world).
  - vm_compute. reflexivity.
  - reflexivity.
  - reflexivity.
  - reflexivity.
  - reflexivity.
Defined.

Section ManualNotification.
Import TaskRoutes.

Implicit Types (w : World) (k : uuid).

Lemma notify_task_overdue_live k w task :
  tasks (session w) !! k = Some task → Task.is_deleted task = false →
  notify_task_overdue k w
  = if bool_decide (Task.status task = OVERDUE) then
      if title_fits (overdue_notification k task) then
        inr ((overdue_notification k task, manual_mail (session w) task),
             mkWorld (add_notification (overdue_notification k task) (session w))
                     (cache w) (manager w)
                     (mkNet (closed (net w))
                            (delivered (net w)
                             ++ broadcast_sent (notification_event k task) None
                                  (manager w) (net w))))
      else inl DataError
    else inl (HTTPException 400 "Task is not overdue").
Proof.
  intros Hk Hlive.
  assert (Tasks.get_live_task k w = inr (task, w)) as Hget
    by by apply get_live_task_spec.
  unfold notify_task_overdue, mbind at 1, Handler_bind at 1. rewrite Hget.
  case_bool_decide; [|done].
  unfold get_session, mbind at 1, Handler_bind at 1.
  destruct (title_fits (overdue_notification k task)); [|done].
  unfold put_session, broadcast, mbind, Handler_bind, mret, Handler_ret.
  cbn [session cache manager net].
  by rewrite broadcast_spec.
Qed.

(** X14. For a live task that is OVERDUE and whose title has at most 241
    characters, [notify_task_overdue] succeeds whether or not the task
    has [notify_overdue]: it appends one notification for the task,
    changes no task and purges nothing, and its event reaches every
    session on which the send does not fail, of every user.  A second
    call succeeds as well and appends a second, equal notification. *)
Theorem X14_manual_notification_effect k w task :
  tasks (session w) !! k = Some task →
  Task.is_deleted task = false →
  Task.status task = OVERDUE →
  (String.length (Task.title task) ≤ 241)%nat →
  ∃ w' w'',
    notify_task_overdue k w
    = inr ((overdue_notification k task, manual_mail (session w) task), w')
    ∧ notifications (session w')
      = notifications (session w) ++ [overdue_notification k task]
    ∧ tasks (session w') = tasks (session w)
    ∧ cache w' = cache w ∧ manager w' = manager w
    ∧ (∀ user_id conns ws,
         ConnectionManager.active_connections (manager w) !! user_id
         = Some conns →
         ws ∈ conns → ws ∉ closed (net w) →
         (ws, notification_event k task) ∈ delivered (net w'))
    ∧ notify_task_overdue k w'
      = inr ((overdue_notification k task, manual_mail (session w) task), w'')
    ∧ notifications (session w'')
      = notifications (session w)
        ++ [overdue_notification k task; overdue_notification k task].
Proof.
  intros Hk Hlive Hs Hlen. apply (title_fits_overdue k) in Hlen.
  pose proof (notify_task_overdue_live k w task Hk Hlive) as Hfirst.
  rewrite bool_decide_eq_true_2, Hlen in Hfirst by done.
  set (w' := mkWorld _ _ _ _) in Hfirst.
  pose proof (notify_task_overdue_live k w' task Hk Hlive) as Hsecond.
  rewrite bool_decide_eq_true_2, Hlen in Hsecond by done.
  set (w'' := mkWorld _ _ _ _) in Hsecond.
  exists w', w''. split; [done|]. split; [done|]. split; [done|].
  split; [done|]. split; [done|]. split; [|split; [done|]].
  - intros user_id conns ws Hreg Hws Hopen. subst w'. cbn.
    apply elem_of_app. right. apply elem_of_broadcast_sent.
    split; [done|]. split; [done|]. by exists user_id, conns.
  - subst w'' w'. cbn. by rewrite <- app_assoc.
Qed.

End ManualNotification.

(** X14 for the overdue report of the second sample world. *)
Lemma X14_manual_notification_effect_witness :
  ∃ w' w'',
    TaskRoutes.notify_task_overdue 1%N Sample2.world
    = inr ((overdue_notification 1%N Sample2.overdue_report,
            TaskRoutes.manual_mail (session Sample2.world)
              Sample2.overdue_report), w')
    ∧ notifications (session w')
      = notifications (session Sample2.world)
        ++ [overdue_notification 1%N Sample2.overdue_report]
    ∧ tasks (session w') = tasks (session Sample2.world)
    ∧ cache w' = cache Sample2.world ∧ manager w' = manager Sample2.world
    ∧ (∀ user_id conns ws,
         ConnectionManager.active_connections (manager Sample2.world) !! user_id
         = Some conns →
         ws ∈ conns → ws ∉ closed (net Sample2.world) →
         (ws, notification_event 1%N Sample2.overdue_report)
         ∈ delivered (net w'))
    ∧ TaskRoutes.notify_task_overdue 1%N w'
      = inr ((overdue_notification 1%N Sample2.overdue_report,
              TaskRoutes.manual_mail (session Sample2.world)
                Sample2.overdue_report), w'')
    ∧ notifications (session w'')
      = notifications (session Sample2.world)
        ++ [overdue_notification 1%N Sample2.overdue_report;
            overdue_notification 1%N Sample2.overdue_report].
Proof.
  apply (X14_manual_notification_effect 1%N Sample2.world
           Sample2.overdue_report); try reflexivity.
  vm_compute. lia.
Defined.


(** ** The registry of the connection manager *)

Section Registry.
Import ConnectionManager.

Implicit Types (self : t) (ws : WebSocket) (u : string) (n : Net).

Lemma manager_eq self self' :
  active_connections self = active_connections self' → self = self'.
Proof. destruct self, self'. cbn. by intros ->. Qed.

Lemma connect_lookup_ne ws u u' self :
  u' ≠ u →
  active_connections (connect ws u self) !! u' = active_connections self !! u'.
Proof. intros Hne. unfold connect. cbn. by apply lookup_insert_ne. Qed.

(** The registry after [disconnect], bucket by bucket. *)
Lemma disconnect_lookup ws u u' self :
  active_connections (disconnect ws u self) !! u'
  = if decide (u' = u) then
      match active_connections self !! u with
      | Some conns =>
          if decide (filter (λ ws', ws' ≠ ws) conns = []) then None
          else Some (filter (λ ws', ws' ≠ ws) conns)
      | None => None
      end
    else active_connections self !! u'.
Proof.
  unfold disconnect.
  destruct (active_connections self !! u) as [conns|] eqn:Hu.
  - destruct (decide (filter (λ ws', ws' ≠ ws) conns = [])) as [Hnil|Hcons];
      cbn; destruct (decide (u' = u)) as [->|Hne].
    + apply lookup_delete_eq.
    + by apply lookup_delete_ne.
    + apply lookup_insert_eq.
    + by apply lookup_insert_ne.
  - destruct (decide (u' = u)) as [->|Hne]; done.
Qed.

Lemma reachable_no_empty_bucket self :
  registry_reachable self → no_empty_bucket self.
Proof.
  induction 1 as [|ws u self _ IH|ws u self _ IH]; intros u' conns.
  - cbn. by rewrite lookup_empty.
  - destruct (decide (u' = u)) as [->|Hne].
    + rewrite connect_lookup. intros [= <-]. by intros [_ [=]]%app_eq_nil.
    + rewrite connect_lookup_ne by done. apply IH.
  - rewrite disconnect_lookup. destruct (decide (u' = u)) as [->|Hne]; [|apply IH].
    destruct (active_connections self !! u) as [old|]; [|done].
    destruct (decide (filter (λ ws', ws' ≠ ws) old = [])); [done|].
    by intros [= <-].
Qed.

(** X16. Whatever connects and disconnects have happened, the registry
    holds no user with an empty bucket: a user is in it exactly while at
    least one of the user's sessions is. *)
Theorem X16_no_empty_bucket self :
  registry_reachable self → no_empty_bucket self.
Proof. apply reachable_no_empty_bucket. Qed.

(** X16 for the sample registry. *)
Lemma X16_no_empty_bucket_witness : no_empty_bucket Sample.registry.
Proof.
  apply X16_no_empty_bucket. unfold Sample.registry.
  apply reach_connect, reach_connect, reach_init.
Defined.

(** X17. [disconnect(ws, u)] removes every occurrence of [ws] from the
    bucket of [u], keeps the other sessions of [u] in their order, and
    leaves every other user's bucket as it was; for a user the registry
    does not hold it does nothing. *)
Theorem X17_disconnect_effect ws u self :
  (∀ conns, active_connections (disconnect ws u self) !! u = Some conns →
            (ws ∉ conns)
            ∧ ∃ old, active_connections self !! u = Some old
                     ∧ conns = filter (λ ws', ws' ≠ ws) old)
  ∧ (∀ u', u' ≠ u →
           active_connections (disconnect ws u self) !! u'
           = active_connections self !! u')
  ∧ (active_connections self !! u = None → disconnect ws u self = self).
Proof.
  split; [|split].
  - intros conns. rewrite disconnect_lookup, decide_True by done.
    destruct (active_connections self !! u) as [old|]; [|done].
    destruct (decide (filter (λ ws', ws' ≠ ws) old = [])); [done|].
    intros [= <-]. split; [|by exists old].
    intros [Hne _]%list_elem_of_filter. by apply Hne.
  - intros u' Hne. by rewrite disconnect_lookup, decide_False.
  - intros Hu. unfold disconnect. by rewrite Hu.
Qed.

Lemma filter_absent ws (conns : list WebSocket) :
  ws ∉ conns → filter (λ ws', ws' ≠ ws) conns = conns.
Proof.
  induction conns as [|ws' conns IH]; [done|].
  rewrite not_elem_of_cons. intros [Hne Hnin].
  rewrite filter_cons_True by done. by rewrite IH.
Qed.

(** X18. In a registry without empty buckets, disconnecting a session
    that is not registered for the user changes nothing, and a connect
    followed by the disconnect of the same session gives the registry
    back, the user's other sessions included. *)
Theorem X18_connect_disconnect_round_trip ws u self :
  no_empty_bucket self →
  (∀ conns, active_connections self !! u = Some conns → ws ∉ conns) →
  disconnect ws u self = self
  ∧ disconnect ws u (connect ws u self) = self.
Proof.
  intros Hwf Hnew. split; apply manager_eq, map_eq; intros u'.
  - rewrite disconnect_lookup. destruct (decide (u' = u)) as [->|Hne]; [|done].
    destruct (active_connections self !! u) as [conns|] eqn:Hu; [|done].
    rewrite filter_absent by by apply Hnew.
    rewrite decide_False; [done|]. by apply (Hwf u).
  - rewrite disconnect_lookup. destruct (decide (u' = u)) as [->|Hne].
    + rewrite connect_lookup, filter_app.
      rewrite (filter_cons_False _ ws) by (intros Hne; by apply Hne).
      rewrite filter_nil, app_nil_r.
      destruct (active_connections self !! u) as [conns|] eqn:Hu; cbn.
      * rewrite filter_absent by by apply Hnew.
        rewrite decide_False; [done|]. by apply (Hwf u).
      * done.
    + by rewrite connect_lookup_ne.
Qed.

(** X18 for a third session in the sample registry. *)
Lemma X18_connect_disconnect_round_trip_witness :
  disconnect 3%N "alice" Sample.registry = Sample.registry
  ∧ disconnect 3%N "alice" (connect 3%N "alice" Sample.registry)
    = Sample.registry.
Proof.
  apply (X18_connect_disconnect_round_trip 3%N "alice" Sample.registry).
  - apply reachable_no_empty_bucket. unfold Sample.registry.
    apply reach_connect, reach_connect, reach_init.
  - intros conns Hlook. vm_compute in Hlook. injection Hlook as <-.
    apply (bool_decide_unpack _). vm_compute. exact I.
Defined.

(** X19. [send_personal] delivers the message to the sessions of that user
    on which the send does not fail, in the order of the bucket, and does
    nothing for a user who is not connected; whatever it delivers, a
    broadcast that does not exclude the user delivers too. *)
Theorem X19_send_personal_effect u message self n :
  send_personal u message self n
  = mkNet (closed n)
      (delivered n
       ++ ((λ ws, (ws, message))
             <$> filter (λ ws, ws ∉ closed n)
                   (default [] (active_connections self !! u))))
  ∧ (active_connections self !! u = None → send_personal u message self n = n)
  ∧ (∀ ws exclude_user,
       exclude_user ≠ Some u →
       (ws, message)
       ∈ ((λ ws, (ws, message))
            <$> filter (λ ws, ws ∉ closed n)
                  (default [] (active_connections self !! u))) →
       (ws, message) ∈ broadcast_sent message exclude_user self n).
Proof.
  assert (send_personal u message self n
          = mkNet (closed n)
              (delivered n
               ++ ((λ ws, (ws, message))
                     <$> filter (λ ws, ws ∉ closed n)
                           (default [] (active_connections self !! u)))))
    as Hspec.
  { unfold send_personal.
    destruct (active_connections self !! u) as [conns|]; cbn.
    - apply send_all_spec.
    - destruct n. cbn. by rewrite app_nil_r. }
  split; [done|]. split.
  - intros Hu. rewrite Hspec, Hu. destruct n. cbn. by rewrite app_nil_r.
  - intros ws exclude_user Hex (ws' & [= <-] & Hin)%list_elem_of_fmap.
    apply list_elem_of_filter in Hin as [Hopen Hin].
    apply elem_of_broadcast_sent. split; [done|]. split; [done|].
    destruct (active_connections self !! u) as [conns|] eqn:Hu;
      [|by apply elem_of_nil in Hin].
    exists u, conns. split; [done|]. split; [congruence|done].
Qed.
End Registry.

(** ** The cache and the keys the read routes use *)

Section CacheKeys.
Import Cache.

(** A pattern of literal characters matches the key it spells, and no
    other. *)
Lemma glob_match_literal p key :
  literals p = true → glob_match p key = bool_decide (p = key).
Proof.
  revert key. induction p as [|c p IH]; intros key Hlit.
  - cbn. destruct key; by repeat case_bool_decide.
  - cbn in Hlit. apply andb_prop in Hlit as [Hc Hp].
    rewrite glob_match_literal_head by done.
    destruct key as [|k key]; [by rewrite bool_decide_eq_false_2|].
    assert (resume (glob_match p) p key = bool_decide (p = key)) as ->.
    { destruct key as [|k' key']; [|by apply IH].
      cbn [resume]. rewrite stars_literals by done.
      apply bool_decide_ext. split; by intros ->. }
    destruct (Ascii.eqb c k) eqn:Hck.
    + apply Ascii.eqb_eq in Hck as ->. cbn.
      apply bool_decide_ext. split; [by intros ->|by intros [= ->]].
    + cbn. symmetry. apply bool_decide_eq_false. intros [= -> _].
      by rewrite Ascii.eqb_refl in Hck.
Qed.

Lemma scan_match_literal p key :
  literals p = true → scan_match p key = bool_decide (p = key).
Proof.
  intros Hlit. unfold scan_match. rewrite glob_match_literal by done.
  rewrite bool_decide_eq_false_2; [done|]. by intros ->.
Qed.

(** X20. [cache_delete_pattern] only removes entries, and doing it twice
    removes no more than doing it once; with the pattern of the single
    star it empties the cache; and with a pattern of literal characters
    (none of the star, the question mark, the brackets and the
    backslash) it removes the entry under that very key and nothing
    else, as [cache_delete] does. *)
Theorem X20_cache_delete_pattern p entries :
  cache_delete_pattern p entries ⊆ entries
  ∧ cache_delete_pattern p (cache_delete_pattern p entries)
    = cache_delete_pattern p entries
  ∧ cache_delete_pattern "*" entries = ∅
  ∧ (literals p = true → cache_delete_pattern p entries = cache_delete p entries).
Proof.
  split; [apply map_filter_subseteq|]. split; [|split].
  - apply map_eq. intros key. rewrite !cache_delete_pattern_lookup.
    by destruct (scan_match p key).
  - apply map_eq. intros key.
    by rewrite cache_delete_pattern_lookup, lookup_empty.
  - intros Hlit. apply map_eq. intros key.
    rewrite cache_delete_pattern_lookup, scan_match_literal by done.
    unfold cache_delete. case_bool_decide as Hkey.
    + subst key. by rewrite lookup_delete_eq.
    + by rewrite lookup_delete_ne.
Qed.

(** A class and an escape are no literals: the pattern [a[b]c] removes
    the key [abc] and leaves the key spelt like the pattern. *)
Example cache_delete_pattern_class :
  cache_delete_pattern "a[b]c" (list_to_map [("abc", "1"); ("a[b]c", "2")])
  = list_to_map [("a[b]c", "2")]
  ∧ cache_delete_pattern "a\*c" (list_to_map [("a*c", "1"); ("abc", "2")])
    = list_to_map [("abc", "2")].
Proof. split; vm_compute; reflexivity. Qed.

Lemma prefix_app p s : String.prefix p (p +:+ s) = true.
Proof.
  induction p as [|c p IH]; [by destruct s|].
  change (String c p +:+ s) with (String c (p +:+ s)).
  cbn [String.prefix]. by destruct (ascii_dec c c).
Qed.

Variable render_markdown : string → string.

(** What a route that returns leaves of the cache. *)
Lemma route_cache ctx req w resp w' :
  route render_markdown ctx req w = inr (resp, w') →
  cache w'
  = if is_task_mutation req then purge_listings (cache w) else cache w.
Proof.
  destruct req; cbn [route is_task_mutation]; intros Hroute.
  - eapply (cache_post_fmap TaskResponse), Hroute. apply cache_post_create_task.
  - eapply (cache_post_fmap TaskListResponse), Hroute.
    apply cache_post_bulk_create_tasks.
  - eapply (cache_post_fmap TaskResponse), Hroute. apply cache_post_update_task.
  - eapply cache_post_bind_id_r, Hroute;
      [apply cache_post_delete_task|intros ?; apply cache_post_ret].
  - eapply (cache_post_fmap CommentResponse id), Hroute.
    apply cache_post_add_comment.
  - eapply (cache_post_fmap CommentResponse id), Hroute.
    apply cache_post_update_comment.
  - eapply (cache_post_bind_id_r id), Hroute;
      [apply cache_post_delete_comment|intros ?; apply cache_post_ret].
Qed.

(** X21. After a task mutation that succeeds, none of the keys the read
    routes cache under is left: the key of any task listing, of any
    user's overview, of the performance table and of any trend, so the
    next read of each is a miss.  Keys that start otherwise are kept with
    their values. *)
Theorem X21_read_keys_purged ctx req w resp w' :
  route render_markdown ctx req w = inr (resp, w') →
  is_task_mutation req = true →
  (∀ user page page_size status priority assigned_to search sort_by sort_order
     tag,
     cache_get
       (TaskRoutes.list_tasks_cache_key user page page_size status priority
          assigned_to search sort_by sort_order tag) (cache w')
     = None)
  ∧ (∀ user, cache_get (AnalyticsKeys.overview user) (cache w') = None)
  ∧ cache_get AnalyticsKeys.performance (cache w') = None
  ∧ (∀ days, cache_get (AnalyticsKeys.trends days) (cache w') = None)
  ∧ (∀ key, String.prefix "tasks:" key = false →
            String.prefix "analytics:" key = false →
            cache_get key (cache w') = cache_get key (cache w)).
Proof.
  intros Hroute Hmut. apply route_cache in Hroute. rewrite Hmut in Hroute.
  unfold cache_get. rewrite Hroute.
  split; [|split; [|split; [|split]]]; intros; rewrite purge_listings_lookup.
  - unfold TaskRoutes.list_tasks_cache_key. by rewrite prefix_app.
  - assert (String.prefix "analytics:" (AnalyticsKeys.overview user) = true)
      as -> by (vm_compute; reflexivity).
    by rewrite orb_true_r.
  - assert (String.prefix "analytics:" AnalyticsKeys.performance = true)
      as -> by (vm_compute; reflexivity).
    by rewrite orb_true_r.
  - assert (String.prefix "analytics:" (AnalyticsKeys.trends days) = true)
      as -> by (vm_compute; reflexivity).
    by rewrite orb_true_r.
  - by rewrite H, H0.
Qed.
End CacheKeys.

(** X21 for the deletion of a task of the sample world. *)
Lemma X21_read_keys_purged_witness :
  ∃ resp w',
    route Sample.plain Sample.context (DeleteTask 1%N) Sample.world
    = inr (resp, w')
    ∧ (∀ user page page_size status priority assigned_to search sort_by
         sort_order tag,
         Cache.cache_get
           (TaskRoutes.list_tasks_cache_key user page page_size status priority
              assigned_to search sort_by sort_order tag) (cache w')
         = None)
    ∧ (∀ user, Cache.cache_get (AnalyticsKeys.overview user) (cache w') = None)
    ∧ Cache.cache_get AnalyticsKeys.performance (cache w') = None
    ∧ (∀ days, Cache.cache_get (AnalyticsKeys.trends days) (cache w') = None)
    ∧ (∀ key, String.prefix "tasks:" key = false →
              String.prefix "analytics:" key = false →
              Cache.cache_get key (cache w')
              = Cache.cache_get key (cache Sample.world)).
Proof.
  eexists _, _. split; [vm_compute; reflexivity|].
  eapply (X21_read_keys_purged Sample.plain Sample.context (DeleteTask 1%N)
            Sample.world).
  - vm_compute. reflexivity.
  - reflexivity.
Defined.

(** ** The notification routes *)

Section NotificationRoutes.
Import Notifications.

Implicit Types (table : gmap uuid Notification.t) (user : uuid).

(** A row counts as unread for [user]. *)
Lemma unread_set_read user n :
  ¬ (Notification.user_id (set_read n) = user
     ∧ Notification.is_read (set_read n) = false).
Proof. by intros [_ [=]]. Qed.

Lemma mark_all_read_lookup user table k :
  mark_all_read user table !! k
  = (λ n, if bool_decide (Notification.user_id n = user)
             && negb (Notification.is_read n)
          then set_read n else n) <$> table !! k.
Proof. unfold mark_all_read. apply lookup_fmap. Qed.

Lemma unread_count_ext user table table' :
  (∀ k, (∃ n, table !! k = Some n ∧ Notification.user_id n = user
              ∧ Notification.is_read n = false)
        ↔ (∃ n, table' !! k = Some n ∧ Notification.user_id n = user
                ∧ Notification.is_read n = false)) →
  unread_count user table = unread_count user table'.
Proof.
  intros Hext. unfold unread_count.
  rewrite <- !size_dom. f_equal. apply set_eq. intros k.
  rewrite !elem_of_dom. unfold is_Some.
  setoid_rewrite map_lookup_filter_Some. cbn.
  split; intros [n [Hn Hp]].
  - destruct (proj1 (Hext k)) as [n' ?]; [by exists n|]. by exists n'.
  - destruct (proj2 (Hext k)) as [n' ?]; [by exists n|]. by exists n'.
Qed.

(** X22. After [mark_all_read] the user has no unread notification; the
    notifications of the other users are as they were, so their unread
    counts are unchanged; no row is added or removed; and a second call
    changes nothing. *)
Theorem X22_mark_all_read user table :
  unread_count user (mark_all_read user table) = 0%nat
  ∧ (∀ other, other ≠ user →
       unread_count other (mark_all_read user table) = unread_count other table)
  ∧ (∀ k n, table !! k = Some n → Notification.user_id n ≠ user →
            mark_all_read user table !! k = Some n)
  ∧ (∀ k, mark_all_read user table !! k = None ↔ table !! k = None)
  ∧ mark_all_read user (mark_all_read user table) = mark_all_read user table.
Proof.
  split; [|split; [|split; [|split]]].
  - unfold unread_count. apply map_size_empty_iff, map_empty. intros k.
    apply map_lookup_filter_None. right. intros n.
    rewrite mark_all_read_lookup.
    destruct (table !! k) as [n0|]; [|done]. cbn. intros [= <-]. cbn.
    destruct (decide (Notification.user_id n0 = user)) as [Hu|Hu].
    + rewrite bool_decide_eq_true_2 by done.
      destruct (Notification.is_read n0) eqn:Hr; cbn; [|apply unread_set_read; done].
      intros [_ ?]. congruence.
    + rewrite bool_decide_eq_false_2 by done. cbn. by intros [? _].
  - intros other Hne. apply unread_count_ext. intros k.
    rewrite mark_all_read_lookup.
    destruct (table !! k) as [n0|]; cbn; [|by split; intros (? & [=] & _)].
    destruct (decide (Notification.user_id n0 = user)) as [Hu|Hu].
    + rewrite bool_decide_eq_true_2 by done.
      split; intros (n & [= <-] & Ho & Hr).
      * destruct (Notification.is_read n0); cbn in *; [congruence|].
        cbn in Ho. congruence.
      * congruence.
    + rewrite bool_decide_eq_false_2 by done. done.
  - intros k n Hk Hu. rewrite mark_all_read_lookup, Hk. cbn.
    by rewrite bool_decide_eq_false_2.
  - intros k. rewrite mark_all_read_lookup. by destruct (table !! k).
  - apply map_eq. intros k. rewrite !mark_all_read_lookup.
    destruct (table !! k) as [n0|]; [|done]. cbn. f_equal.
    destruct (bool_decide (Notification.user_id n0 = user)
              && negb (Notification.is_read n0)) eqn:Hb; [|by rewrite Hb].
    cbn. by rewrite andb_false_r.
Qed.

(** X23. [mark_notification_read] answers 404 for a key that is not in the
    table and for a notification of another user, so nobody can mark
    someone else's.  When it succeeds the row is the caller's and is
    read afterwards, every other row is as it was, and the caller's
    unread count has gone down by one if the row was unread and is
    unchanged if it was read already. *)
Theorem X23_mark_notification_read k user table :
  ((∀ n, table !! k = Some n → Notification.user_id n ≠ user) →
   mark_notification_read k user table
   = inl (HTTPException 404 "Notification not found"))
  ∧ (∀ n' table',
       mark_notification_read k user table = inr (n', table') →
       ∃ n,
         table !! k = Some n ∧ Notification.user_id n = user
         ∧ n' = set_read n ∧ table' !! k = Some n'
         ∧ (∀ k', k' ≠ k → table' !! k' = table !! k')
         ∧ unread_count user table
           = (unread_count user table'
              + if Notification.is_read n then 0 else 1)%nat).
Proof.
  unfold mark_notification_read. split.
  - intros Hforeign. destruct (table !! k) as [n|] eqn:Hk; [|done].
    by rewrite bool_decide_eq_false_2 by by apply Hforeign.
  - intros n' table'. destruct (table !! k) as [n|] eqn:Hk; [|done].
    case_bool_decide as Hu; [|done]. intros [= <- <-].
    exists n. split; [done|]. split; [done|]. split; [done|].
    split; [apply lookup_insert_eq|].
    split; [intros k' Hne; by apply lookup_insert_ne|].
    unfold unread_count.
    rewrite map_filter_insert_False by (cbn; apply unread_set_read).
    rewrite map_filter_delete, map_size_delete.
    destruct (Notification.is_read n) eqn:Hr.
    + rewrite (proj2 (map_lookup_filter_None _ _ k)); [cbn; lia|].
      right. intros n0. rewrite Hk. intros [= <-] [_ ?]. cbn in *. congruence.
    + rewrite (map_lookup_filter_Some_2 _ _ k n) by done.
      assert (size (filter
                (λ kv : uuid * Notification.t,
                   Notification.user_id kv.2 = user
                   ∧ Notification.is_read kv.2 = false) table) ≠ 0%nat) as Hpos.
      { intros Hz%map_size_empty_iff.
        apply (map_filter_empty_not_lookup _ _ k n) in Hz; done. }
      lia.
Qed.
End NotificationRoutes.

(** ** The pages of a task listing *)

Section Pagination.
Import TaskRoutes.

Lemma list_tasks_page_succ {A} (rows : list A) page page_size :
  (1 ≤ page)%nat →
  list_tasks_page rows (S page) page_size
  = list_tasks_page (drop page_size rows) page page_size.
Proof.
  intros Hp. unfold list_tasks_page. rewrite drop_drop. do 2 f_equal.
  destruct page as [|p]; [lia|]. cbn. lia.
Qed.

Lemma pages_cover {A} n (rows : list A) page_size :
  (length rows ≤ n * page_size)%nat →
  mjoin ((λ page, list_tasks_page rows page page_size) <$> seq 1 n) = rows.
Proof.
  revert rows. induction n as [|n IH]; intros rows Hlen.
  - destruct rows; [done|]. cbn in Hlen. lia.
  - cbn [seq fmap list_fmap mjoin list_join].
    rewrite <- fmap_S_seq, <- list_fmap_compose.
    rewrite (list_fmap_ext _
               (λ page, list_tasks_page (drop page_size rows) page page_size)
               (seq 1 n)).
    + rewrite IH by (rewrite length_drop; lia).
      unfold list_tasks_page. cbn. apply take_drop.
    + intros i page Hpage. cbn. apply list_tasks_page_succ.
      apply lookup_seq in Hpage. lia.
Qed.

Lemma total_pages_bounds total page_size :
  (0 < page_size)%nat →
  (total ≤ list_tasks_total_pages total page_size * page_size
   ∧ list_tasks_total_pages total page_size * page_size < total + page_size)%nat.
Proof.
  intros Hps. unfold list_tasks_total_pages.
  case_bool_decide as Hz; [lia|].
  pose proof (Nat.div_mod total page_size ltac:(lia)) as Hdm.
  pose proof (Nat.mod_upper_bound total page_size ltac:(lia)) as Hmod.
  case_bool_decide; nia.
Qed.

(** X24. With a page size of at least one, pages 1 to [total_pages] of a
    listing, one after another, are the whole listing: every row is on
    exactly one page, in order.  No page holds more than [page_size]
    rows, every page up to [total_pages] holds at least one, and every
    page after it is empty. *)
Theorem X24_pages_cover_listing {A} (rows : list A) page_size :
  (0 < page_size)%nat →
  let total_pages := list_tasks_total_pages (length rows) page_size in
  mjoin ((λ page, list_tasks_page rows page page_size) <$> seq 1 total_pages)
  = rows
  ∧ (∀ page, (length (list_tasks_page rows page page_size) ≤ page_size)%nat)
  ∧ (∀ page, (1 ≤ page ≤ total_pages)%nat →
             list_tasks_page rows page page_size ≠ [])
  ∧ (∀ page, (total_pages < page)%nat →
             list_tasks_page rows page page_size = []).
Proof.
  intros Hps total_pages.
  pose proof (total_pages_bounds (length rows) page_size Hps) as [Hlo Hhi].
  fold total_pages in Hlo, Hhi.
  split; [by apply pages_cover|]. split; [|split].
  - intros page. unfold list_tasks_page. rewrite length_take. lia.
  - intros page [H1 Hn] Hnil.
    apply (f_equal length) in Hnil. unfold list_tasks_page in Hnil.
    rewrite length_take, length_drop in Hnil. cbn in Hnil. nia.
  - intros page Hlt. unfold list_tasks_page.
    rewrite drop_ge; [by destruct page_size|]. nia.
Qed.

(** X24 for five rows in pages of two. *)
Lemma X24_pages_cover_listing_witness :
  let rows := [1; 2; 3; 4; 5]%nat in
  let total_pages := list_tasks_total_pages (length rows) 2 in
  mjoin ((λ page, list_tasks_page rows page 2) <$> seq 1 total_pages) = rows
  ∧ (∀ page, (length (list_tasks_page rows page 2) ≤ 2)%nat)
  ∧ (∀ page, (1 ≤ page ≤ total_pages)%nat → list_tasks_page rows page 2 ≠ [])
  ∧ (∀ page, (total_pages < page)%nat → list_tasks_page rows page 2 = []).
Proof.
  apply (X24_pages_cover_listing [1; 2; 3; 4; 5]%nat 2). lia.
Defined.
End Pagination.

(** ** The numbers of the overview, and the mail of the start-up pass *)

Section OverviewCounts.
Import Overview.

Implicit Types (d : DB) (m : gmap uuid Task.t).

(** Counting the rows of a property, row by row. *)
Lemma size_filter_insert (P : uuid * Task.t → Prop) `{!∀ x, Decision (P x)}
    m k t :
  m !! k = None →
  size (filter P (<[k := t]> m))
  = (size (filter P m) + if decide (P (k, t)) then 1 else 0)%nat.
Proof.
  intros Hk. rewrite map_filter_insert. destruct (decide (P (k, t))).
  - rewrite map_size_insert_None; [lia|].
    apply map_lookup_filter_None. by left.
  - rewrite delete_id by done. lia.
Qed.

(** Two tables that agree, key by key, on which rows have the property
    have as many such rows. *)
Lemma size_filter_ext (P Q : uuid * Task.t → Prop)
    `{!∀ x, Decision (P x)} `{!∀ x, Decision (Q x)} m m' :
  (∀ k, (∃ t, m !! k = Some t ∧ P (k, t))
        ↔ (∃ t, m' !! k = Some t ∧ Q (k, t))) →
  size (filter P m) = size (filter Q m').
Proof.
  intros Hext. rewrite <- !size_dom. f_equal. apply set_eq. intros k.
  rewrite !elem_of_dom. unfold is_Some.
  setoid_rewrite map_lookup_filter_Some. apply Hext.
Qed.

Lemma counts_add_up d :
  count_live d
  = (count_status TODO d + count_status IN_PROGRESS d
     + count_status COMPLETED d + count_status OVERDUE d)%nat.
Proof.
  unfold count_live, count_status. destruct d as [m us cs ns]. cbn.
  induction m as [|k t m Hk _ IH] using map_first_key_ind.
  - by rewrite !map_filter_empty, !map_size_empty.
  - rewrite !size_filter_insert by done. rewrite IH. cbn.
    destruct (Task.is_deleted t), (Task.status t);
      repeat (case_decide; try (exfalso; intuition congruence)); lia.
Qed.

(** The numbers counted after the transitions, in terms of the store as
    it was found. *)
Lemma counts_after_transitions now d :
  let o := counts (Analytics.get_overview_transitions now d) in
  total_tasks o = (todo o + in_progress o + completed o + overdue o)%nat
  ∧ total_tasks o = count_live d
  ∧ completed o = count_status COMPLETED d
  ∧ overdue o
    = size (filter (λ kv, Task.is_deleted kv.2 = false
                          ∧ (Task.status kv.2 = OVERDUE
                             ∨ overdue_where now kv.2 = true)) (tasks d)).
Proof.
  unfold counts. cbn.
  set (d1 := Analytics.get_overview_transitions now d).
  assert (∀ k, tasks d1 !! k = evaluate_row now <$> tasks d !! k) as Hrow.
  { intros k. apply get_overview_transitions_lookup. }
  assert (∀ t, Task.is_deleted (evaluate_row now t) = Task.is_deleted t) as Hdel.
  { intros t. unfold evaluate_row.
    destruct (overdue_where now t); cbn;
      by destruct (in_progress_where now _). }
  split; [rewrite (counts_add_up d1); lia|]. split; [|split].
  - unfold count_live.
    apply size_filter_ext. cbn.
    intros k. rewrite Hrow. destruct (tasks d !! k) as [t|]; cbn.
    + split; intros (t' & [= <-] & Hd); eexists; (split; [done|]);
        by rewrite ?Hdel in *.
    + by split; intros (? & [=] & _).
  - unfold count_status.
    apply size_filter_ext. cbn.
    intros k. rewrite Hrow. destruct (tasks d !! k) as [t|]; cbn;
      [|by split; intros (? & [=] & _)].
    pose proof (evaluate_row_step now t) as Hstep.
    split.
    + intros (t' & [= <-] & Hd & Hs). exists t. split; [done|].
      rewrite Hdel in Hd. split; [done|].
      destruct Hstep as [Heq|[(_ & _ & Heq)|(_ & _ & Heq)]];
        rewrite Heq in Hs; cbn in Hs; congruence.
    + intros (t' & [= <-] & Hd & Hs). eexists. split; [done|].
      rewrite evaluate_row_closed; [done|]. left. rewrite Hs. status_cases.
  - unfold count_status.
    apply size_filter_ext. cbn.
    intros k. rewrite Hrow. destruct (tasks d !! k) as [t|]; cbn;
      [|by split; intros (? & [=] & _)].
    split.
    + intros (t' & [= <-] & Hd & Hs). exists t. split; [done|].
      rewrite Hdel in Hd. split; [done|].
      unfold evaluate_row in Hs.
      destruct (overdue_where now t) eqn:Hw; [by right|].
      destruct (in_progress_where now t); cbn in Hs; [done|by left].
    + intros (t' & [= <-] & Hd & Hs). eexists. split; [done|].
      rewrite Hdel. split; [done|].
      destruct Hs as [Hs|Hw].
      * rewrite evaluate_row_closed; [done|]. left. rewrite Hs. status_cases.
      * unfold evaluate_row. rewrite Hw.
        destruct (in_progress_where now (Task.set_status OVERDUE t)) eqn:Hp;
          [|done].
        by apply in_progress_where_spec in Hp as (_ & ? & _).
Qed.

Variable model_dump_json : TaskOverview → string.
Variable model_validate_json : string → option TaskOverview.

(** X25. When [get_overview] answers on a cache miss, its numbers add up:
    todo, in progress, completed and overdue together are the total,
    which is the number of live tasks; the overdue number counts every
    live task that is OVERDUE or past due and open in the store as it
    was found, whether or not the worker has run; and the answer is
    cached under the user's key.  When it answers on a hit, the answer
    is the cached one as it validates, and nothing is evaluated, changed
    or cached. *)
Theorem X25_overview_counts now user w o w' :
  get_overview model_dump_json model_validate_json now user w = inr (o, w') →
  (cache w !! AnalyticsKeys.overview user = None
   ∨ cache w !! AnalyticsKeys.overview user = Some "" →
   total_tasks o = (todo o + in_progress o + completed o + overdue o)%nat
   ∧ total_tasks o = count_live (session w)
   ∧ completed o = count_status COMPLETED (session w)
   ∧ overdue o
     = size (filter (λ kv, Task.is_deleted kv.2 = false
                           ∧ (Task.status kv.2 = OVERDUE
                              ∨ overdue_where now kv.2 = true))
               (tasks (session w)))
   ∧ session w' = Analytics.get_overview_transitions now (session w)
   ∧ cache w'
     = <[AnalyticsKeys.overview user := model_dump_json o]> (cache w))
  ∧ (∀ json, cache w !! AnalyticsKeys.overview user = Some json → json ≠ "" →
             model_validate_json json = Some o ∧ w' = w).
Proof.
  unfold get_overview, get_cache, Cache.cache_get, mbind at 1, Handler_bind at 1.
  assert (∀ o1 w1,
            evaluate_and_count model_dump_json now user w = inr (o1, w1) →
            o1 = counts (Analytics.get_overview_transitions now (session w))
            ∧ session w1 = Analytics.get_overview_transitions now (session w)
            ∧ cache w1
              = <[AnalyticsKeys.overview user := model_dump_json o1]> (cache w))
    as Hmiss.
  { intros o1 w1. unfold evaluate_and_count, set_cache, Cache.cache_set.
    handler_unfold. by intros [= <- <-]. }
  intros Hrun. split.
  - intros Hnone.
    assert (evaluate_and_count model_dump_json now user w = inr (o, w')) as He.
    { destruct Hnone as [Hc|Hc]; rewrite Hc in Hrun; [done|].
      by rewrite bool_decide_eq_true_2 in Hrun. }
    apply Hmiss in He as (-> & Hs & Hc).
    pose proof (counts_after_transitions now (session w)) as (H1 & H2 & H3 & H4).
    done.
  - intros json Hc Hne. rewrite Hc in Hrun.
    rewrite bool_decide_eq_false_2 in Hrun by done.
    destruct (model_validate_json json) as [o1|]; [|done].
    handler_unfold. by injection Hrun as <- <-.
Qed.
End OverviewCounts.

(** X25 for Bob, for whom nothing is cached in the sample world: five
    tasks, four of them live, one completed and two overdue once
    counted. *)
Lemma X25_overview_counts_witness :
  let dump := λ _ : Overview.TaskOverview, "overview" in
  let load := λ _ : string, @None Overview.TaskOverview in
  ∃ o w',
    Overview.get_overview dump load Sample.now "11" Sample.world = inr (o, w')
    ∧ Overview.total_tasks o = 4%nat ∧ Overview.overdue o = 2%nat
    ∧ Overview.total_tasks o
      = (Overview.todo o + Overview.in_progress o + Overview.completed o
         + Overview.overdue o)%nat
    ∧ Overview.total_tasks o = Overview.count_live (session Sample.world)
    ∧ session w'
      = Analytics.get_overview_transitions Sample.now (session Sample.world)
    ∧ cache w' = <[AnalyticsKeys.overview "11" := dump o]> (cache Sample.world).
Proof.
  cbn zeta. eexists _, _. split; [vm_compute; reflexivity|].
  split; [reflexivity|]. split; [reflexivity|].
  edestruct (X25_overview_counts (λ _, "overview") (λ _, None) Sample.now "11"
               Sample.world) as [Hmiss _].
  - vm_compute. reflexivity.
  - destruct Hmiss as (Hsum & Htotal & _ & _ & Hsession & Hcache);
      [left; vm_compute; reflexivity|].
    split; [exact Hsum|]. split; [exact Htotal|].
    split; [exact Hsession|exact Hcache].
Defined.

Section StartupMail.
Import CeleryWorker.

(** X26. For a past-due open task with [notify_overdue] and no assignee,
    the start-up pass, when it commits, mails the creator, if the creator
    has an address; the worker, which mails assignees only, queues no
    mail at all when none of the tasks it selects has an assignee,
    whether it commits or not. *)
Theorem X26_startup_mails_creator now d q k t creator :
  tasks d !! k = Some t →
  overdue_where now t = true →
  Task.notify_overdue t = true →
  Task.assigned_to t = None →
  users d !! Task.created_by t = Some creator →
  User.email creator ≠ "" →
  (notifications_fit now d →
   ∃ sent, (Main.lifespan now d q).2 = q ++ sent
           ∧ overdue_email (User.email creator) t ∈ sent)
  ∧ ((∀ k' t', tasks d !! k' = Some t' → overdue_where now t' = true →
               Task.assigned_to t' = None) →
     (process_task_overdue_check now d q).1.2 = q).
Proof.
  intros Hk Hw Hn Ha Hu Hmail. split.
  - intros Hfit. eexists. rewrite lifespan_commits by done. cbn [snd].
    split; [done|].
    apply list_elem_of_join. exists (Main.recipient_mail t d). split.
    + unfold Main.recipient_mail, notify_user_id. rewrite Ha. cbn. rewrite Hu.
      rewrite bool_decide_eq_false_2 by done. apply list_elem_of_here.
    + apply list_elem_of_fmap. exists (k, t). split; [done|].
      apply list_elem_of_filter. split; [done|]. by apply elem_of_select_overdue.
  - intros Hnone.
    assert (mjoin ((λ row : uuid * Task.t, assignee_mail row.2 d)
                     <$> filter notifying (select_overdue now d)) = []) as Hnil.
    { apply join_nil, Forall_fmap, Forall_forall. intros [k' t'] Hin.
      apply list_elem_of_filter in Hin as [_ Hin].
      apply elem_of_select_overdue in Hin as [Hk' Hw'].
      cbn. unfold assignee_mail. by rewrite (Hnone k' t' Hk' Hw'). }
    destruct (decide (notifications_fit now d)) as [Hfit|Hfit].
    + rewrite sweep_commits by done. cbn. by rewrite Hnil, app_nil_r.
    + destruct (sweep_raises now d q Hfit) as (sent & -> & Hpre). cbn.
      rewrite Hnil in Hpre. apply prefix_nil_inv in Hpre as ->.
      by rewrite app_nil_r.
Qed.
End StartupMail.

(** X26 for a task like the quiet one of the sample store, to be
    announced. *)
Lemma X26_startup_mails_creator_witness :
  let loud :=
    Task.mk "quiet" None IN_PROGRESS LOW None (Some 50) true false 10%N None in
  let d := mkDB {[ 2%N := loud ]} (users Sample.store) ∅ [] in
  (∃ sent, (Main.lifespan Sample.now d []).2 = [] ++ sent
           ∧ overdue_email (User.email Sample.alice) loud ∈ sent)
  ∧ (CeleryWorker.process_task_overdue_check Sample.now d []).1.2 = [].
Proof.
  cbn zeta.
  edestruct (X26_startup_mails_creator Sample.now
           (mkDB {[ 2%N := Task.mk "quiet" None IN_PROGRESS LOW None (Some 50)
                             true false 10%N None ]}
                 (users Sample.store) ∅ [])
           [] 2%N
           (Task.mk "quiet" None IN_PROGRESS LOW None (Some 50) true false 10%N
                    None)
           Sample.alice) as [Hstart Hworker]; try reflexivity.
  - discriminate.
  - split; [apply Hstart; vm_compute; reflexivity|].
    apply Hworker. intros k' t' Hk' _. cbn [tasks] in Hk'.
    apply lookup_singleton_Some in Hk' as [_ <-]. reflexivity.
Defined.
